(** * vlitejs: the Player core, its control bar and the host shell

    A shallow embedding of [src/vlite/js/player.ts], of the control bar
    that [player.ts] imports from [shared/control-bar], and of the parts
    of [src/vlite/js/vlite.ts] the player calls back into, followed by
    the properties of the specification that concern them.

    - A JavaScript [number] is a binary64 float ([PrimFloat.float]); [>] and
      [<=] are the IEEE comparisons, false on NaN.
    - Objects used as dictionaries ([customEvents], the options) are finite
      maps of their own keys; in [customEvents], which is written under
      any name a caller gives, the name [__proto__] is told apart.
    - The DOM is a store of elements indexed by node identity, so that two
      references to one node see the same element.
    - Methods are computations in a state-and-exception monad: a method either
      completes normally or throws, and in both cases leaves a state behind.
    - A callback given to [then] does not run inside the call that
      registers it: it is queued, and running it is a step of its own.
    - The provider (the subclass that overrides [methodPlay] and the like),
      the listeners and the helpers imported from [shared/utils] are outside
      the files modelled here; they are parameters of the development.
    - The templates are outside these files too, so [build()] and the
      rendering of the markup are left out: the document is given, and
      [cacheElements] binds the controls found in it. *)

From Stdlib Require Import Floats.
From stdpp Require Import gmap strings list.

Set Default Proof Using "Type".

(** ** Values *)

(** Identity of a function object (listeners, the [onReady] callback). *)
Definition fn := nat.

(** Identity of a DOM node. *)
Definition node := nat.

(** The JavaScript values that reach the modelled code through option
    objects and untyped arguments. *)
Inductive jsval :=
| JUndefined
| JNull
| JBool (b : bool)
| JNum (x : float)
| JStr (s : string)
| JFun (f : fn).

(** ToBoolean. *)
Definition truthy (v : jsval) : bool :=
  match v with
  | JUndefined | JNull => false
  | JBool b => b
  | JNum x => negb ((x =? 0)%float || is_nan x)
  | JStr s => negb (String.eqb s "")
  | JFun _ => true
  end.

(** [v instanceof Function]. *)
Definition instanceofFunction (v : jsval) : option fn :=
  match v with JFun f => Some f | _ => None end.

(** Property read [o[k]] on a dictionary object: [undefined] when absent. *)
Definition prop (o : gmap string jsval) (k : string) : jsval :=
  default JUndefined (o !! k).

(** An exception value: [new Error(message)], [new TypeError(message)]. *)
Inductive Error := mkError (name : string) (message : string).

(** How a call ends. *)
Inductive Completion (A : Type) :=
| Normal (a : A)
| Throw (e : Error).
Arguments Normal {A} a.
Arguments Throw {A} e.

(** The fate of a promise handed out by the provider: it fulfils with a
    number, it rejects, or it never settles. *)
Inductive Fate :=
| Fulfilled (x : float)
| Rejected (e : Error)
| Pending.

(** [Promise.all([p, q])]: fulfils with both values once both have
    fulfilled, rejects as soon as one rejects (with [p]'s reason when both
    do), and stays pending otherwise. *)
Inductive FatePair :=
| BothFulfilled (x y : float)
| OneRejected (e : Error)
| StillPending.

Definition Promise_all (p q : Fate) : FatePair :=
  match p, q with
  | Rejected e, _ => OneRejected e
  | _, Rejected e => OneRejected e
  | Fulfilled x, Fulfilled y => BothFulfilled x y
  | _, _ => StillPending
  end.

(** ** The document *)

Record Element := mkElement {
  classList : gset string;
  attributes : gmap string string;
  style : gmap string string;
  value : string;
  innerHTML : string
}.

Definition blank : Element :=
  {| classList := ∅; attributes := ∅; style := ∅; value := ""; innerHTML := "" |}.

Definition classList_add (c : string) (e : Element) : Element :=
  {| classList := classList e ∪ {[c]}; attributes := attributes e;
     style := style e; value := value e; innerHTML := innerHTML e |}.

Definition classList_remove (c : string) (e : Element) : Element :=
  {| classList := classList e ∖ {[c]}; attributes := attributes e;
     style := style e; value := value e; innerHTML := innerHTML e |}.

(** [classList.replace(old, new)]: only when [old] is present. *)
Definition classList_replace (old new : string) (e : Element) : Element :=
  if decide (old ∈ classList e)
  then {| classList := (classList e ∖ {[old]}) ∪ {[new]};
          attributes := attributes e; style := style e; value := value e;
          innerHTML := innerHTML e |}
  else e.

Definition classList_contains (c : string) (e : Element) : bool :=
  bool_decide (c ∈ classList e).

Definition setAttribute (k v : string) (e : Element) : Element :=
  {| classList := classList e; attributes := <[k := v]> (attributes e);
     style := style e; value := value e; innerHTML := innerHTML e |}.

Definition removeAttribute (k : string) (e : Element) : Element :=
  {| classList := classList e; attributes := delete k (attributes e);
     style := style e; value := value e; innerHTML := innerHTML e |}.

Definition hasAttribute (k : string) (e : Element) : bool :=
  bool_decide (is_Some (attributes e !! k)).

Definition style_setProperty (k v : string) (e : Element) : Element :=
  {| classList := classList e; attributes := attributes e;
     style := <[k := v]> (style e); value := value e; innerHTML := innerHTML e |}.

(** [e.value = v]. The field holds the string that was assigned. An
    input of type range, which the progress bar is, keeps a sanitised
    value (brought between its min and max and onto its step, or its
    default for a string that is no number): that depends on
    attributes the template gives, outside the files modelled here. So
    [value] is read back below only where the literal ['0'] was
    assigned. *)
Definition set_value (v : string) (e : Element) : Element :=
  {| classList := classList e; attributes := attributes e;
     style := style e; value := v; innerHTML := innerHTML e |}.

Definition set_innerHTML (h : string) (e : Element) : Element :=
  {| classList := classList e; attributes := attributes e;
     style := style e; value := value e; innerHTML := h |}.

(** The part of the page the player lives in. [descendants] lists, for a
    node, the elements below it in document order: what [querySelector]
    walks. [media_muted] is the [muted] property of the media element;
    [media_props] and [document_props] are the property names under which
    the media element and the document hold a truthy value (the vendor
    fullscreen functions). *)
Record Document := mkDocument {
  nodes : gmap node Element;
  descendants : gmap node (list node);
  media_muted : bool;
  media_props : gset string;
  document_props : gset string
}.

Definition elem (d : Document) (n : node) : Element :=
  default blank (nodes d !! n).

Definition update (n : node) (f : Element → Element) (d : Document) : Document :=
  {| nodes := alter f n (nodes d); descendants := descendants d;
     media_muted := media_muted d; media_props := media_props d;
     document_props := document_props d |}.

(** [n.querySelector('.c')]: the first descendant carrying class [c]. *)
Definition querySelector (d : Document) (n : node) (c : string) : option node :=
  head (filter (λ m, c ∈ classList (elem d m)) (default [] (descendants d !! n))).

(** ** Objects *)

(** The result of [checkSupportFullScreen()]: the vendor names of the
    fullscreen request and cancel functions. *)
Record FullScreenSupport := mkFullScreenSupport {
  requestFn : string;
  cancelFn : string
}.

(** The fields of the [Vlitejs] instance the player reads. *)
Module V.
Record t := mk {
  media : node;
  container : node;
  type : string;
  options : gmap string jsval;
  onReady : jsval;
  isPaused : bool;
  delayAutoHide : nat;
  supportFullScreen : FullScreenSupport;
  autoHideGranted : bool;
  timerAutoHide : option nat
}.

Definition set_timerAutoHide (h : option nat) (v : t) : t :=
  {| media := media v; container := container v; type := type v;
     options := options v; onReady := onReady v; isPaused := isPaused v;
     delayAutoHide := delayAutoHide v;
     supportFullScreen := supportFullScreen v;
     autoHideGranted := autoHideGranted v; timerAutoHide := h |}.
End V.

(** The [Player] instance. [type], [media] and [options] are the values of
  the [Vlitejs] instance ([this.options = Vlitejs.options] shares the
  object), so they are read there. [isPaused] is [null | Boolean]:
  [None] stands for [null]. [isMuted] holds whatever the [muted] option
  held until the first assignment of a boolean. *)
Module P.
Record Elements := mkElements {
  container : node;
  bigPlay : option node;
  poster : option node;
  controlBar : option node;
  playPause : option node;
  progressBar : option node;
  currentTime : option node;
  duration : option node;
  volume : option node;
  fullscreen : option node
}.

Record t := mk {
  elements : Elements;
  isFullScreen : bool;
  isMuted : jsval;
  isPaused : option bool;
  delayAutoHide : nat;
  customEvents : gmap string (list fn)
}.

Definition set_elements (x : Elements) (p : t) : t :=
  {| elements := x; isFullScreen := isFullScreen p; isMuted := isMuted p;
     isPaused := isPaused p; delayAutoHide := delayAutoHide p;
     customEvents := customEvents p |}.
Definition set_isFullScreen (x : bool) (p : t) : t :=
  {| elements := elements p; isFullScreen := x; isMuted := isMuted p;
     isPaused := isPaused p; delayAutoHide := delayAutoHide p;
     customEvents := customEvents p |}.
Definition set_isMuted (x : jsval) (p : t) : t :=
  {| elements := elements p; isFullScreen := isFullScreen p; isMuted := x;
     isPaused := isPaused p; delayAutoHide := delayAutoHide p;
     customEvents := customEvents p |}.
Definition set_isPaused (x : option bool) (p : t) : t :=
  {| elements := elements p; isFullScreen := isFullScreen p;
     isMuted := isMuted p; isPaused := x; delayAutoHide := delayAutoHide p;
     customEvents := customEvents p |}.
Definition set_customEvents (x : gmap string (list fn)) (p : t) : t :=
  {| elements := elements p; isFullScreen := isFullScreen p;
     isMuted := isMuted p; isPaused := isPaused p;
     delayAutoHide := delayAutoHide p; customEvents := x |}.
End P.

(** ** What the outside observes *)

(** A provider method, with its argument. *)
Inductive Method :=
| m_init
| m_waitUntilVideoIsReady
| m_getInstance
| m_getCurrentTime
| m_methodSeekTo (newTime : float)
| m_getDuration
| m_methodPlay
| m_methodPause
| m_methodSetVolume (newVolume : float)
| m_methodGetVolume
| m_methodMute
| m_methodUnMute.

Inductive Event :=
| Call (m : Method)                      (* a provider method is invoked *)
| Dispatch (type : string)               (* dispatchEvent(type) is entered *)
| Invoke (f : fn)                        (* a function object is called *)
| HostCall (target : string) (name : string) (* container[requestFn](), document[cancelFn]() *)
| SetTimeout (handle : nat) (delay : nat)
| ClearTimeout (handle : option nat)
| RemoveEventListener (target : node) (type : string) (handler : string)
| Remove (target : node).                (* target.remove() *)

(** ** Promises built by the player *)

(** The two reactions the host shell attaches to the promise of
    [getVolume]: [increaseVolume]'s and [decreaseVolume]'s callbacks. *)
Inductive Reaction :=
| ThenIncrease
| ThenDecrease.

(** The promise [getVolume] builds with [new window.Promise]. *)
Inductive Cell :=
| CellPending (reactions : list Reaction)
| CellFulfilled (x : float)
| CellRejected (e : Error).

(** Reaction jobs waiting for the event loop: the body of a [then]
    callback together with the value it will receive. *)
Inductive Job :=
| JobTimeUpdate (seconds duration : float)   (* the callback of onTimeUpdate *)
| JobDuration (duration : float)             (* the callback of ControlBar.onPlayerReady *)
| JobResolve (c : nat) (volume : float)      (* (volume) => resolve(volume) in getVolume *)
| JobReaction (r : Reaction) (volume : float).

(** ** State *)

Record State := mkState {
  vlitejs : V.t;
  player : P.t;
  document : Document;
  trace : list Event;
  jobs : list Job;
  cells : gmap nat Cell;
  timers : gmap nat node;
  next_timer : nat;
  unhandled : list Error
}.

Definition with_vlitejs (f : V.t → V.t) (s : State) : State :=
  {| vlitejs := f (vlitejs s); player := player s; document := document s;
     trace := trace s; jobs := jobs s; cells := cells s; timers := timers s;
     next_timer := next_timer s; unhandled := unhandled s |}.
Definition with_player (f : P.t → P.t) (s : State) : State :=
  {| vlitejs := vlitejs s; player := f (player s); document := document s;
     trace := trace s; jobs := jobs s; cells := cells s; timers := timers s;
     next_timer := next_timer s; unhandled := unhandled s |}.
Definition with_document (f : Document → Document) (s : State) : State :=
  {| vlitejs := vlitejs s; player := player s; document := f (document s);
     trace := trace s; jobs := jobs s; cells := cells s; timers := timers s;
     next_timer := next_timer s; unhandled := unhandled s |}.
Definition with_trace (f : list Event → list Event) (s : State) : State :=
  {| vlitejs := vlitejs s; player := player s; document := document s;
     trace := f (trace s); jobs := jobs s; cells := cells s;
     timers := timers s; next_timer := next_timer s;
     unhandled := unhandled s |}.
Definition with_jobs (f : list Job → list Job) (s : State) : State :=
  {| vlitejs := vlitejs s; player := player s; document := document s;
     trace := trace s; jobs := f (jobs s); cells := cells s;
     timers := timers s; next_timer := next_timer s;
     unhandled := unhandled s |}.
Definition with_cells (f : gmap nat Cell → gmap nat Cell) (s : State) : State :=
  {| vlitejs := vlitejs s; player := player s; document := document s;
     trace := trace s; jobs := jobs s; cells := f (cells s);
     timers := timers s; next_timer := next_timer s;
     unhandled := unhandled s |}.
Definition with_timers (f : gmap nat node → gmap nat node) (n : nat) (s : State) : State :=
  {| vlitejs := vlitejs s; player := player s; document := document s;
     trace := trace s; jobs := jobs s; cells := cells s;
     timers := f (timers s); next_timer := n; unhandled := unhandled s |}.
Definition with_unhandled (f : list Error → list Error) (s : State) : State :=
  {| vlitejs := vlitejs s; player := player s; document := document s;
     trace := trace s; jobs := jobs s; cells := cells s; timers := timers s;
     next_timer := next_timer s; unhandled := f (unhandled s) |}.

(** ** The monad of methods *)

Definition M (A : Type) : Type := State → Completion A * State.

Definition ret {A} (a : A) : M A := λ s, (Normal a, s).

Definition bind {A B} (k : A → M B) (m : M A) : M B :=
  λ s, match m s with
       | (Normal a, s') => k a s'
       | (Throw e, s') => (Throw e, s')
       end.

#[global] Instance M_ret : MRet M := @ret.
#[global] Instance M_bind : MBind M := @bind.

Definition lift {A} (c : Completion A) : M A := λ s, (c, s).

Definition get : M State := λ s, (Normal s, s).

Definition modify (f : State → State) : M unit := λ s, (Normal tt, f s).

(** [if (c) { m }] and [c && m()]. *)
Definition when (c : bool) (m : M unit) : M unit :=
  if c then m else mret tt.

(** [if (ref) { ... ref ... }] for a node reference that may be [null]. *)
Definition ifNode (r : option node) (k : node → M unit) : M unit :=
  match r with Some n => k n | None => mret tt end.

Definition log (e : Event) : M unit := modify (with_trace (λ t, t ++ [e])).

Definition dom_update (n : node) (f : Element → Element) : M unit :=
  modify (with_document (update n f)).

Definition assign (f : P.t → P.t) : M unit := modify (with_player f).

(** The post-state and the completion of running [m] from [s]. *)
Definition after {A} (m : M A) (s : State) : State := (m s).2.
Definition outcome {A} (m : M A) (s : State) : Completion A := (m s).1.

(** ** Construction *)

(** [new Player({ Vlitejs, type })] in document [d]: the state in which the
    player starts. The control bar it creates only keeps a reference to
    the player, and nothing has been observed or queued yet. *)
Definition Player_constructor (Vlitejs : V.t) (d : Document) : State :=
  {| vlitejs := Vlitejs;
     player :=
       {| P.elements :=
            {| P.container := V.container Vlitejs;
               P.bigPlay := querySelector d (V.container Vlitejs) "v-bigPlay";
               P.poster := querySelector d (V.container Vlitejs) "v-poster";
               P.controlBar := None;
               P.playPause := None;
               P.progressBar := None;
               P.currentTime := None;
               P.duration := None;
               P.volume := None;
               P.fullscreen := None |};
          P.isFullScreen := false;
          P.isMuted := prop (V.options Vlitejs) "muted";
          P.isPaused := None;
          P.delayAutoHide := 3000;
          P.customEvents := ∅ |};
     document := d;
     trace := [];
     jobs := [];
     cells := ∅;
     timers := ∅;
     next_timer := 0;
     unhandled := [] |}.

(** [DEFAULT_OPTIONS[type]]; [type] is audio or video, and every name
    but audio selects the video defaults here. *)
Definition DEFAULT_OPTIONS (type : string) : gmap string jsval :=
  if String.eqb type "audio" then
    list_to_map
      [("autoplay", JBool false); ("controls", JBool true);
       ("playPause", JBool true); ("progressBar", JBool true);
       ("time", JBool true); ("volume", JBool true); ("loop", JBool false)]
  else
    list_to_map
      [("autoplay", JBool false); ("controls", JBool true);
       ("playPause", JBool true); ("progressBar", JBool true);
       ("time", JBool true); ("volume", JBool true);
       ("fullscreen", JBool true); ("poster", JNull); ("bigPlay", JBool true);
       ("autoHide", JBool false); ("playsinline", JBool true);
       ("loop", JBool false); ("muted", JBool false)].

Definition domAttributes : list string :=
  ["autoplay"; "playsinline"; "muted"; "loop"].

(** One round of the loop over [domAttributes] in the constructor of
    [Vlitejs], on the media element and the options object of the caller. *)
Definition syncAttribute (st : Element * gmap string jsval) (item : string)
  : Element * gmap string jsval :=
  let '(media, options) := st in
  if hasAttribute item media then (media, <[item := JBool true]> options)
  else if truthy (prop options item) then (setAttribute item "" media, options)
  else (media, options).

(** The constructor of [Vlitejs] from the loop over [domAttributes] to
    the assignment of [this.options]: the media element and the merged
    options it leaves. *)
Definition Vlitejs_options (type : string) (media : Element)
    (options : gmap string jsval) : Element * gmap string jsval :=
  let '(media', options') := foldl syncAttribute (media, options) domAttributes in
  (media', options' ∪ DEFAULT_OPTIONS type).

(** *** vlite.ts: the head of the constructor *)

(** What reading a property of [null] throws; the wording of the message
    is the engine's. *)
Definition nullDereference : Error :=
  mkError "TypeError" "Cannot read properties of null".

(** What the first argument of [new Vlitejs] can be: a string, an element
    of some class, or any other value. *)
Inductive ElementKind :=
| HTMLVideoElement
| HTMLAudioElement
| OtherElement.

Inductive Selector :=
| SelectorString (selector : string)
| SelectorElement (n : node) (kind : ElementKind)
| SelectorOther.

Definition invalidSelector : Error :=
  mkError "TypeError" "vlitejs :: The element or selector supplied is not valid.".

(** The assignment of [this.media]; [lookup] is [document.querySelector],
    which gives the first element matching the selector, of whatever
    class, or [null]. *)
Definition Vlitejs_media (lookup : string → option (node * ElementKind))
    (selector : Selector) : Completion (option (node * ElementKind)) :=
  match selector with
  | SelectorString s => Normal (lookup s)
  | SelectorElement n HTMLVideoElement => Normal (Some (n, HTMLVideoElement))
  | SelectorElement n HTMLAudioElement => Normal (Some (n, HTMLAudioElement))
  | SelectorElement _ OtherElement => Throw invalidSelector
  | SelectorOther => Throw invalidSelector
  end.

(** [this.media instanceof HTMLAudioElement ? 'audio' : 'video']. *)
Definition Vlitejs_type (media : option (node * ElementKind)) : string :=
  match media with
  | Some (_, HTMLAudioElement) => "audio"
  | _ => "video"
  end.

(** [this.autoHideGranted]. *)
Definition Vlitejs_autoHideGranted (type : string) (options : gmap string jsval) : bool :=
  String.eqb type "video" && truthy (prop options "autoHide")
  && truthy (prop options "controls").

(** What the constructor has assigned when it reaches [wrapElement]. *)
Record VlitejsHead := mkVlitejsHead {
  head_media : node;
  head_type : string;
  head_element : Element;
  head_options : gmap string jsval;
  head_isPaused : bool;
  head_delayAutoHide : nat;
  head_autoHideGranted : bool
}.

(** The constructor of [Vlitejs] from its first line to the assignment of
    [autoHideGranted], in document [d] and with the options object of the
    caller. The loop over the attributes calls [hasAttribute] on
    [this.media], which throws when the selector matched nothing. *)
Definition Vlitejs_constructor_head (lookup : string → option (node * ElementKind))
    (d : Document) (selector : Selector) (options : gmap string jsval)
  : Completion VlitejsHead :=
  match Vlitejs_media lookup selector with
  | Throw e => Throw e
  | Normal media =>
      let type := Vlitejs_type media in
      match media with
      | None => Throw nullDereference
      | Some (n, _) =>
          let '(element, merged) := Vlitejs_options type (elem d n) options in
          Normal {| head_media := n; head_type := type; head_element := element;
                    head_options := merged; head_isPaused := true;
                    head_delayAutoHide := 3000;
                    head_autoHideGranted := Vlitejs_autoHideGranted type merged |}
      end
  end.

(** ** The provider and the host *)

(** The methods a provider overrides. A provider acts on its backend, which
    is no part of [State]; what the player sees of a call is how it
    completes. *)
Module Provider.
Record t := mk {
  init : Completion unit;
  waitUntilVideoIsReady : Completion unit;
  getInstance : Completion unit;
  getCurrentTime : Completion Fate;
  methodSeekTo : float → Completion unit;
  getDuration : Completion Fate;
  methodPlay : Completion unit;
  methodPause : Completion unit;
  methodSetVolume : float → Completion unit;
  methodGetVolume : Completion Fate;
  methodMute : Completion unit;
  methodUnMute : Completion unit
}.
End Provider.

(** The double quote character. *)
Definition dquote : string := String (Ascii.ascii_of_nat 34) EmptyString.

(** [new Error('You have to implement the function <quoted name>.')]. *)
Definition notImplemented (name : string) : Error :=
  mkError "Error"
    ("You have to implement the function " +:+ dquote +:+ name +:+ dquote +:+ ".").

(** The class [Player] itself: every method a provider has to override
    throws. *)
Definition Player_base : Provider.t :=
  {| Provider.init := Throw (notImplemented "init");
     Provider.waitUntilVideoIsReady := Throw (notImplemented "waitUntilVideoIsReady");
     Provider.getInstance := Throw (notImplemented "getInstance");
     Provider.getCurrentTime := Throw (notImplemented "getCurrentTime");
     Provider.methodSeekTo := λ _, Throw (notImplemented "methodSeekTo");
     Provider.getDuration := Throw (notImplemented "getDuration");
     Provider.methodPlay := Throw (notImplemented "methodPlay");
     Provider.methodPause := Throw (notImplemented "methodPause");
     Provider.methodSetVolume := λ _, Throw (notImplemented "methodSetVolume");
     Provider.methodGetVolume := Throw (notImplemented "methodGetVolume");
     Provider.methodMute := Throw (notImplemented "methodMute");
     Provider.methodUnMute := Throw (notImplemented "methodUnMute") |}.

(** What the page and the imported helpers contribute: how a function
    object completes when called, how the vendor fullscreen functions
    complete, [Math.round], the conversion of a number to a string in a
    template literal, and [formatVideoTime] of [shared/utils]. A function
    object is taken to leave the player alone while it runs: what a
    listener does through the methods of the player is an operation of
    its own. *)
Module Host.
Record t := mk {
  call : fn → Completion unit;
  hostCall : string → string → Completion unit;
  Math_round : float → float;
  toString : float → string;
  formatVideoTime : float → string
}.
End Host.

(** ** The methods *)

Section Methods.
Variable provider : Provider.t.
Variable host : Host.t.

(** *** Calls into the provider (dynamic dispatch on [this]) *)

Definition init : M unit :=
  log (Call m_init);; lift (Provider.init provider).
Definition waitUntilVideoIsReady : M unit :=
  log (Call m_waitUntilVideoIsReady);; lift (Provider.waitUntilVideoIsReady provider).
Definition getInstance : M unit :=
  log (Call m_getInstance);; lift (Provider.getInstance provider).
Definition getCurrentTime : M Fate :=
  log (Call m_getCurrentTime);; lift (Provider.getCurrentTime provider).
Definition methodSeekTo (newTime : float) : M unit :=
  log (Call (m_methodSeekTo newTime));; lift (Provider.methodSeekTo provider newTime).
Definition getDuration : M Fate :=
  log (Call m_getDuration);; lift (Provider.getDuration provider).
Definition methodPlay : M unit :=
  log (Call m_methodPlay);; lift (Provider.methodPlay provider).
Definition methodPause : M unit :=
  log (Call m_methodPause);; lift (Provider.methodPause provider).
Definition methodSetVolume (newVolume : float) : M unit :=
  log (Call (m_methodSetVolume newVolume));;
  lift (Provider.methodSetVolume provider newVolume).
Definition methodGetVolume : M Fate :=
  log (Call m_methodGetVolume);; lift (Provider.methodGetVolume provider).
Definition methodMute : M unit :=
  log (Call m_methodMute);; lift (Provider.methodMute provider).
Definition methodUnMute : M unit :=
  log (Call m_methodUnMute);; lift (Provider.methodUnMute provider).

(** *** Access paths *)

(** [this.options.k], [this.type === 'video']. *)
Definition option_ (k : string) : M jsval :=
  s ← get; mret (prop (V.options (vlitejs s)) k).
Definition isVideo : M bool :=
  s ← get; mret (String.eqb (V.type (vlitejs s)) "video").

(** [this.elements.container.f(...)]. *)
Definition onContainer (f : Element → Element) : M unit :=
  s ← get; dom_update (P.container (P.elements (player s))) f.

(** [if (this.elements.r) { this.elements.r ... }]. *)
Definition ifElement (r : P.Elements → option node) (k : node → M unit) : M unit :=
  s ← get; ifNode (r (P.elements (player s))) k.

(** Calling a function object. *)
Definition callFunction (f : fn) : M unit :=
  log (Invoke f);; lift (Host.call host f).

(** [l.forEach(f)]. *)
Fixpoint forEach {A} (l : list A) (f : A → M unit) : M unit :=
  match l with
  | [] => mret tt
  | x :: l' => f x;; forEach l' f
  end.

(** *** Promises *)

(** [p.then(callback)] on a promise of the provider, the promise that
    [then] returns being dropped, as everywhere in the sources: when [p]
    fulfils the callback is queued with the value; when [p] rejects the
    callback never runs and the dropped promise rejects with nobody to
    handle it. *)
Definition then_ (p : Fate) (callback : float → Job) : M unit :=
  match p with
  | Fulfilled x => modify (with_jobs (λ q, q ++ [callback x]))
  | Rejected e => modify (with_unhandled (λ u, u ++ [e]))
  | Pending => mret tt
  end.

(** The same on [Promise.all([p, q])]. *)
Definition then_all (pq : FatePair) (callback : float → float → Job) : M unit :=
  match pq with
  | BothFulfilled x y => modify (with_jobs (λ q, q ++ [callback x y]))
  | OneRejected e => modify (with_unhandled (λ u, u ++ [e]))
  | StillPending => mret tt
  end.

(** [resolve(x)] of the promise in cell [c]: the first call settles it and
    queues the reactions attached so far. *)
Definition resolve (c : nat) (x : float) : M unit :=
  s ← get;
  match cells s !! c with
  | Some (CellPending reactions) =>
      modify (with_cells (<[c := CellFulfilled x]>));;
      modify (with_jobs (λ q, q ++ map (λ r, JobReaction r x) reactions))
  | _ => mret tt
  end.

(** Rejection of the promise in cell [c] (its executor threw). Each
    reaction attached so far belongs to a dropped promise, which rejects
    unhandled. *)
Definition reject (c : nat) (e : Error) (s : State) : State :=
  match cells s !! c with
  | Some (CellPending reactions) =>
      with_unhandled (λ u, u ++ map (λ _, e) reactions)
        (with_cells (<[c := CellRejected e]>) s)
  | _ => s
  end.

(** [new window.Promise(executor)]: a fresh pending promise; the executor
    runs at once and a throw of the executor rejects the promise. *)
Definition new_Promise (executor : nat → M unit) : M nat :=
  λ s, let c := fresh (dom (cells s)) in
       match executor c (with_cells (<[c := CellPending []]>) s) with
       | (Normal _, s') => (Normal c, s')
       | (Throw e, s') => (Normal c, reject c e s')
       end.

(** [promise.then(r)] on a promise built by [new_Promise], the promise
    that [then] returns being dropped. *)
Definition cell_then (c : nat) (r : Reaction) : M unit :=
  s ← get;
  match cells s !! c with
  | Some (CellPending reactions) =>
      modify (with_cells (<[c := CellPending (reactions ++ [r])]>))
  | Some (CellFulfilled x) => modify (with_jobs (λ q, q ++ [JobReaction r x]))
  | Some (CellRejected e) => modify (with_unhandled (λ u, u ++ [e]))
  | None => mret tt
  end.

(** *** player.ts *)

(** [customEvents] is a plain object, [{}], filled by assignment only.
    The finite map holds its own keys. The name [__proto__] is never one
    of them: on such an object [o['__proto__'] = v] does not create a
    key, it calls the setter inherited from [Object.prototype], which
    makes [v] the prototype of [o]; and [o['__proto__']] then reads that
    prototype. Every other name is an ordinary key. *)

(** [Object.keys(o).includes(k)]. *)
Definition Object_keys_includes (o : gmap string (list fn)) (k : string) : bool :=
  bool_decide (k ∈ dom o) && negb (String.eqb k "__proto__").

(** [o[k] = []]: a key of its own, but for [__proto__], where the fresh
    array becomes the prototype and the keys stay as they are. *)
Definition storage_init (k : string) (o : gmap string (list fn))
  : gmap string (list fn) :=
  if String.eqb k "__proto__" then o else <[k := []]> o.

(** [o[k].push(f)]: on the array under the key; for [__proto__] on the
    array that is the prototype, which is no entry of the storage. *)
Definition storage_push (k : string) (f : fn) (o : gmap string (list fn))
  : gmap string (list fn) :=
  if String.eqb k "__proto__" then o else alter (λ l, l ++ [f]) k o.

(** [on(type, listener)]. *)
Definition on (type : string) (listener : jsval) : M unit :=
  match instanceofFunction listener with
  | Some f =>
      s ← get;
      when (negb (Object_keys_includes (P.customEvents (player s)) type))
        (assign (λ p, P.set_customEvents (storage_init type (P.customEvents p)) p));;
      assign (λ p, P.set_customEvents (storage_push type f (P.customEvents p)) p)
  | None => mret tt
  end.

(** [dispatchEvent(type)]. *)
Definition dispatchEvent (type : string) : M unit :=
  log (Dispatch type);;
  s ← get;
  when (Object_keys_includes (P.customEvents (player s)) type)
    (forEach (default [] (P.customEvents (player s) !! type)) callFunction).

(** *** vlite.ts: what the player calls back into *)

(** [clearTimeout(this.timerAutoHide)]. *)
Definition clearTimeout (h : option nat) : M unit :=
  log (ClearTimeout h);;
  match h with
  | Some n => modify (λ s, with_timers (delete n) (next_timer s) s)
  | None => mret tt
  end.

(** [stopAutoHideTimer()]. *)
Definition stopAutoHideTimer : M unit :=
  s ← get;
  let controlBar := querySelector (document s) (V.container (vlitejs s)) "v-controlBar" in
  video ← isVideo;
  when video
    (ifNode controlBar (λ n,
       dom_update n (classList_remove "hidden");;
       s ← get; clearTimeout (V.timerAutoHide (vlitejs s)))).

(** [startAutoHideTimer()]: the callback of the timer hides the control
    bar found by the query. *)
Definition startAutoHideTimer : M unit :=
  s ← get;
  let controlBar := querySelector (document s) (V.container (vlitejs s)) "v-controlBar" in
  video ← isVideo;
  when (video && negb (V.isPaused (vlitejs s)))
    (ifNode controlBar (λ n,
       s ← get;
       let h := next_timer s in
       log (SetTimeout h (V.delayAutoHide (vlitejs s)));;
       modify (with_timers (<[h := n]>) (S h));;
       modify (with_vlitejs (V.set_timerAutoHide (Some h))))).

(** The callback given to [setTimeout], when timer [h] fires. *)
Definition fireTimer (h : nat) : M unit :=
  s ← get;
  match timers s !! h with
  | Some n =>
      modify (λ s, with_timers (delete h) (next_timer s) s);;
      dom_update n (classList_add "hidden")
  | None => mret tt
  end.

(** [Vlitejs.loading(state)]. *)
Definition Vlitejs_loading (state : bool) : M unit :=
  s ← get;
  dom_update (V.container (vlitejs s))
    (if state then classList_add "v-loading" else classList_remove "v-loading");;
  dispatchEvent "progress".

(** *** player.ts, continued *)

(** [loading(status)]. *)
Definition loading (status : bool) : M unit := Vlitejs_loading status.

(** [afterPlayPause()]; [!this.isPaused] holds for [null] and [false]. *)
Definition afterPlayPause : M unit :=
  s ← get;
  when (V.autoHideGranted (vlitejs s))
    (stopAutoHideTimer;;
     s ← get;
     when (negb (default false (P.isPaused (player s)))) startAutoHideTimer).

(** [play()]. *)
Definition play : M unit :=
  s ← get;
  when (classList_contains "v-firstStart"
          (elem (document s) (P.container (P.elements (player s)))))
    (onContainer (classList_remove "v-firstStart");;
     video ← isVideo;
     when video (ifElement P.poster (λ n, dom_update n (classList_remove "v-active"))));;
  methodPlay;;
  assign (P.set_isPaused (Some false));;
  onContainer (classList_replace "v-paused" "v-playing");;
  ifElement P.playPause (λ n, dom_update n (setAttribute "aria-label" "Pause"));;
  video ← isVideo;
  when video (ifElement P.bigPlay (λ n, dom_update n (setAttribute "aria-label" "Pause")));;
  afterPlayPause;;
  dispatchEvent "play".

(** [pause()]. *)
Definition pause : M unit :=
  methodPause;;
  assign (P.set_isPaused (Some true));;
  onContainer (classList_replace "v-playing" "v-paused");;
  ifElement P.playPause (λ n, dom_update n (setAttribute "aria-label" "Play"));;
  video ← isVideo;
  when video (ifElement P.bigPlay (λ n, dom_update n (setAttribute "aria-label" "Play")));;
  afterPlayPause;;
  dispatchEvent "pause".

(** [setVolume(volume)]. *)
Definition setVolume (volume : float) : M unit :=
  volume ← (if (1 <? volume)%float then mret 1%float
            else if (volume <=? 0)%float then
              assign (P.set_isMuted (JBool true));;
              ifElement P.volume (λ n, dom_update n (classList_add "v-pressed"));;
              mret 0%float
            else
              assign (P.set_isMuted (JBool false));;
              ifElement P.volume (λ n, dom_update n (classList_remove "v-pressed"));;
              mret volume);
  methodSetVolume volume;;
  dispatchEvent "volumechange".

(** [getVolume()]: the promise is resolved by the callback given to the
    provider's promise, and by nothing else. *)
Definition getVolume : M nat :=
  new_Promise (λ c, p ← methodGetVolume; then_ p (JobResolve c)).

(** [mute()]. *)
Definition mute : M unit :=
  methodMute;;
  assign (P.set_isMuted (JBool true));;
  ifElement P.volume (λ n, dom_update n (classList_add "v-pressed"));;
  dispatchEvent "volumechange".

(** [unMute()]. *)
Definition unMute : M unit :=
  methodUnMute;;
  assign (P.set_isMuted (JBool false));;
  ifElement P.volume (λ n, dom_update n (classList_remove "v-pressed"));;
  dispatchEvent "volumechange".

(** [seekTo(newTime)]. *)
Definition seekTo (newTime : float) : M unit := methodSeekTo newTime.

(** [onTimeUpdate()]: both queries are issued, then the callback waits on
    [Promise.all]. *)
Definition onTimeUpdate : M unit :=
  time ← option_ "time";
  when (truthy time)
    (p ← getCurrentTime;
     q ← getDuration;
     then_all (Promise_all p q) JobTimeUpdate).

(** The callback of [onTimeUpdate], run with the two values. *)
Definition onTimeUpdate_callback (seconds duration : float) : M unit :=
  let currentTime := Host.Math_round host seconds in
  ifElement P.progressBar (λ n,
    let width := (currentTime * 100 / duration)%float in
    dom_update n (set_value (Host.toString host width));;
    dom_update n (style_setProperty "--value" (Host.toString host width +:+ "%"));;
    dom_update n (setAttribute "aria-valuenow"
                    (Host.toString host (Host.Math_round host seconds))));;
  ifElement P.currentTime (λ n,
    dom_update n (set_innerHTML (Host.formatVideoTime host currentTime)));;
  dispatchEvent "timeupdate".

(** [onVideoEnded()]. *)
Definition onVideoEnded : M unit :=
  loop ← option_ "loop";
  (if truthy loop then play
   else
     onContainer (classList_replace "v-playing" "v-paused");;
     onContainer (classList_add "v-firstStart"));;
  poster ← option_ "poster";
  when (truthy poster)
    (ifElement P.poster (λ n, dom_update n (classList_add "v-active")));;
  ifElement P.progressBar (λ n,
    dom_update n (set_value "0");;
    dom_update n (style_setProperty "--value" "0%");;
    dom_update n (removeAttribute "aria-valuenow"));;
  ifElement P.currentTime (λ n, dom_update n (set_innerHTML "00:00"));;
  dispatchEvent "ended".

(** [requestFullscreen()]. *)
Definition requestFullscreen : M unit :=
  s ← get;
  let requestFn := requestFn (V.supportFullScreen (vlitejs s)) in
  when (bool_decide (requestFn ∈ media_props (document s)))
    (log (HostCall "container" requestFn);;
     lift (Host.hostCall host "container" requestFn);;
     assign (P.set_isFullScreen true);;
     onContainer (classList_add "v-fullscreenButton-display");;
     ifElement P.fullscreen (λ n, dom_update n (classList_add "v-pressed"));;
     dispatchEvent "enterfullscreen").

(** [exitFullscreen({ escKey })]. *)
Definition exitFullscreen (escKey : bool) : M unit :=
  s ← get;
  let cancelFn := cancelFn (V.supportFullScreen (vlitejs s)) in
  when (bool_decide (cancelFn ∈ document_props (document s)))
    (when (negb escKey)
       (log (HostCall "document" cancelFn);;
        lift (Host.hostCall host "document" cancelFn));;
     assign (P.set_isFullScreen false);;
     onContainer (classList_remove "v-fullscreenButton-display");;
     ifElement P.fullscreen (λ n, dom_update n (classList_remove "v-pressed"));;
     dispatchEvent "exitfullscreen").

(** *** control-bar.ts *)

(** [cacheElements()]. *)
Definition cacheElements : M unit :=
  s ← get;
  let d := document s in
  let el := P.elements (player s) in
  let controlBar := querySelector d (P.container el) "v-controlBar" in
  match controlBar with
  | Some cb =>
      let volume := querySelector d cb "v-volumeButton" in
      assign (P.set_elements
        {| P.container := P.container el; P.bigPlay := P.bigPlay el;
           P.poster := P.poster el; P.controlBar := controlBar;
           P.playPause := querySelector d cb "v-playPauseButton";
           P.progressBar := querySelector d cb "v-progressBar";
           P.currentTime := querySelector d cb "v-currentTime";
           P.duration := querySelector d cb "v-duration";
           P.volume := volume;
           P.fullscreen := querySelector d cb "v-fullscreenButton" |});;
      ifNode volume (λ n,
        dom_update n (setAttribute "aria-label"
                        (if truthy (P.isMuted (player s)) then "Unmute" else "Mute")))
  | None =>
      assign (P.set_elements
        {| P.container := P.container el; P.bigPlay := P.bigPlay el;
           P.poster := P.poster el; P.controlBar := None;
           P.playPause := P.playPause el; P.progressBar := P.progressBar el;
           P.currentTime := P.currentTime el; P.duration := P.duration el;
           P.volume := P.volume el; P.fullscreen := P.fullscreen el |})
  end.

(** [ControlBar.onPlayerReady()]. *)
Definition ControlBar_onPlayerReady : M unit :=
  p ← getDuration; then_ p JobDuration.

(** Its callback, run with the duration. *)
Definition ControlBar_onPlayerReady_callback (duration : float) : M unit :=
  ifElement P.progressBar (λ n,
    dom_update n (setAttribute "aria-valuemax"
                    (Host.toString host (Host.Math_round host duration))));;
  ifElement P.duration (λ n,
    dom_update n (set_innerHTML (Host.formatVideoTime host duration))).

(** [ControlBar.removeEvents()]. *)
Definition removeEvents : M unit :=
  ifElement P.progressBar (λ n,
    log (RemoveEventListener n "input" "onInputProgressBar"));;
  ifElement P.controlBar (λ n,
    log (RemoveEventListener n "click" "onClickOnControlBar")).

(** *** player.ts, end *)

(** [onPlayerReady()]. *)
Definition onPlayerReady : M unit :=
  autoplay ← option_ "autoplay";
  when (truthy autoplay)
    (s ← get;
     when (negb (media_muted (document s))) mute;;
     play);;
  loading false;;
  controls ← option_ "controls";
  when (truthy controls) ControlBar_onPlayerReady;;
  s ← get;
  match instanceofFunction (V.onReady (vlitejs s)) with
  | Some f => callFunction f
  | None => mret tt
  end.

(** [destroy()]. *)
Definition destroy : M unit :=
  pause;;
  controls ← option_ "controls";
  when (truthy controls) removeEvents;;
  s ← get;
  forEach (elements (dom (P.customEvents (player s)))) (λ type,
    assign (λ p, P.set_customEvents (delete type (P.customEvents p)) p));;
  s ← get;
  log (Remove (P.container (P.elements (player s)))).

(** *** vlite.ts: the volume keys *)

(** The literal [0.05]: the binary64 number nearest to it. *)
Definition step : float := 0x1.999999999999ap-5%float.

(** [increaseVolume()] and [decreaseVolume()]. *)
Definition increaseVolume : M unit :=
  promise ← getVolume; cell_then promise ThenIncrease.
Definition decreaseVolume : M unit :=
  promise ← getVolume; cell_then promise ThenDecrease.

(** *** The event loop *)

(** The body of a queued callback. *)
Definition callback (j : Job) : M unit :=
  match j with
  | JobTimeUpdate seconds duration => onTimeUpdate_callback seconds duration
  | JobDuration duration => ControlBar_onPlayerReady_callback duration
  | JobResolve c volume => resolve c volume
  | JobReaction ThenIncrease volume => setVolume (volume + step)%float
  | JobReaction ThenDecrease volume => setVolume (volume - step)%float
  end.

(** Running the [i]-th waiting callback: the promises of a provider
    settle in no known order, so any waiting callback may be the next.
    Since [then] always had its promise dropped, a throw of the callback
    is an unhandled rejection. *)
Definition runJob (i : nat) : M unit :=
  λ s, match jobs s !! i with
       | Some j =>
           match callback j (with_jobs (delete i) s) with
           | (Normal _, s') => (Normal tt, s')
           | (Throw e, s') => (Normal tt, with_unhandled (λ u, u ++ [e]) s')
           end
       | None => (Normal tt, s)
       end.

(** *** Operations *)

(** What can happen to a player once it is built: a call of one of its
    methods, of the control bar or of the host shell, a queued callback
    running, a timer firing. *)
Inductive Op :=
| op_init
| op_waitUntilVideoIsReady
| op_getInstance
| op_getCurrentTime
| op_getDuration
| op_onPlayerReady
| op_on (type : string) (listener : jsval)
| op_dispatchEvent (type : string)
| op_loading (status : bool)
| op_onTimeUpdate
| op_onVideoEnded
| op_play
| op_pause
| op_afterPlayPause
| op_setVolume (volume : float)
| op_getVolume
| op_mute
| op_unMute
| op_seekTo (newTime : float)
| op_requestFullscreen
| op_exitFullscreen (escKey : bool)
| op_destroy
| op_cacheElements
| op_ControlBar_onPlayerReady
| op_removeEvents
| op_stopAutoHideTimer
| op_startAutoHideTimer
| op_increaseVolume
| op_decreaseVolume
| op_runJob (i : nat)
| op_fireTimer (h : nat).

Definition exec (o : Op) : M unit :=
  match o with
  | op_init => init
  | op_waitUntilVideoIsReady => waitUntilVideoIsReady
  | op_getInstance => getInstance
  | op_getCurrentTime => getCurrentTime;; mret tt
  | op_getDuration => getDuration;; mret tt
  | op_onPlayerReady => onPlayerReady
  | op_on type listener => on type listener
  | op_dispatchEvent type => dispatchEvent type
  | op_loading status => loading status
  | op_onTimeUpdate => onTimeUpdate
  | op_onVideoEnded => onVideoEnded
  | op_play => play
  | op_pause => pause
  | op_afterPlayPause => afterPlayPause
  | op_setVolume volume => setVolume volume
  | op_getVolume => getVolume;; mret tt
  | op_mute => mute
  | op_unMute => unMute
  | op_seekTo newTime => seekTo newTime
  | op_requestFullscreen => requestFullscreen
  | op_exitFullscreen escKey => exitFullscreen escKey
  | op_destroy => destroy
  | op_cacheElements => cacheElements
  | op_ControlBar_onPlayerReady => ControlBar_onPlayerReady
  | op_removeEvents => removeEvents
  | op_stopAutoHideTimer => stopAutoHideTimer
  | op_startAutoHideTimer => startAutoHideTimer
  | op_increaseVolume => increaseVolume
  | op_decreaseVolume => decreaseVolume
  | op_runJob i => runJob i
  | op_fireTimer h => fireTimer h
  end.

(** A history: each operation starts in the state the previous one left,
    whether that one returned or threw. *)
Definition run (os : list Op) (s : State) : State :=
  foldl (λ s o, after (exec o) s) s os.

(** *** control-bar.ts: the buttons *)

(** [e.preventDefault()] on the event that is being handled. *)
Definition preventDefault : M unit :=
  log (HostCall "event" "preventDefault").

(** [this.player.elements.r!. ...]: the reference is used as it is, and
    [null] there throws. *)
Definition theElement (r : P.Elements → option node) (k : node → M unit) : M unit :=
  s ← get;
  match r (P.elements (player s)) with
  | Some n => k n
  | None => lift (Throw nullDereference)
  end.

(** [ControlBar.togglePlayPause(e)]; [e] tells whether an event is
    given. *)
Definition ControlBar_togglePlayPause (e : bool) : M unit :=
  when e preventDefault;;
  s ← get;
  if classList_contains "v-paused"
       (elem (document s) (P.container (P.elements (player s))))
  then play
  else pause.

(** [ControlBar.toggleVolume(e)]. *)
Definition toggleVolume : M unit :=
  preventDefault;;
  theElement P.volume (λ n,
    s ← get;
    if classList_contains "v-pressed" (elem (document s) n)
    then
      unMute;;
      theElement P.volume (λ n, dom_update n (setAttribute "aria-label" "Mute"))
    else
      mute;;
      theElement P.volume (λ n, dom_update n (setAttribute "aria-label" "Unmute"))).

(** [ControlBar.toggleFullscreen(e)]. *)
Definition toggleFullscreen : M unit :=
  preventDefault;;
  s ← get;
  if P.isFullScreen (player s)
  then
    exitFullscreen false;;
    theElement P.fullscreen (λ n,
      dom_update n (setAttribute "aria-label" "Enter fullscreen"))
  else
    requestFullscreen;;
    theElement P.fullscreen (λ n,
      dom_update n (setAttribute "aria-label" "Exit fullscreen")).

(** *** vlite.ts: the handlers of the host shell *)

(** [Vlitejs.togglePlayPause(e)]. *)
Definition Vlitejs_togglePlayPause : M unit :=
  preventDefault;;
  s ← get;
  if classList_contains "v-paused" (elem (document s) (V.container (vlitejs s)))
  then play
  else pause.

(** [onMousemove()]. *)
Definition onMousemove : M unit :=
  s ← get;
  when (negb (V.isPaused (vlitejs s)))
    (stopAutoHideTimer;; startAutoHideTimer).

(** ** Vocabulary of the properties *)

(** The listeners registered for [type], in registration order: the
    array under the key [type] of the storage, when it has that key. *)
Definition listeners (s : State) (type : string) : list fn :=
  if Object_keys_includes (P.customEvents (player s)) type
  then default [] (P.customEvents (player s) !! type)
  else [].

(** The listeners a [forEach] over [l] gets to call: it stops behind the
    first one that throws. *)
Fixpoint invoked (l : list fn) : list fn :=
  match l with
  | [] => []
  | f :: l' =>
      f :: match Host.call host f with
           | Normal _ => invoked l'
           | Throw _ => []
           end
  end.

(** How that [forEach] completes. *)
Fixpoint completion (l : list fn) : Completion unit :=
  match l with
  | [] => Normal tt
  | f :: l' =>
      match Host.call host f with
      | Normal _ => completion l'
      | Throw e => Throw e
      end
  end.

(** The provider calls in a trace, and the number of dispatches of [type]
    in it. *)
Definition calls (t : list Event) : list Method :=
  omap (λ e, match e with Call m => Some m | _ => None end) t.

Fixpoint dispatched (type : string) (t : list Event) : nat :=
  match t with
  | [] => 0
  | Dispatch type' :: t' =>
      (if String.eqb type' type then 1 else 0) + dispatched type t'
  | _ :: t' => dispatched type t'
  end.

(** A number within the closed interval from 0 to 1. *)
Definition in_unit_interval (x : float) : Prop :=
  (0 <=? x)%float = true ∧ (x <=? 1)%float = true.

(** The name of a provider method, and the call of it on [this]. *)
Definition method_name (m : Method) : string :=
  match m with
  | m_init => "init"
  | m_waitUntilVideoIsReady => "waitUntilVideoIsReady"
  | m_getInstance => "getInstance"
  | m_getCurrentTime => "getCurrentTime"
  | m_methodSeekTo _ => "methodSeekTo"
  | m_getDuration => "getDuration"
  | m_methodPlay => "methodPlay"
  | m_methodPause => "methodPause"
  | m_methodSetVolume _ => "methodSetVolume"
  | m_methodGetVolume => "methodGetVolume"
  | m_methodMute => "methodMute"
  | m_methodUnMute => "methodUnMute"
  end.

Definition invoke (m : Method) : M unit :=
  match m with
  | m_init => init
  | m_waitUntilVideoIsReady => waitUntilVideoIsReady
  | m_getInstance => getInstance
  | m_getCurrentTime => getCurrentTime;; mret tt
  | m_methodSeekTo newTime => methodSeekTo newTime
  | m_getDuration => getDuration;; mret tt
  | m_methodPlay => methodPlay
  | m_methodPause => methodPause
  | m_methodSetVolume newVolume => methodSetVolume newVolume
  | m_methodGetVolume => methodGetVolume;; mret tt
  | m_methodMute => methodMute
  | m_methodUnMute => methodUnMute
  end.

(** [sub] occurs in [s]. *)
Definition occurs (sub s : string) : bool :=
  bool_decide (is_Some (String.index 0 sub s)).

(** Every callback of [getVolume] waiting in the queue belongs to a promise
    that exists. *)
Definition jobs_wf (s : State) : Prop :=
  ∀ c x, JobResolve c x ∈ jobs s → c ∈ dom (cells s).

(** The promise in cell [c] is pending and no callback is queued that
    would resolve it. *)
Definition pending_for_good (c : nat) (s : State) : Prop :=
  (∃ reactions, cells s !! c = Some (CellPending reactions)) ∧
  ∀ x, JobResolve c x ∉ jobs s.

(** What is said of a dispatch behind a registration: once [f] has been
    registered for [type] through [on], a dispatch of [type] calls the
    listeners that were there and then [f], in this order. *)
Definition all_invoked_in_order (type : string) (f : fn) (s : State) : Prop :=
  let s' := after (on type (JFun f)) s in
  trace (after (dispatchEvent type) s') =
    trace s' ++ Dispatch type :: map Invoke (listeners s type ++ [f]).

(** The operations that go through [play()] or [pause()], for given
    options: [play] and [pause] themselves, [destroy], which pauses,
    [onPlayerReady] with the autoplay option on and [onVideoEnded] with
    the loop option on. *)
Definition plays_or_pauses (options : gmap string jsval) (o : Op) : bool :=
  match o with
  | op_play | op_pause | op_destroy => true
  | op_onPlayerReady => truthy (prop options "autoplay")
  | op_onVideoEnded => truthy (prop options "loop")
  | _ => false
  end.

(** [isPaused] holds a boolean. *)
Definition isPaused_known (s : State) : Prop := is_Some (P.isPaused (player s)).

(** An element that is neither in first start nor paused. *)
Definition started (e : Element) : Prop :=
  ("v-firstStart" ∉ classList e) ∧ ("v-paused" ∉ classList e).

(** What is said of [setVolume v] from [s]: one call of the provider,
    with a value [w] between 0 and 1 that is 1 above 1, 0 with [isMuted]
    true at or below 0, and [v] with [isMuted] false in between; and one
    volumechange. *)
Definition setVolume_clamped (v : float) (s : State) : Prop :=
  ∃ w Δ,
    trace (after (setVolume v) s) = trace s ++ Δ ∧
    calls Δ = [m_methodSetVolume w] ∧
    dispatched "volumechange" Δ = 1 ∧
    in_unit_interval w ∧
    ((1 <? v)%float = true → w = 1%float) ∧
    ((v <=? 0)%float = true →
       w = 0%float ∧ P.isMuted (player (after (setVolume v) s)) = JBool true) ∧
    ((0 <? v)%float = true → (v <=? 1)%float = true →
       w = v ∧ P.isMuted (player (after (setVolume v) s)) = JBool false).

(** What is said of [onTimeUpdate] from [s] when a query rejects: it
    returns, no rejection is left unhandled, the document is untouched,
    no callback is queued and no timeupdate is dispatched. *)
Definition onTimeUpdate_skipped (s : State) : Prop :=
  outcome onTimeUpdate s = Normal tt ∧
  unhandled (after onTimeUpdate s) = unhandled s ∧
  document (after onTimeUpdate s) = document s ∧
  jobs (after onTimeUpdate s) = jobs s ∧
  dispatched "timeupdate" (trace (after onTimeUpdate s)) =
    dispatched "timeupdate" (trace s).

(** What is said of [isPaused] from readiness on: it is a boolean after
    [onPlayerReady] and after whatever follows. *)
Definition boolean_from_readiness (s : State) : Prop :=
  ∀ os, isPaused_known (run (op_onPlayerReady :: os) s).

(** What is said of [onVideoEnded] from [s] with the loop option on: the
    container is not back in first start or paused, and the poster, the
    progress bar and the time label are as they were. *)
Definition loop_skips_reset (s : State) : Prop :=
  let s' := after onVideoEnded s in
  started (elem (document s') (P.container (P.elements (player s)))) ∧
  (∀ n, P.poster (P.elements (player s)) = Some n →
        classList (elem (document s') n) = classList (elem (document s) n)) ∧
  (∀ n, P.progressBar (P.elements (player s)) = Some n →
        value (elem (document s') n) = value (elem (document s) n)) ∧
  (∀ n, P.currentTime (P.elements (player s)) = Some n →
        innerHTML (elem (document s') n) = innerHTML (elem (document s) n)).

(** The handler of the volume-up key and of the volume-down key, by the
    reaction it attaches. *)
Definition volumeKey (r : Reaction) : M unit :=
  match r with
  | ThenIncrease => increaseVolume
  | ThenDecrease => decreaseVolume
  end.

(** [m] keeps [I]: whatever state satisfying [I] it starts from, and
    whether it returns or throws, the state it leaves satisfies [I]. *)
Definition preserves {A} (I : State → Prop) (m : M A) : Prop :=
  ∀ s, I s → I (after m s).

(** The kinds of the events dispatched in a trace, in order. *)
Definition dispatches (t : list Event) : list string :=
  omap (λ e, match e with Dispatch type => Some type | _ => None end) t.

(** Since [s0] the timer of the control bar has not been started: the
    host shell still counts as paused, no timer is waiting that was not
    waiting in [s0], and the trace holds no [setTimeout] but those of
    [s0]. *)
Definition timer_idle (s0 s : State) : Prop :=
  V.isPaused (vlitejs s) = true ∧
  timers s ⊆ timers s0 ∧
  ∀ h d, SetTimeout h d ∈ trace s → SetTimeout h d ∈ trace s0.

(** The value [setVolume] hands to the provider for [volume]. *)
Definition clamped (volume : float) : float :=
  if (1 <? volume)%float then 1%float
  else if (volume <=? 0)%float then 0%float
  else volume.

(** The volume a key handler asks for when the current volume is [x]. *)
Definition keyTarget (r : Reaction) (x : float) : float :=
  match r with
  | ThenIncrease => (x + step)%float
  | ThenDecrease => (x - step)%float
  end.

(** The player and the host shell share one container. *)
Definition container_shared (s : State) : Prop :=
  P.container (P.elements (player s)) = V.container (vlitejs s).

(** ** Sample data *)

Definition sample_element (classes : list string) (v h : string) : Element :=
  {| classList := list_to_set classes; attributes := ∅; style := ∅;
     value := v; innerHTML := h |}.

(** A video player after the first play: media element 0 in container 1,
    a poster 2 and a control bar 3 with a progress bar 4, a time label 5
    and a volume button 6. *)
Definition sample_document : Document :=
  {| nodes :=
       list_to_map
         [(0, blank);
          (1, sample_element ["v-vlite"; "v-playing"] "" "");
          (2, sample_element ["v-poster"] "" "");
          (3, sample_element ["v-controlBar"] "" "");
          (4, sample_element ["v-progressBar"] "50" "");
          (5, sample_element ["v-currentTime"] "" "01:00");
          (6, sample_element ["v-volumeButton"] "" "")];
     descendants := list_to_map [(1, [0; 2; 3; 4; 5; 6]); (3, [4; 5; 6])];
     media_muted := false;
     media_props := ∅;
     document_props := ∅ |}.

Definition sample_vlitejs (options : gmap string jsval) : V.t :=
  {| V.media := 0; V.container := 1; V.type := "video"; V.options := options;
     V.onReady := JUndefined; V.isPaused := true; V.delayAutoHide := 3000;
     V.supportFullScreen :=
       {| requestFn := "requestFullscreen"; cancelFn := "exitFullscreen" |};
     V.autoHideGranted := false; V.timerAutoHide := None |}.

Definition sample_elements : P.Elements :=
  {| P.container := 1; P.bigPlay := None; P.poster := Some 2;
     P.controlBar := Some 3; P.playPause := None; P.progressBar := Some 4;
     P.currentTime := Some 5; P.duration := None; P.volume := Some 6;
     P.fullscreen := None |}.

(** The player built on the sample document, its control bar cached, with
    listeners 7 and 8 registered for timeupdate. *)
Definition sample_state (options : gmap string jsval) : State :=
  {| vlitejs := sample_vlitejs options;
     player :=
       {| P.elements := sample_elements; P.isFullScreen := false;
          P.isMuted := JBool false; P.isPaused := Some false;
          P.delayAutoHide := 3000;
          P.customEvents := {[ "timeupdate" := [7; 8] ]} |};
     document := sample_document;
     trace := []; jobs := []; cells := ∅; timers := ∅; next_timer := 0;
     unhandled := [] |}.

Definition video_defaults : gmap string jsval := DEFAULT_OPTIONS "video".

Definition looping : gmap string jsval :=
  <["loop" := JBool true]> (<["poster" := JStr "poster.jpg"]> video_defaults).

Definition failure : Error := mkError "Error" "backend unavailable".

(** A provider whose commands return and whose queries fulfil. *)
Definition sample_provider : Provider.t :=
  {| Provider.init := Normal tt;
     Provider.waitUntilVideoIsReady := Normal tt;
     Provider.getInstance := Normal tt;
     Provider.getCurrentTime := Normal (Fulfilled 30);
     Provider.methodSeekTo := λ _, Normal tt;
     Provider.getDuration := Normal (Fulfilled 60);
     Provider.methodPlay := Normal tt;
     Provider.methodPause := Normal tt;
     Provider.methodSetVolume := λ _, Normal tt;
     Provider.methodGetVolume := Normal (Fulfilled 1);
     Provider.methodMute := Normal tt;
     Provider.methodUnMute := Normal tt |}.

(** The same provider with the duration and volume queries rejecting. *)
Definition rejecting_provider : Provider.t :=
  {| Provider.init := Normal tt;
     Provider.waitUntilVideoIsReady := Normal tt;
     Provider.getInstance := Normal tt;
     Provider.getCurrentTime := Normal (Fulfilled 30);
     Provider.methodSeekTo := λ _, Normal tt;
     Provider.getDuration := Normal (Rejected failure);
     Provider.methodPlay := Normal tt;
     Provider.methodPause := Normal tt;
     Provider.methodSetVolume := λ _, Normal tt;
     Provider.methodGetVolume := Normal (Rejected failure);
     Provider.methodMute := Normal tt;
     Provider.methodUnMute := Normal tt |}.

(** A host whose functions all return; the three conversions stand in
    for the real ones, which no property below depends on. *)
Definition sample_host : Host.t :=
  {| Host.call := λ _, Normal tt;
     Host.hostCall := λ _ _, Normal tt;
     Host.Math_round := λ x, x;
     Host.toString := λ _, "number";
     Host.formatVideoTime := λ _, "mm:ss" |}.

(** The sample host with listener 8 throwing. *)
Definition throwing_host : Host.t :=
  {| Host.call := λ f, if Nat.eqb f 8 then Throw failure else Normal tt;
     Host.hostCall := λ _ _, Normal tt;
     Host.Math_round := λ x, x;
     Host.toString := λ _, "number";
     Host.formatVideoTime := λ _, "mm:ss" |}.

(** The sample player before its first play, in a browser with the
    fullscreen functions: the container is paused and in first start,
    and the control bar has a fullscreen button 7. *)
Definition initial_document : Document :=
  {| nodes :=
       list_to_map
         [(0, blank);
          (1, sample_element ["v-vlite"; "v-firstStart"; "v-paused"] "" "");
          (2, sample_element ["v-poster"; "v-active"] "" "");
          (3, sample_element ["v-controlBar"] "" "");
          (4, sample_element ["v-progressBar"] "0" "");
          (5, sample_element ["v-currentTime"] "" "00:00");
          (6, sample_element ["v-volumeButton"] "" "");
          (7, sample_element ["v-fullscreenButton"] "" "")];
     descendants := list_to_map [(1, [0; 2; 3; 4; 5; 6; 7]); (3, [4; 5; 6; 7])];
     media_muted := false;
     media_props := {[ "requestFullscreen" ]};
     document_props := {[ "exitFullscreen" ]} |}.

Definition initial_state (options : gmap string jsval) : State :=
  after cacheElements
    (Player_constructor (sample_vlitejs options) initial_document).

(** The same player with the autoHide option on, for which the host
    shell grants the hiding of the control bar. *)
Definition autoHide_vlitejs : V.t :=
  {| V.media := 0; V.container := 1; V.type := "video";
     V.options := <["autoHide" := JBool true]> video_defaults;
     V.onReady := JUndefined; V.isPaused := true; V.delayAutoHide := 3000;
     V.supportFullScreen :=
       {| requestFn := "requestFullscreen"; cancelFn := "exitFullscreen" |};
     V.autoHideGranted := true; V.timerAutoHide := None |}.

Definition autoHide_state : State :=
  after cacheElements (Player_constructor autoHide_vlitejs initial_document).

(** ** Running computations *)

Lemma state_eq (s s' : State) :
  vlitejs s = vlitejs s' → player s = player s' → document s = document s' →
  trace s = trace s' → jobs s = jobs s' → cells s = cells s' →
  timers s = timers s' → next_timer s = next_timer s' →
  unhandled s = unhandled s' → s = s'.
Proof. destruct s, s'; simpl; intros; subst; reflexivity. Qed.

Lemma bind_run {A B} (m : M A) (k : A → M B) s :
  (m ≫= k) s =
  match m s with
  | (Normal a, s') => k a s'
  | (Throw e, s') => (Throw e, s')
  end.
Proof. reflexivity. Qed.

Lemma callFunction_run f s :
  callFunction f s = (Host.call host f, with_trace (λ t, t ++ [Invoke f]) s).
Proof. reflexivity. Qed.

Lemma forEach_callFunction_run l s :
  forEach l callFunction s =
  (completion l, with_trace (λ t, t ++ map Invoke (invoked l)) s).
Proof.
  revert s. induction l as [|f l IH]; intros s; simpl.
  - unfold mret, M_ret, ret. f_equal.
    apply state_eq; simpl; auto using app_nil_r.
  - rewrite bind_run, callFunction_run.
    destruct (Host.call host f) as [[]|e].
    + rewrite IH. f_equal. apply state_eq; simpl; auto.
      rewrite <- app_assoc. reflexivity.
    + reflexivity.
Qed.

(** [dispatchEvent] calls the listeners registered for the kind, in
    registration order, as far as they return. *)
Lemma dispatchEvent_run type s :
  dispatchEvent type s =
  (completion (listeners s type),
   with_trace (λ t, t ++ Dispatch type :: map Invoke (invoked (listeners s type))) s).
Proof.
  unfold dispatchEvent, listeners. rewrite bind_run. simpl.
  rewrite bind_run. simpl.
  destruct (Object_keys_includes (P.customEvents (player s)) type); simpl.
  - rewrite forEach_callFunction_run. f_equal.
    apply state_eq; simpl; auto. rewrite <- app_assoc. reflexivity.
  - reflexivity.
Qed.

Lemma methodSetVolume_run v s :
  methodSetVolume v s =
  (Provider.methodSetVolume provider v,
   with_trace (λ t, t ++ [Call (m_methodSetVolume v)]) s).
Proof. reflexivity. Qed.

Lemma completion_all_return l :
  Forall (λ f, Host.call host f = Normal tt) l →
  completion l = Normal tt ∧ invoked l = l.
Proof.
  induction 1 as [|f l Hf _ [IH1 IH2]]; simpl; [done|].
  rewrite Hf. split; congruence.
Qed.

Lemma calls_invokes l : calls (map Invoke l) = [].
Proof. induction l; simpl; auto. Qed.

Lemma dispatched_invokes type l : dispatched type (map Invoke l) = 0.
Proof. induction l; simpl; auto. Qed.

Lemma mret_run {A} (a : A) s : (mret a : M A) s = (Normal a, s).
Proof. reflexivity. Qed.
Lemma get_run s : get s = (Normal s, s).
Proof. reflexivity. Qed.
Lemma modify_run f s : modify f s = (Normal tt, f s).
Proof. reflexivity. Qed.
Lemma lift_run {A} (c : Completion A) s : lift c s = (c, s).
Proof. reflexivity. Qed.
Lemma log_run e s : log e s = (Normal tt, with_trace (λ t, t ++ [e]) s).
Proof. reflexivity. Qed.
Lemma assign_run f s : assign f s = (Normal tt, with_player f s).
Proof. reflexivity. Qed.
Lemma dom_update_run n f s :
  dom_update n f s = (Normal tt, with_document (update n f) s).
Proof. reflexivity. Qed.
Lemma option__run k s : option_ k s = (Normal (prop (V.options (vlitejs s)) k), s).
Proof. reflexivity. Qed.
Lemma isVideo_run s : isVideo s = (Normal (String.eqb (V.type (vlitejs s)) "video"), s).
Proof. reflexivity. Qed.
Lemma onContainer_run f s :
  onContainer f s =
  (Normal tt, with_document (update (P.container (P.elements (player s))) f) s).
Proof. reflexivity. Qed.
Lemma ifElement_run r k s :
  ifElement r k s = ifNode (r (P.elements (player s))) k s.
Proof. reflexivity. Qed.
Lemma ifNode_Some n k s : ifNode (Some n) k s = k n s.
Proof. reflexivity. Qed.
Lemma ifNode_None k s : ifNode None k s = (Normal tt, s).
Proof. reflexivity. Qed.
Lemma when_true m s : when true m s = m s.
Proof. reflexivity. Qed.
Lemma when_false m s : when false m s = (Normal tt, s).
Proof. reflexivity. Qed.

Lemma getCurrentTime_run s :
  getCurrentTime s =
  (Provider.getCurrentTime provider, with_trace (λ t, t ++ [Call m_getCurrentTime]) s).
Proof. reflexivity. Qed.
Lemma getDuration_run s :
  getDuration s =
  (Provider.getDuration provider, with_trace (λ t, t ++ [Call m_getDuration]) s).
Proof. reflexivity. Qed.
Lemma methodGetVolume_run s :
  methodGetVolume s =
  (Provider.methodGetVolume provider, with_trace (λ t, t ++ [Call m_methodGetVolume]) s).
Proof. reflexivity. Qed.
Lemma methodPlay_run s :
  methodPlay s =
  (Provider.methodPlay provider, with_trace (λ t, t ++ [Call m_methodPlay]) s).
Proof. reflexivity. Qed.

Create Rewrite HintDb simulate.
#[local] Hint Rewrite @bind_run @mret_run get_run modify_run @lift_run log_run
  assign_run dom_update_run option__run isVideo_run onContainer_run
  ifElement_run ifNode_Some ifNode_None when_true when_false
  methodSetVolume_run dispatchEvent_run getCurrentTime_run getDuration_run
  methodGetVolume_run methodPlay_run : simulate.

(** Symbolic execution of a method body. *)
Ltac project :=
  cbn [vlitejs player document trace jobs cells timers next_timer unhandled
       with_vlitejs with_player with_document with_trace with_jobs with_cells
       with_timers with_unhandled
       P.elements P.isFullScreen P.isMuted P.isPaused P.delayAutoHide
       P.customEvents P.set_elements P.set_isFullScreen P.set_isMuted
       P.set_isPaused P.set_customEvents
       V.media V.container V.type V.options V.onReady V.isPaused
       V.delayAutoHide V.supportFullScreen V.autoHideGranted V.timerAutoHide
       V.set_timerAutoHide listeners fst snd].
Ltac simulate := repeat (autorewrite with simulate; project).


(** ** Invariants *)

Section Preservation.
Context (I : State → Prop).

Lemma preserves_mret {A} (a : A) : preserves I (mret a : M A).
Proof. intros s H. exact H. Qed.

Lemma preserves_get : preserves I get.
Proof. intros s H. exact H. Qed.

Lemma preserves_lift {A} (c : Completion A) : preserves I (lift c).
Proof. intros s H. exact H. Qed.

Lemma preserves_modify f : (∀ s, I s → I (f s)) → preserves I (modify f).
Proof. intros Hf s H. apply Hf, H. Qed.

Lemma preserves_bind {A B} (m : M A) (k : A → M B) :
  preserves I m → (∀ a, preserves I (k a)) → preserves I (m ≫= k).
Proof.
  intros Hm Hk s H. unfold after. rewrite bind_run.
  specialize (Hm s H). unfold after in Hm.
  destruct (m s) as [[a|e] s']; simpl in *; [apply Hk|]; assumption.
Qed.

Lemma preserves_when b m : preserves I m → preserves I (when b m).
Proof. destruct b; simpl; [auto|intros _; apply preserves_mret]. Qed.

Lemma preserves_ifNode r k : (∀ n, preserves I (k n)) → preserves I (ifNode r k).
Proof. destruct r; simpl; intros Hk; [apply Hk|apply preserves_mret]. Qed.

Lemma preserves_forEach {A} (l : list A) f :
  (∀ x, preserves I (f x)) → preserves I (forEach l f).
Proof.
  intros Hf. induction l; simpl; [apply preserves_mret|].
  apply preserves_bind; auto.
Qed.

Lemma preserves_log e :
  (∀ s, I s → I (with_trace (λ t, t ++ [e]) s)) → preserves I (log e).
Proof. apply preserves_modify. Qed.

Lemma preserves_dom_update n f :
  (∀ s, I s → I (with_document (update n f) s)) → preserves I (dom_update n f).
Proof. apply preserves_modify. Qed.

Lemma preserves_assign f :
  (∀ s, I s → I (with_player f s)) → preserves I (assign f).
Proof. apply preserves_modify. Qed.

Lemma preserves_runJob i :
  (∀ s, I s → I (with_jobs (delete i) s)) →
  (∀ e s, I s → I (with_unhandled (λ u, u ++ [e]) s)) →
  (∀ s j, I s → jobs s !! i = Some j → preserves I (callback j)) →
  preserves I (runJob i).
Proof.
  intros Hd Hu Hc s H. unfold after, runJob.
  destruct (jobs s !! i) as [j|] eqn:E; [|exact H].
  specialize (Hc s j H E _ (Hd s H)). unfold after in Hc.
  destruct (callback j _) as [[a|e] s']; simpl in *; auto.
Qed.

Lemma preserves_new_Promise executor :
  (∀ s, I s →
     I (after (executor (fresh (dom (cells s))))
          (with_cells (<[fresh (dom (cells s)) := CellPending []]>) s))) →
  (∀ c e s, I s → I (reject c e s)) →
  preserves I (new_Promise executor).
Proof.
  intros He Hr s H. unfold after, new_Promise. specialize (He s H).
  unfold after in He. simpl in *.
  destruct (executor _ _) as [[a|e] s']; simpl in *; auto.
Qed.

Lemma preserves_new_Promise_framed executor :
  (∀ f s, I s → I (with_cells f s)) →
  (∀ f s, I s → I (with_unhandled f s)) →
  (∀ c, preserves I (executor c)) →
  preserves I (new_Promise executor).
Proof.
  intros Hc Hu He. apply preserves_new_Promise.
  - intros s H. apply He, Hc, H.
  - intros c e s H. unfold reject.
    destruct (cells s !! c) as [[]|]; auto.
Qed.
End Preservation.

(** Breaking a method down to the assignments it makes: [side] has to
    show that each of them keeps the invariant. *)
Ltac head_of t :=
  lazymatch t with
  | ?f _ => head_of f
  | _ => t
  end.

Ltac preserve side :=
  repeat
    lazymatch goal with
    | |- preserves _ (mret _) => apply preserves_mret
    | |- preserves _ get => apply preserves_get
    | |- preserves _ (lift _) => apply preserves_lift
    | |- preserves _ (_ ≫= _) => apply preserves_bind; [|intros ?]
    | |- preserves _ (when _ _) => apply preserves_when
    | |- preserves _ (ifNode _ _) => apply preserves_ifNode; intros ?
    | |- preserves _ (forEach _ _) => apply preserves_forEach; intros ?
    | |- preserves _ (log _) => apply preserves_log; side
    | |- preserves _ (dom_update _ _) => apply preserves_dom_update; side
    | |- preserves _ (assign _) => apply preserves_assign; side
    | |- preserves _ (modify _) => apply preserves_modify; side
    | |- preserves _ (new_Promise _) =>
        apply preserves_new_Promise_framed; [side|side|intros ?]
    | |- preserves _ (runJob _) =>
        apply preserves_runJob; [side|intros ?; side|intros ? ? _ _]
    | |- preserves _ (match ?x with _ => _ end) => destruct x
    | |- preserves _ ?m => let h := head_of m in progress unfold h
    end.

(** For an invariant that the assignment at hand does not touch. *)
Ltac frame := intros; assumption.

Lemma after_bind {A B} (m : M A) (k : A → M B) s :
  after (m ≫= k) s =
  match outcome m s with
  | Normal a => after (k a) (after m s)
  | Throw _ => after m s
  end.
Proof.
  unfold after, outcome. rewrite bind_run.
  destruct (m s) as [[a|e] s']; reflexivity.
Qed.

(** *** The document store *)

Lemma member_update n f d m :
  is_Some (nodes (update n f d) !! m) ↔ is_Some (nodes d !! m).
Proof.
  simpl. rewrite lookup_alter.
  destruct (decide (n = m)) as [->|]; [|reflexivity].
  destruct (nodes d !! m); simpl; split; intros [? ?]; eauto; discriminate.
Qed.

Lemma elem_update_eq n f d :
  is_Some (nodes d !! n) → elem (update n f d) n = f (elem d n).
Proof.
  intros [e He]. unfold elem. simpl. rewrite lookup_alter.
  destruct (decide (n = n)); [|congruence]. rewrite He. reflexivity.
Qed.

Lemma elem_update_cases n f d m :
  elem (update n f d) m = elem d m ∨ elem (update n f d) m = f (elem d m).
Proof.
  unfold elem. simpl. rewrite lookup_alter.
  destruct (decide (n = m)) as [->|]; [|auto].
  destruct (nodes d !! m); simpl; auto.
Qed.

Lemma elem_update_same n f d :
  elem (update n f d) n = f (elem d n) ∨ elem (update n f d) n = blank.
Proof.
  unfold elem. simpl. rewrite lookup_alter.
  destruct (decide (n = n)); [|congruence].
  destruct (nodes d !! n); simpl; auto.
Qed.

(** A property of elements that [f] keeps is kept by [update n f] at
    every node. *)
Lemma elem_update_keeps (Q : Element → Prop) n f d m :
  (∀ e, Q e → Q (f e)) → Q (elem d m) → Q (elem (update n f d) m).
Proof.
  intros Hf H. destruct (elem_update_cases n f d m) as [-> | ->]; auto.
Qed.

Lemma classList_replace_other c old new e :
  c ≠ new → c ∉ classList e → c ∉ classList (classList_replace old new e).
Proof.
  intros Hne H. unfold classList_replace.
  destruct (decide (old ∈ classList e)); simpl; set_solver.
Qed.

Lemma classList_replace_gone old new e :
  old ≠ new → old ∉ classList (classList_replace old new e).
Proof.
  intros Hne. unfold classList_replace.
  destruct (decide (old ∈ classList e)); simpl; set_solver.
Qed.

(** *** Comparisons of binary64 numbers *)

Lemma SFcompare_antisym x y :
  SFcompare y x = option_map CompOpp (SFcompare x y).
Proof.
  destruct x as [[]| []| |[] m1 e1], y as [[]| []| |[] m2 e2]; simpl; try reflexivity.
  - rewrite (Z.compare_antisym e1 e2).
    destruct (e1 ?= e2)%Z; simpl; try reflexivity.
    rewrite !Pos.compare_cont_spec. simpl.
    rewrite (Pos.compare_antisym m1 m2).
    destruct (m1 ?= m2)%positive; reflexivity.
  - rewrite (Z.compare_antisym e1 e2).
    destruct (e1 ?= e2)%Z; simpl; try reflexivity.
    rewrite !Pos.compare_cont_spec. simpl.
    rewrite (Pos.compare_antisym m1 m2).
    destruct (m1 ?= m2)%positive; reflexivity.
Qed.

Lemma SFcompare_None x y :
  SFcompare x y = None → SFcompare x x = None ∨ SFcompare y y = None.
Proof.
  destruct x as [[]| []| |[] m1 e1], y as [[]| []| |[] m2 e2]; simpl; auto; discriminate.
Qed.

Lemma ltb_leb x y : (x <? y)%float = true → (y <=? x)%float = false.
Proof.
  rewrite ltb_spec, leb_spec. unfold SFltb, SFleb.
  rewrite (SFcompare_antisym (Prim2SF x) (Prim2SF y)).
  destruct (SFcompare (Prim2SF x) (Prim2SF y)) as [[]|]; simpl; congruence.
Qed.

Lemma leb_ltb x y : (x <=? y)%float = true → (y <? x)%float = false.
Proof.
  rewrite ltb_spec, leb_spec. unfold SFltb, SFleb.
  rewrite (SFcompare_antisym (Prim2SF x) (Prim2SF y)).
  destruct (SFcompare (Prim2SF x) (Prim2SF y)) as [[]|]; simpl; congruence.
Qed.

Lemma not_ltb_leb x y :
  is_nan x = false → is_nan y = false → (x <? y)%float = false → (y <=? x)%float = true.
Proof.
  unfold is_nan. rewrite !FloatAxioms.eqb_spec, ltb_spec, leb_spec.
  unfold SFeqb, SFltb, SFleb. intros Hx Hy.
  rewrite (SFcompare_antisym (Prim2SF x) (Prim2SF y)).
  destruct (SFcompare (Prim2SF x) (Prim2SF y)) as [[]|] eqn:E; simpl; try congruence.
  apply SFcompare_None in E as [E|E]; rewrite E in *; discriminate.
Qed.

Lemma not_leb_ltb x y :
  is_nan x = false → is_nan y = false → (x <=? y)%float = false → (y <? x)%float = true.
Proof.
  unfold is_nan. rewrite !FloatAxioms.eqb_spec, ltb_spec, leb_spec.
  unfold SFeqb, SFltb, SFleb. intros Hx Hy.
  rewrite (SFcompare_antisym (Prim2SF x) (Prim2SF y)).
  destruct (SFcompare (Prim2SF x) (Prim2SF y)) as [[]|] eqn:E; simpl; try congruence.
  apply SFcompare_None in E as [E|E]; rewrite E in *; discriminate.
Qed.

Lemma ltb_leb_weak x y : (x <? y)%float = true → (x <=? y)%float = true.
Proof.
  rewrite ltb_spec, leb_spec. unfold SFltb, SFleb.
  destruct (SFcompare _ _) as [[]|]; simpl; congruence.
Qed.

Lemma above_one_above_zero x : (1 <? x)%float = true → (x <=? 0)%float = false.
Proof.
  rewrite ltb_spec, leb_spec. unfold SFltb, SFleb.
  change (Prim2SF 1) with (S754_finite false 4503599627370496 (-52)).
  change (Prim2SF 0) with (S754_zero false).
  destruct (Prim2SF x) as [[]|[]| |[] m e]; simpl; congruence.
Qed.

(** *** setVolume *)

(** C1, as amended. For every volume [v] that is a number (not NaN) and a
    provider whose [methodSetVolume] returns, [setVolume v] calls the
    provider exactly once, with a value [w] between 0 and 1: 1 when
    [v > 1]; 0 when [v <= 0], and then [isMuted] becomes true; [v] itself
    when [0 < v <= 1], and then [isMuted] becomes false. Exactly one
    volumechange is dispatched. *)
Theorem setVolume_clamps (v : float) (s : State) :
  is_nan v = false →
  (∀ w, Provider.methodSetVolume provider w = Normal tt) →
  setVolume_clamped v s.
Proof.
  intros Hnan Hret. unfold setVolume_clamped, after, setVolume, in_unit_interval.
  destruct (1 <? v)%float eqn:H1; [|destruct (v <=? 0)%float eqn:H0].
  - simulate. rewrite Hret. simpl.
    eexists 1%float, (_ :: _ :: _). split; [rewrite <- app_assoc; reflexivity|].
    simpl. rewrite calls_invokes, dispatched_invokes.
    split_and!; try reflexivity.
    + intros H'. apply above_one_above_zero in H1. congruence.
    + intros _ H'. apply leb_ltb in H'. congruence.
  - simulate. destruct (P.volume (P.elements (player s))); simulate;
      rewrite Hret; simpl;
      (eexists 0%float, (_ :: _ :: _); split; [rewrite <- app_assoc; reflexivity|]);
      simpl; rewrite calls_invokes, dispatched_invokes;
      (split_and!; try reflexivity; try congruence; try (intros _; split; reflexivity));
      intros H' _; apply ltb_leb in H'; congruence.
  - assert (Hv0 : (0 <? v)%float = true) by (apply not_leb_ltb; auto).
    assert (Hv1 : (v <=? 1)%float = true) by (apply not_ltb_leb; auto).
    simulate. destruct (P.volume (P.elements (player s))); simulate;
      rewrite Hret; simpl;
      (eexists v, (_ :: _ :: _); split; [rewrite <- app_assoc; reflexivity|]);
      simpl; rewrite calls_invokes, dispatched_invokes;
      (split_and!; try reflexivity; try congruence; try (intros _ _; split; reflexivity));
      apply ltb_leb_weak; assumption.
Qed.

(** *** Events *)

Lemma alter_append (m : gmap string (list fn)) type l (f : fn) :
  alter (λ l, l ++ [f]) type (<[type := l]> m) = <[type := l ++ [f]]> m.
Proof.
  apply map_eq. intros k. rewrite lookup_alter.
  destruct (decide (type = k)) as [->|].
  - rewrite !lookup_insert_eq. reflexivity.
  - rewrite !lookup_insert_ne by done. reflexivity.
Qed.

Lemma Object_keys_includes_insert (o : gmap string (list fn)) k l k' :
  k ≠ "__proto__" →
  Object_keys_includes (<[k := l]> o) k' =
  if decide (k = k') then true else Object_keys_includes o k'.
Proof.
  intros Hk. unfold Object_keys_includes.
  destruct (decide (k = k')) as [<-|Hne].
  - rewrite bool_decide_eq_true_2 by (rewrite dom_insert; set_solver).
    apply String.eqb_neq in Hk. rewrite Hk. reflexivity.
  - f_equal. apply bool_decide_ext. rewrite dom_insert. set_solver.
Qed.

Lemma on_run type f s :
  type ≠ "__proto__" →
  on type (JFun f) s =
  (Normal tt,
   with_player
     (P.set_customEvents
        (<[type := listeners s type ++ [f]]> (P.customEvents (player s)))) s).
Proof.
  intros Hk. pose proof Hk as Hb. apply String.eqb_neq in Hb.
  unfold on, listeners, Object_keys_includes, storage_init, storage_push.
  simpl. simulate. rewrite Hb, andb_true_r.
  destruct (P.customEvents (player s) !! type) as [l|] eqn:E.
  - rewrite bool_decide_eq_true_2 by (apply elem_of_dom; eauto).
    simpl. simulate. f_equal. apply state_eq; simpl; auto. f_equal.
    rewrite <- (insert_id _ _ _ E) at 1.
    rewrite alter_append. reflexivity.
  - rewrite bool_decide_eq_false_2 by (rewrite elem_of_dom, E; intros [? ?]; done).
    simpl. simulate. f_equal. apply state_eq; simpl; auto.
    unfold P.set_customEvents; simpl. f_equal.
    rewrite alter_append. reflexivity.
Qed.

(** Registering for [__proto__] leaves the storage as it is. *)
Lemma on_proto_run v s : on "__proto__" v s = (Normal tt, s).
Proof.
  unfold on. destruct (instanceofFunction v); [|reflexivity].
  unfold storage_init, storage_push. simpl. simulate.
  destruct (negb _); simulate; f_equal;
    destruct s as [? [] ? ? ? ? ? ? ?]; reflexivity.
Qed.

Lemma listeners_on type f s :
  type ≠ "__proto__" →
  listeners (after (on type (JFun f)) s) type = listeners s type ++ [f] ∧
  ∀ type', type' ≠ type →
    listeners (after (on type (JFun f)) s) type' = listeners s type'.
Proof.
  intros Hk. unfold after. rewrite on_run by exact Hk. cbn [snd].
  unfold listeners.
  cbn [player with_player P.customEvents P.set_customEvents]. split.
  - rewrite Object_keys_includes_insert by exact Hk.
    destruct (decide (type = type)); [|congruence].
    rewrite lookup_insert_eq. reflexivity.
  - intros type' Hne. rewrite Object_keys_includes_insert by exact Hk.
    destruct (decide (type = type')); [congruence|].
    rewrite lookup_insert_ne by done. reflexivity.
Qed.

(** C7, as amended. For every kind but [__proto__], registration appends
    to the listeners of the kind and leaves the other kinds alone; for
    [__proto__] it registers nothing. A dispatch calls the listeners of
    the kind in registration order up to the first one that throws, and
    ends as that one does: when all of them return it has called them
    all and returns. So two listeners registered for timeupdate, both
    returning, are called first-registered first; and a dispatch for a
    kind with no listener, registered or not, returns without calling
    anything. *)
Theorem dispatchEvent_registration_order (s : State) (type : string) :
  (∀ f, type ≠ "__proto__" →
        listeners (after (on type (JFun f)) s) type = listeners s type ++ [f] ∧
        ∀ type', type' ≠ type →
          listeners (after (on type (JFun f)) s) type' = listeners s type') ∧
  (∀ f, on "__proto__" (JFun f) s = (Normal tt, s) ∧ listeners s "__proto__" = []) ∧
  dispatchEvent type s =
    (completion (listeners s type),
     with_trace (λ t, t ++ Dispatch type :: map Invoke (invoked (listeners s type))) s) ∧
  (Forall (λ f, Host.call host f = Normal tt) (listeners s type) →
     dispatchEvent type s =
       (Normal tt,
        with_trace (λ t, t ++ Dispatch type :: map Invoke (listeners s type)) s)) ∧
  (∀ f g, listeners s "timeupdate" = [] → Host.call host f = Normal tt →
     Host.call host g = Normal tt →
     let s2 := after (on "timeupdate" (JFun g)) (after (on "timeupdate" (JFun f)) s) in
     dispatchEvent "timeupdate" s2 =
       (Normal tt,
        with_trace (λ t, t ++ [Dispatch "timeupdate"; Invoke f; Invoke g]) s2)) ∧
  (listeners s type = [] →
     dispatchEvent type s = (Normal tt, with_trace (λ t, t ++ [Dispatch type]) s)).
Proof.
  split_and!.
  - intros f Hk. apply listeners_on, Hk.
  - intros f. split; [apply on_proto_run|].
    unfold listeners, Object_keys_includes. simpl. rewrite andb_false_r. reflexivity.
  - apply dispatchEvent_run.
  - intros Hall. rewrite dispatchEvent_run.
    destruct (completion_all_return _ Hall) as [-> ->]. reflexivity.
  - intros f g Hnone Hf Hg s2. rewrite dispatchEvent_run.
    assert (Hl : listeners s2 "timeupdate" = [f; g]).
    { unfold s2.
      destruct (listeners_on "timeupdate" g (after (on "timeupdate" (JFun f)) s))
        as [-> _]; [done|].
      destruct (listeners_on "timeupdate" f s) as [-> _]; [done|].
      rewrite Hnone. reflexivity. }
    rewrite Hl. simpl. rewrite Hf, Hg. reflexivity.
  - intros Hnone. rewrite dispatchEvent_run, Hnone. reflexivity.
Qed.

(** *** Fullscreen *)

(** C8. When the media element has no function under the name
    [requestFn], [requestFullscreen] returns and leaves the whole state
    as it was: [isFullScreen], the classes of the container and of the
    controls, and the trace, to which no enterfullscreen is added. *)
Theorem requestFullscreen_unavailable (s : State) :
  requestFn (V.supportFullScreen (vlitejs s)) ∉ media_props (document s) →
  requestFullscreen s = (Normal tt, s) ∧
  P.isFullScreen (player (after requestFullscreen s)) = P.isFullScreen (player s) ∧
  document (after requestFullscreen s) = document s ∧
  trace (after requestFullscreen s) = trace s.
Proof.
  intros Hno.
  assert (E : requestFullscreen s = (Normal tt, s)).
  { unfold requestFullscreen. simulate.
    rewrite bool_decide_eq_false_2 by assumption. reflexivity. }
  unfold after. rewrite E. auto.
Qed.

(** *** play *)

(** [play] up to the call of the provider: the first-start class is gone
    from the container and nothing else of what the properties below
    look at has changed. *)
Lemma play_start s :
  ∃ s1,
    play s =
      (methodPlay;;
       assign (P.set_isPaused (Some false));;
       onContainer (classList_replace "v-paused" "v-playing");;
       ifElement P.playPause (λ n, dom_update n (setAttribute "aria-label" "Pause"));;
       video ← isVideo;
       when video
         (ifElement P.bigPlay (λ n, dom_update n (setAttribute "aria-label" "Pause")));;
       afterPlayPause;;
       dispatchEvent "play") s1 ∧
    trace s1 = trace s ∧ player s1 = player s ∧ vlitejs s1 = vlitejs s ∧
    (∀ n, is_Some (nodes (document s1) !! n) ↔ is_Some (nodes (document s) !! n)) ∧
    "v-firstStart" ∉ classList (elem (document s1) (P.container (P.elements (player s)))).
Proof.
  assert (Hfirst : ∃ s1,
    when (classList_contains "v-firstStart"
            (elem (document s) (P.container (P.elements (player s)))))
      (onContainer (classList_remove "v-firstStart");;
       video ← isVideo;
       when video
         (ifElement P.poster (λ n, dom_update n (classList_remove "v-active")))) s
    = (Normal tt, s1) ∧
    trace s1 = trace s ∧ player s1 = player s ∧ vlitejs s1 = vlitejs s ∧
    (∀ n, is_Some (nodes (document s1) !! n) ↔ is_Some (nodes (document s) !! n)) ∧
    "v-firstStart" ∉ classList (elem (document s1) (P.container (P.elements (player s))))).
  { destruct (classList_contains "v-firstStart" _) eqn:Hc.
    - rewrite when_true. simulate.
      assert (Hgone : ∀ d, "v-firstStart" ∉
        classList (elem (update (P.container (P.elements (player s)))
                           (classList_remove "v-firstStart") d)
                     (P.container (P.elements (player s))))).
      { intros d. unfold elem. simpl. rewrite lookup_alter.
        destruct (decide _); [|congruence].
        destruct (nodes d !! _); simpl; set_solver. }
      destruct (String.eqb _ _); simulate; [destruct (P.poster _); simulate|];
        (eexists; split; [reflexivity|]; project; split_and!; try reflexivity;
         [intros; rewrite !member_update; reflexivity|]).
      + apply (elem_update_keeps (λ e, "v-firstStart" ∉ classList e)); [|apply Hgone].
        intros e He. simpl. set_solver.
      + apply Hgone.
      + apply Hgone.
    - rewrite when_false.
      eexists; split; [reflexivity|]. split_and!; try reflexivity.
      unfold classList_contains in Hc. apply bool_decide_eq_false in Hc. exact Hc. }
  destruct Hfirst as (s1 & Hrun & Hprops). exists s1. split; [|exact Hprops].
  unfold play. rewrite bind_run, get_run. cbn beta iota.
  rewrite bind_run, Hrun. reflexivity.
Qed.

Ltac prefix_side :=
  intros; first [assumption | simpl; apply prefix_app_r; assumption].

Lemma play_rest_trace t0 :
  preserves (λ s, t0 `prefix_of` trace s)
    (assign (P.set_isPaused (Some false));;
     onContainer (classList_replace "v-paused" "v-playing");;
     ifElement P.playPause (λ n, dom_update n (setAttribute "aria-label" "Pause"));;
     video ← isVideo;
     when video
       (ifElement P.bigPlay (λ n, dom_update n (setAttribute "aria-label" "Pause")));;
     afterPlayPause;;
     dispatchEvent "play").
Proof. preserve prefix_side. Qed.

(** [play] calls the provider's [methodPlay] before anything else that
    can be observed. *)
Lemma play_trace s :
  (trace s ++ [Call m_methodPlay]) `prefix_of` trace (after play s).
Proof.
  destruct (play_start s) as (s1 & Hp & Ht & _).
  unfold after. rewrite Hp, bind_run, methodPlay_run.
  destruct (Provider.methodPlay provider) as [[]|e]; simpl.
  - apply (play_rest_trace _ (with_trace _ s1)). simpl. rewrite Ht. reflexivity.
  - rewrite Ht. reflexivity.
Qed.

Lemma play_throws s e :
  Provider.methodPlay provider = Throw e → outcome play s = Throw e.
Proof.
  intros H. destruct (play_start s) as (s1 & Hp & _).
  unfold outcome. rewrite Hp, bind_run, methodPlay_run, H. reflexivity.
Qed.

Ltac frame_member :=
  intros; first [assumption | project; rewrite member_update; assumption].

Lemma play_elements x : preserves (λ s, P.elements (player s) = x) play.
Proof. preserve frame. Qed.

Lemma play_member n : preserves (λ s, is_Some (nodes (document s) !! n)) play.
Proof. preserve frame_member. Qed.

Ltac started_side :=
  intros; first
    [ assumption
    | project; apply (elem_update_keeps started); [|assumption];
      intros ? [? ?]; unfold started; simpl; split; set_solver ].

Lemma play_rest_started c :
  preserves (λ s, started (elem (document s) c))
    (ifElement P.playPause (λ n, dom_update n (setAttribute "aria-label" "Pause"));;
     video ← isVideo;
     when video
       (ifElement P.bigPlay (λ n, dom_update n (setAttribute "aria-label" "Pause")));;
     afterPlayPause;;
     dispatchEvent "play").
Proof. preserve started_side. Qed.

(** Once the provider has returned from [methodPlay], [play] leaves the
    container neither in first start nor paused. *)
Lemma play_started s :
  Provider.methodPlay provider = Normal tt →
  started (elem (document (after play s)) (P.container (P.elements (player s)))).
Proof.
  intros Hplay. destruct (play_start s) as (s1 & Hp & Ht & Hpl & Hv & Hm & Hfirst).
  unfold after. rewrite Hp, bind_run, methodPlay_run, Hplay. cbn beta iota.
  rewrite bind_run, assign_run. cbn beta iota.
  rewrite bind_run, onContainer_run. cbn beta iota.
  apply (play_rest_started _ (with_document _ _)). project. rewrite Hpl.
  destruct (elem_update_same (P.container (P.elements (player s)))
              (classList_replace "v-paused" "v-playing") (document s1)) as [-> | ->].
  - split; [apply classList_replace_other|apply classList_replace_gone]; done.
  - split; simpl; set_solver.
Qed.

(** *** isPaused *)

Ltac isPaused_side :=
  intros; first [assumption | unfold isPaused_known; simpl; eauto].

Lemma exec_isPaused_known o : preserves isPaused_known (exec o).
Proof. destruct o; simpl; preserve isPaused_side. Qed.

Lemma run_isPaused_known os s : isPaused_known s → isPaused_known (run os s).
Proof.
  revert s. induction os as [|o os IH]; intros s H; simpl; [exact H|].
  apply IH, exec_isPaused_known, H.
Qed.

(** What [onPlayerReady] does after the autoplay part keeps [isPaused]. *)
Lemma ready_tail_isPaused x :
  preserves (λ s, P.isPaused (player s) = x)
    (loading false;;
     controls ← option_ "controls";
     when (truthy controls) ControlBar_onPlayerReady;;
     s ← get;
     match instanceofFunction (V.onReady (vlitejs s)) with
     | Some f => callFunction f
     | None => mret tt
     end).
Proof. preserve frame. Qed.

Lemma play_rest_isPaused :
  preserves (λ s, P.isPaused (player s) = Some false)
    (onContainer (classList_replace "v-paused" "v-playing");;
     ifElement P.playPause (λ n, dom_update n (setAttribute "aria-label" "Pause"));;
     video ← isVideo;
     when video
       (ifElement P.bigPlay (λ n, dom_update n (setAttribute "aria-label" "Pause")));;
     afterPlayPause;;
     dispatchEvent "play").
Proof. preserve frame. Qed.

(** Once the provider has returned from [methodPlay], [play] leaves
    [isPaused] false, however it ends. *)
Lemma play_isPaused s :
  Provider.methodPlay provider = Normal tt →
  P.isPaused (player (after play s)) = Some false.
Proof.
  intros Hplay. destruct (play_start s) as (s1 & Hp & _).
  unfold after. rewrite Hp, bind_run, methodPlay_run, Hplay. cbn beta iota.
  rewrite bind_run, assign_run. cbn beta iota.
  apply (play_rest_isPaused (with_player _ _)). reflexivity.
Qed.

(** *** isPaused is assigned by play() and pause() only *)

Ltac unassigned_side :=
  intros;
  match goal with
  | H : _ ∧ _ |- _ => destruct H; split; assumption
  end.

Lemma ready_tail_unassigned opts x :
  preserves (λ s, V.options (vlitejs s) = opts ∧ P.isPaused (player s) = x)
    (loading false;;
     controls ← option_ "controls";
     when (truthy controls) ControlBar_onPlayerReady;;
     s ← get;
     match instanceofFunction (V.onReady (vlitejs s)) with
     | Some f => callFunction f
     | None => mret tt
     end).
Proof. preserve unassigned_side. Qed.

Lemma ended_unassigned opts x :
  preserves (λ s, V.options (vlitejs s) = opts ∧ P.isPaused (player s) = x)
    ((onContainer (classList_replace "v-playing" "v-paused");;
      onContainer (classList_add "v-firstStart"));;
     poster ← option_ "poster";
     when (truthy poster)
       (ifElement P.poster (λ n, dom_update n (classList_add "v-active")));;
     ifElement P.progressBar (λ n,
       dom_update n (set_value "0");;
       dom_update n (style_setProperty "--value" "0%");;
       dom_update n (removeAttribute "aria-valuenow"));;
     ifElement P.currentTime (λ n, dom_update n (set_innerHTML "00:00"));;
     dispatchEvent "ended").
Proof. preserve unassigned_side. Qed.

(** An operation that does not go through [play()] or [pause()] leaves
    [isPaused], and the options, as they are. *)
Lemma exec_unassigned opts x o :
  plays_or_pauses opts o = false →
  preserves (λ s, V.options (vlitejs s) = opts ∧ P.isPaused (player s) = x) (exec o).
Proof.
  destruct o; simpl; intros Hq; try discriminate;
    try (preserve unassigned_side; fail).
  - intros s [Ho Hp]. unfold onPlayerReady.
    rewrite after_bind. simpl. rewrite Ho, Hq. simpl.
    rewrite after_bind. simpl.
    apply ready_tail_unassigned. split; assumption.
  - intros s [Ho Hp]. unfold onVideoEnded.
    rewrite after_bind. simpl. rewrite Ho, Hq.
    apply ended_unassigned. split; assumption.
Qed.

Lemma run_unassigned opts x os s :
  Forall (λ o, plays_or_pauses opts o = false) os →
  V.options (vlitejs s) = opts ∧ P.isPaused (player s) = x →
  V.options (vlitejs (run os s)) = opts ∧ P.isPaused (player (run os s)) = x.
Proof.
  intros Hos. revert s. induction Hos as [|o os Ho _ IH]; intros s H; simpl; [exact H|].
  apply IH, exec_unassigned; assumption.
Qed.

(** C4, as amended. [isPaused] is null when the player is constructed,
    and it is assigned by [play()] and [pause()] only: every sequence of
    operations that does not go through one of them (that is [play],
    [pause], [destroy], [onPlayerReady] with autoplay on, [onVideoEnded]
    with loop on) leaves it as it was, null if it was null. So
    [onPlayerReady] leaves it as it was when the autoplay option is off,
    and it can still be null after readiness; with autoplay on it
    becomes false through [play()], provided the calls of [mute()] and
    of the provider's [methodPlay] return. Once it is a boolean no
    operation makes it null again. Listeners and the [onReady] callback
    are taken not to call the player themselves while they run. *)
Theorem isPaused_lifecycle :
  (∀ Vlitejs d, P.isPaused (player (Player_constructor Vlitejs d)) = None) ∧
  (∀ s, truthy (prop (V.options (vlitejs s)) "autoplay") = false →
        P.isPaused (player (after onPlayerReady s)) = P.isPaused (player s)) ∧
  (∀ s, truthy (prop (V.options (vlitejs s)) "autoplay") = true →
        media_muted (document s) = true ∨ outcome mute s = Normal tt →
        Provider.methodPlay provider = Normal tt →
        P.isPaused (player (after onPlayerReady s)) = Some false) ∧
  (∀ s os, is_Some (P.isPaused (player s)) →
           is_Some (P.isPaused (player (run os s)))) ∧
  (∀ s os, Forall (λ o, plays_or_pauses (V.options (vlitejs s)) o = false) os →
           P.isPaused (player (run os s)) = P.isPaused (player s)) ∧
  (∀ Vlitejs d os,
     Forall (λ o, plays_or_pauses (V.options Vlitejs) o = false) os →
     P.isPaused (player (run os (Player_constructor Vlitejs d))) = None).
Proof.
  split_and!.
  - reflexivity.
  - intros s Hauto. unfold onPlayerReady.
    rewrite after_bind. simpl. rewrite Hauto. simpl.
    rewrite after_bind. simpl.
    apply (ready_tail_isPaused (P.isPaused (player s))). reflexivity.
  - intros s Hauto Hmute Hplay. unfold onPlayerReady.
    rewrite after_bind. simpl. rewrite Hauto. simpl.
    rewrite after_bind.
    set (auto := (s ← get; when (negb (media_muted (document s))) mute;; play)).
    assert (Hp : P.isPaused (player (after auto (after (option_ "autoplay") s))) = Some false).
    { unfold auto. rewrite after_bind. simpl. rewrite after_bind.
      change (after (option_ "autoplay") s) with s.
      destruct (media_muted (document s)) eqn:Hm; simpl.
      - apply play_isPaused, Hplay.
      - destruct Hmute as [?|Hmute]; [discriminate|]. change (after get s) with s. rewrite Hmute.
        apply play_isPaused, Hplay. }
    destruct (outcome auto _); [|exact Hp].
    apply (ready_tail_isPaused (Some false)). exact Hp.
  - intros s os. apply run_isPaused_known.
  - intros s os Hos.
    apply (run_unassigned (V.options (vlitejs s)) (P.isPaused (player s)) os s Hos).
    split; reflexivity.
  - intros Vlitejs d os Hos.
    apply (run_unassigned (V.options Vlitejs) None os _ Hos).
    split; reflexivity.
Qed.

(** *** onTimeUpdate *)

(** C2, as amended. With the time option on and both queries returning a
    promise, if either promise rejects then [onTimeUpdate] returns to its
    caller, the document and the player are as before, no callback is
    queued (so no update of the progress bar or of the time label and no
    timeupdate will follow), and nothing is dispatched. The rejection
    itself is not handled: it is left as an unhandled rejection. *)
Theorem onTimeUpdate_rejected (s : State) (p q : Fate) (e : Error) :
  truthy (prop (V.options (vlitejs s)) "time") = true →
  Provider.getCurrentTime provider = Normal p →
  Provider.getDuration provider = Normal q →
  p = Rejected e ∨ q = Rejected e →
  outcome onTimeUpdate s = Normal tt ∧
  document (after onTimeUpdate s) = document s ∧
  player (after onTimeUpdate s) = player s ∧
  jobs (after onTimeUpdate s) = jobs s ∧
  trace (after onTimeUpdate s) = trace s ++ [Call m_getCurrentTime; Call m_getDuration] ∧
  ∃ e', unhandled (after onTimeUpdate s) = unhandled s ++ [e'].
Proof.
  intros Htime Hp Hq Hrej.
  assert (∃ e', Promise_all p q = OneRejected e') as [e' Hall].
  { destruct Hrej as [->| ->]; [eauto|]. destruct p; simpl; eauto. }
  unfold outcome, after, onTimeUpdate. simulate. rewrite Htime. simulate.
  rewrite Hp. simulate. rewrite Hq. simulate. rewrite Hall. simpl.
  split_and!; try reflexivity.
  - rewrite <- app_assoc. reflexivity.
  - exists e'. reflexivity.
Qed.

(** *** onVideoEnded *)

(** What [onVideoEnded] does behind the branch on the loop option: it
    cannot throw before the dispatch, and it leaves the poster active,
    the progress bar at 0 and the time label at 00:00. *)
Lemma onVideoEnded_tail s :
  let s' := after
    (poster ← option_ "poster";
     when (truthy poster)
       (ifElement P.poster (λ n, dom_update n (classList_add "v-active")));;
     ifElement P.progressBar (λ n,
       dom_update n (set_value "0");;
       dom_update n (style_setProperty "--value" "0%");;
       dom_update n (removeAttribute "aria-valuenow"));;
     ifElement P.currentTime (λ n, dom_update n (set_innerHTML "00:00"));;
     dispatchEvent "ended") s in
  (∀ n, truthy (prop (V.options (vlitejs s)) "poster") = true →
        P.poster (P.elements (player s)) = Some n →
        is_Some (nodes (document s) !! n) →
        "v-active" ∈ classList (elem (document s') n)) ∧
  (∀ n, P.progressBar (P.elements (player s)) = Some n →
        is_Some (nodes (document s) !! n) →
        value (elem (document s') n) = "0") ∧
  (∀ n, P.currentTime (P.elements (player s)) = Some n →
        is_Some (nodes (document s) !! n) →
        innerHTML (elem (document s') n) = "00:00") ∧
  (∃ t, trace s' = trace s ++ Dispatch "ended" :: t).
Proof.
  unfold after. simulate.
  destruct (truthy (prop (V.options (vlitejs s)) "poster")) eqn:Hposter;
  destruct (P.poster (P.elements (player s))) as [po|] eqn:Hpo;
  destruct (P.progressBar (P.elements (player s))) as [pb|] eqn:Hpb;
  destruct (P.currentTime (P.elements (player s))) as [ct|] eqn:Hct;
  repeat (progress (simulate; rewrite ?Hpo, ?Hpb, ?Hct)).
  all: split_and!; [intros n ? Hn Hin| intros n Hn Hin | intros n Hn Hin| eauto];
    simplify_eq.
  all: repeat
    lazymatch goal with
    | |- "v-active" ∈ classList (elem (update ?n (classList_add "v-active") ?d) ?n) =>
        rewrite elem_update_eq by (rewrite ?member_update; assumption);
        simpl; set_solver
    | |- "v-active" ∈ classList (elem (update _ _ _) _) =>
        apply (elem_update_keeps (λ e, "v-active" ∈ classList e));
        [intros ? ?; assumption|]
    | |- value (elem (update ?n (set_value "0") ?d) ?n) = "0" =>
        rewrite elem_update_eq by (rewrite ?member_update; assumption);
        reflexivity
    | |- value (elem (update _ _ _) _) = "0" =>
        apply (elem_update_keeps (λ e, value e = "0"));
        [intros ? ?; assumption|]
    | |- innerHTML (elem (update ?n (set_innerHTML "00:00") ?d) ?n) = "00:00" =>
        rewrite elem_update_eq by (rewrite ?member_update; assumption);
        reflexivity
    end.
Qed.

Lemma onVideoEnded_tail_trace t0 :
  preserves (λ s, t0 `prefix_of` trace s)
    (poster ← option_ "poster";
     when (truthy poster)
       (ifElement P.poster (λ n, dom_update n (classList_add "v-active")));;
     ifElement P.progressBar (λ n,
       dom_update n (set_value "0");;
       dom_update n (style_setProperty "--value" "0%");;
       dom_update n (removeAttribute "aria-valuenow"));;
     ifElement P.currentTime (λ n, dom_update n (set_innerHTML "00:00"));;
     dispatchEvent "ended").
Proof. preserve prefix_side. Qed.

Lemma onVideoEnded_tail_started c :
  preserves (λ s, started (elem (document s) c))
    (poster ← option_ "poster";
     when (truthy poster)
       (ifElement P.poster (λ n, dom_update n (classList_add "v-active")));;
     ifElement P.progressBar (λ n,
       dom_update n (set_value "0");;
       dom_update n (style_setProperty "--value" "0%");;
       dom_update n (removeAttribute "aria-valuenow"));;
     ifElement P.currentTime (λ n, dom_update n (set_innerHTML "00:00"));;
     dispatchEvent "ended").
Proof. preserve started_side. Qed.

(** C5. With the loop option on, [onVideoEnded] calls the provider's
    [methodPlay], and before anything else that can be observed. With the
    loop option off, it leaves the value of the progress bar at 0 and
    the text of the time label at 00:00, whenever these controls exist,
    and it dispatches ended. *)
Theorem onVideoEnded_replays_or_resets (s : State) :
  (truthy (prop (V.options (vlitejs s)) "loop") = true →
     ∃ t, trace (after onVideoEnded s) = trace s ++ Call m_methodPlay :: t) ∧
  (truthy (prop (V.options (vlitejs s)) "loop") = false →
     (∀ n, P.progressBar (P.elements (player s)) = Some n →
           is_Some (nodes (document s) !! n) →
           value (elem (document (after onVideoEnded s)) n) = "0") ∧
     (∀ n, P.currentTime (P.elements (player s)) = Some n →
           is_Some (nodes (document s) !! n) →
           innerHTML (elem (document (after onVideoEnded s)) n) = "00:00") ∧
     (∃ t, trace (after onVideoEnded s) = trace s ++ Dispatch "ended" :: t)).
Proof.
  split; intros Hloop; unfold onVideoEnded;
    rewrite after_bind; simpl; rewrite Hloop; rewrite after_bind;
    change (after (option_ "loop") s) with s.
  - destruct (outcome play s).
    + destruct (onVideoEnded_tail_trace _ _ (play_trace s)) as [t Ht].
      exists t. rewrite Ht, <- app_assoc. reflexivity.
    + destruct (play_trace s) as [t Ht].
      exists t. rewrite Ht, <- app_assoc. reflexivity.
  - set (head := (onContainer (classList_replace "v-playing" "v-paused");;
                  onContainer (classList_add "v-firstStart"))).
    assert (Hhead : head s = (Normal tt,
      with_document (update (P.container (P.elements (player s)))
                       (classList_add "v-firstStart"))
        (with_document (update (P.container (P.elements (player s)))
                          (classList_replace "v-playing" "v-paused")) s)))
      by reflexivity.
    unfold outcome, after at 2 4 6. rewrite Hhead. cbn beta iota.
    match goal with
    | |- context [after ?m ?s1] => destruct (onVideoEnded_tail s1) as (_ & Hpb & Hct & Ht)
    end.
    split_and!.
    + intros n Hn Hin. apply Hpb; [exact Hn|]. project. rewrite !member_update. exact Hin.
    + intros n Hn Hin. apply Hct; [exact Hn|]. project. rewrite !member_update. exact Hin.
    + exact Ht.
Qed.

(** C6, as amended. With the loop option on and [play()] returning,
    [onVideoEnded] replays: it calls the provider's [methodPlay] and
    leaves the container neither paused nor in first start. The reset of
    the progress bar and of the time label is not reserved for the other
    case: the progress bar goes back to 0 and the time label to 00:00,
    and ended is dispatched. *)
Theorem onVideoEnded_loop (s : State) :
  truthy (prop (V.options (vlitejs s)) "loop") = true →
  outcome play s = Normal tt →
  (∃ t1 t2, trace (after onVideoEnded s) =
              trace s ++ Call m_methodPlay :: t1 ++ Dispatch "ended" :: t2) ∧
  started (elem (document (after onVideoEnded s)) (P.container (P.elements (player s)))) ∧
  (∀ n, P.progressBar (P.elements (player s)) = Some n →
        is_Some (nodes (document s) !! n) →
        value (elem (document (after onVideoEnded s)) n) = "0") ∧
  (∀ n, P.currentTime (P.elements (player s)) = Some n →
        is_Some (nodes (document s) !! n) →
        innerHTML (elem (document (after onVideoEnded s)) n) = "00:00").
Proof.
  intros Hloop Hplay.
  assert (Hm : Provider.methodPlay provider = Normal tt).
  { destruct (Provider.methodPlay provider) as [[]|e] eqn:E; [reflexivity|].
    rewrite (play_throws s e E) in Hplay. discriminate. }
  assert (Hel := play_elements _ s eq_refl).
  unfold onVideoEnded.
  rewrite after_bind; simpl; rewrite Hloop; rewrite after_bind;
    change (after (option_ "loop") s) with s.
  rewrite Hplay.
  match goal with
  | |- context [after ?m (after play s)] =>
      destruct (onVideoEnded_tail (after play s)) as (_ & Hpb & Hct & Ht)
  end.
  simpl in Hel. rewrite Hel in *.
  split_and!.
  - destruct (play_trace s) as [t1 Ht1]. destruct Ht as [t2 Ht2].
    exists t1, t2. rewrite Ht2, Ht1, <- !app_assoc. reflexivity.
  - apply onVideoEnded_tail_started, play_started, Hm.
  - intros n Hn Hin. apply Hpb; auto. apply play_member, Hin.
  - intros n Hn Hin. apply Hct; auto. apply play_member, Hin.
Qed.

(** *** getVolume *)

Lemma jobs_wf_constructor Vlitejs d : jobs_wf (Player_constructor Vlitejs d).
Proof. intros c x H. simpl in H. apply elem_of_nil in H. destruct H. Qed.

Ltac wf_side :=
  intros ? Hwf; first
    [ exact Hwf
    | intros ? ? Hin; simpl in *;
      first
        [ apply elem_of_app in Hin as [Hin|Hin];
          [ exact (Hwf _ _ Hin)
          | first [ apply list_elem_of_singleton in Hin; discriminate
                  | apply list_elem_of_fmap in Hin as (? & ? & ?); discriminate ] ]
        | apply dom_insert_subseteq, (Hwf _ _ Hin) ] ].

Lemma getVolume_jobs_wf : preserves jobs_wf getVolume.
Proof.
  intros s Hwf. unfold after, getVolume, new_Promise.
  rewrite bind_run, methodGetVolume_run.
  set (c := fresh (dom (cells s))).
  destruct (Provider.methodGetVolume provider) as [[x|e|]|e]; simpl.
  - intros c' x' Hin. simpl in *. rewrite dom_insert_L.
    apply elem_of_app in Hin as [Hin|Hin].
    + apply elem_of_union_r, (Hwf _ _ Hin).
    + apply list_elem_of_singleton in Hin. injection Hin as -> _.
      apply elem_of_union_l, elem_of_singleton. reflexivity.
  - intros c' x' Hin. simpl in *. apply dom_insert_subseteq, (Hwf _ _ Hin).
  - intros c' x' Hin. simpl in *. apply dom_insert_subseteq, (Hwf _ _ Hin).
  - unfold reject. simpl. rewrite lookup_insert_eq. simpl.
    intros c' x' Hin. simpl in *. rewrite insert_insert_eq.
    apply dom_insert_subseteq, (Hwf _ _ Hin).
Qed.

Lemma cell_then_jobs_wf c r : preserves jobs_wf (cell_then c r).
Proof. preserve wf_side. Qed.

Lemma callback_jobs_wf j : preserves jobs_wf (callback j).
Proof. destruct j as [| | |[]]; simpl; preserve wf_side. Qed.

Lemma runJob_jobs_wf i : preserves jobs_wf (runJob i).
Proof.
  apply preserves_runJob.
  - intros s Hwf c x Hin. simpl in *.
    apply (Hwf c x), (elem_of_sublist _ _ _ Hin), sublist_delete.
  - intros e s Hwf. exact Hwf.
  - intros s j _ _. apply callback_jobs_wf.
Qed.

(** Every state the operations lead to from a well-formed one is
    well-formed. *)
Lemma exec_jobs_wf o : preserves jobs_wf (exec o).
Proof.
  destruct o; simpl;
    first
      [ apply runJob_jobs_wf
      | apply preserves_bind;
        [apply getVolume_jobs_wf|intros ?; first [apply preserves_mret|apply cell_then_jobs_wf]]
      | solve [preserve wf_side] ].
Qed.

Lemma run_jobs_wf os s : jobs_wf s → jobs_wf (run os s).
Proof.
  revert s. induction os as [|o os IH]; intros s H; simpl; [exact H|].
  apply IH, exec_jobs_wf, H.
Qed.

Lemma pending_for_good_frame c s s' :
  cells s' = cells s → jobs s' = jobs s →
  pending_for_good c s → pending_for_good c s'.
Proof. unfold pending_for_good. intros -> ->. auto. Qed.

Lemma pending_for_good_queue c s j :
  (∀ x, j ≠ JobResolve c x) →
  pending_for_good c s → pending_for_good c (with_jobs (λ q, q ++ [j]) s).
Proof.
  intros Hj [Hc Hq]. split; [exact Hc|]. intros x Hin. simpl in Hin.
  apply elem_of_app in Hin as [Hin|Hin]; [exact (Hq x Hin)|].
  apply list_elem_of_singleton in Hin. exact (Hj x (eq_sym Hin)).
Qed.

Lemma pending_for_good_cell c s c' v :
  c' ≠ c ∨ (∃ reactions, v = CellPending reactions) →
  pending_for_good c s → pending_for_good c (with_cells (<[c' := v]>) s).
Proof.
  intros Hv [[rs Hc] Hq]. split; [|exact Hq]. simpl.
  destruct (decide (c' = c)) as [->|Hne].
  - destruct Hv as [?|[rs' ->]]; [congruence|].
    exists rs'. apply lookup_insert_eq.
  - exists rs. rewrite lookup_insert_ne by done. exact Hc.
Qed.

Ltac pending_side :=
  intros ? Hp; first
    [ exact Hp
    | apply pending_for_good_queue; [intros ?; discriminate|exact Hp]
    | apply (pending_for_good_frame _ _ _ eq_refl eq_refl Hp) ].

Lemma getVolume_pending c : preserves (pending_for_good c) getVolume.
Proof.
  intros s Hp. unfold after, getVolume, new_Promise.
  rewrite bind_run, methodGetVolume_run.
  assert (Hne : fresh (dom (cells s)) ≠ c).
  { intros <-. destruct Hp as [[rs Hc] _].
    apply (is_fresh (dom (cells s))), elem_of_dom. eauto. }
  assert (H1 : pending_for_good c
    (with_trace (λ t, t ++ [Call m_methodGetVolume])
       (with_cells (<[fresh (dom (cells s)) := CellPending []]>) s))).
  { apply (pending_for_good_frame c (with_cells (<[fresh (dom (cells s)) := CellPending []]>) s));
      [reflexivity|reflexivity|].
    apply pending_for_good_cell; auto. }
  destruct (Provider.methodGetVolume provider) as [[x|e|]|e]; simpl.
  - apply pending_for_good_queue; [|exact H1]. intros x' E. congruence.
  - apply (pending_for_good_frame _ _ _ eq_refl eq_refl H1).
  - exact H1.
  - unfold reject. simpl. rewrite lookup_insert_eq. simpl.
    destruct Hp as [[rs Hc] Hq]. split; simpl; [|exact Hq].
    exists rs. rewrite !lookup_insert_ne by done. exact Hc.
Qed.

Lemma cell_then_pending c c' r : preserves (pending_for_good c) (cell_then c' r).
Proof.
  intros s Hp. unfold after, cell_then. rewrite bind_run, get_run. cbn beta iota.
  destruct (cells s !! c') as [[rs|x|e]|] eqn:E; simpl.
  - apply pending_for_good_cell; eauto.
  - apply pending_for_good_queue; [intros ?; discriminate|exact Hp].
  - apply (pending_for_good_frame _ _ _ eq_refl eq_refl Hp).
  - exact Hp.
Qed.

Lemma callback_pending c j :
  (∀ x, j ≠ JobResolve c x) → preserves (pending_for_good c) (callback j).
Proof.
  intros Hj. destruct j as [| |c' x|[]]; simpl; try solve [preserve pending_side].
  intros s Hp. unfold after, resolve. rewrite bind_run, get_run. cbn beta iota.
  assert (Hne : c' ≠ c) by (intros ->; exact (Hj x eq_refl)).
  destruct (cells s !! c') as [[rs| |]|] eqn:E; simpl; try exact Hp.
  destruct Hp as [[rs' Hc] Hq]. split; simpl.
  - exists rs'. rewrite lookup_insert_ne by done. exact Hc.
  - intros x' Hin. apply elem_of_app in Hin as [Hin|Hin]; [exact (Hq x' Hin)|].
    apply list_elem_of_fmap in Hin as (? & ? & ?). discriminate.
Qed.

Lemma runJob_pending c i : preserves (pending_for_good c) (runJob i).
Proof.
  apply preserves_runJob.
  - intros s [Hc Hq]. split; [exact Hc|]. intros x Hin. simpl in Hin.
    apply (Hq x), (elem_of_sublist _ _ _ Hin), sublist_delete.
  - intros e s Hp. apply (pending_for_good_frame _ _ _ eq_refl eq_refl Hp).
  - intros s j [_ Hq] Hj. apply callback_pending.
    intros x ->. apply (Hq x), list_elem_of_lookup. eauto.
Qed.

(** No operation settles a promise that is pending for good. *)
Lemma exec_pending c o : preserves (pending_for_good c) (exec o).
Proof.
  destruct o; simpl;
    first
      [ apply runJob_pending
      | apply preserves_bind;
        [apply getVolume_pending|intros ?; first [apply preserves_mret|apply cell_then_pending]]
      | solve [preserve pending_side] ].
Qed.

Lemma run_pending c os s : pending_for_good c s → pending_for_good c (run os s).
Proof.
  revert s. induction os as [|o os IH]; intros s H; simpl; [exact H|].
  apply IH, exec_pending, H.
Qed.

Lemma getVolume_rejected_run s e :
  Provider.methodGetVolume provider = Normal (Rejected e) →
  getVolume s =
  (Normal (fresh (dom (cells s))),
   with_unhandled (λ u, u ++ [e])
     (with_trace (λ t, t ++ [Call m_methodGetVolume])
        (with_cells (<[fresh (dom (cells s)) := CellPending []]>) s))).
Proof.
  intros Hrej. unfold getVolume, new_Promise.
  rewrite bind_run, methodGetVolume_run, Hrej. reflexivity.
Qed.

Lemma fresh_cell_unqueued s x :
  jobs_wf s → JobResolve (fresh (dom (cells s))) x ∉ jobs s.
Proof. intros Hwf Hin. exact (is_fresh (dom (cells s)) (Hwf _ _ Hin)). Qed.

(** C10. Let the provider's [methodGetVolume] return a promise that
    rejects. Then [getVolume] returns a promise that is pending and that
    no later operation settles; the rejection goes to the promise that
    [then] returned and that was dropped. A volume key handler chaining on it
    returns normally and changes neither the player nor the document: it
    calls [methodGetVolume] and nothing else, in particular not
    [methodSetVolume], it queues no callback, and its reaction stays
    attached to a promise that remains pending whatever happens next. *)
Theorem getVolume_rejected_never_settles (s : State) (e : Error) :
  jobs_wf s →
  Provider.methodGetVolume provider = Normal (Rejected e) →
  let c := fresh (dom (cells s)) in
  outcome getVolume s = Normal c ∧
  cells (after getVolume s) !! c = Some (CellPending []) ∧
  unhandled (after getVolume s) = unhandled s ++ [e] ∧
  (∀ os, ∃ reactions,
     cells (run os (after getVolume s)) !! c = Some (CellPending reactions)) ∧
  (∀ r,
     outcome (volumeKey r) s = Normal tt ∧
     player (after (volumeKey r) s) = player s ∧
     document (after (volumeKey r) s) = document s ∧
     jobs (after (volumeKey r) s) = jobs s ∧
     trace (after (volumeKey r) s) = trace s ++ [Call m_methodGetVolume] ∧
     cells (after (volumeKey r) s) !! c = Some (CellPending [r]) ∧
     ∀ os, ∃ reactions,
       cells (run os (after (volumeKey r) s)) !! c = Some (CellPending reactions)).
Proof.
  intros Hwf Hrej c.
  assert (Hg := getVolume_rejected_run s e Hrej). fold c in Hg.
  split_and!.
  - unfold outcome. rewrite Hg. reflexivity.
  - unfold after. rewrite Hg. simpl. apply lookup_insert_eq.
  - unfold after. rewrite Hg. reflexivity.
  - intros os. apply (run_pending c os). unfold after. rewrite Hg. split; simpl.
    + eexists. apply lookup_insert_eq.
    + intros x. apply fresh_cell_unqueued, Hwf.
  - intros r.
    assert (Hk : volumeKey r s =
      (Normal tt,
       with_cells (<[c := CellPending [r]]>)
         (with_unhandled (λ u, u ++ [e])
            (with_trace (λ t, t ++ [Call m_methodGetVolume])
               (with_cells (<[c := CellPending []]>) s))))).
    { destruct r; simpl; unfold increaseVolume, decreaseVolume;
        rewrite bind_run, Hg; cbn beta iota;
        unfold cell_then; rewrite bind_run, get_run; cbn beta iota;
        simpl; rewrite lookup_insert_eq; reflexivity. }
    unfold outcome, after. rewrite Hk. simpl. split_and!; try reflexivity.
    + apply lookup_insert_eq.
    + intros os. apply (run_pending c os). split; simpl.
      * eexists. apply lookup_insert_eq.
      * intros x. apply fresh_cell_unqueued, Hwf.
Qed.
(** ** Further properties of the player *)

Lemma methodPause_run s :
  methodPause s =
  (Provider.methodPause provider, with_trace (λ t, t ++ [Call m_methodPause]) s).
Proof. reflexivity. Qed.
Lemma methodMute_run s :
  methodMute s =
  (Provider.methodMute provider, with_trace (λ t, t ++ [Call m_methodMute]) s).
Proof. reflexivity. Qed.
Lemma methodUnMute_run s :
  methodUnMute s =
  (Provider.methodUnMute provider, with_trace (λ t, t ++ [Call m_methodUnMute]) s).
Proof. reflexivity. Qed.
Lemma methodSeekTo_run x s :
  methodSeekTo x s =
  (Provider.methodSeekTo provider x, with_trace (λ t, t ++ [Call (m_methodSeekTo x)]) s).
Proof. reflexivity. Qed.

#[local] Hint Rewrite methodPause_run methodMute_run methodUnMute_run
  methodSeekTo_run : simulate.

Lemma calls_app t1 t2 : calls (t1 ++ t2) = calls t1 ++ calls t2.
Proof. apply omap_app. Qed.

Lemma dispatches_app t1 t2 : dispatches (t1 ++ t2) = dispatches t1 ++ dispatches t2.
Proof. apply omap_app. Qed.

Lemma dispatches_invokes l : dispatches (map Invoke l) = [].
Proof. induction l; simpl; auto. Qed.

(** Symbolic execution through the tests of a method body. *)
Ltac branch :=
  match goal with
  | |- context [ifNode ?r _ _] => destruct r eqn:?
  | |- context [when ?b _ _] => destruct b eqn:?
  | |- context [match ?x with Some _ => _ | None => _ end] => destruct x eqn:?
  | |- context [if ?b then _ else _] => destruct b eqn:?
  end.
Ltac explore := simulate; repeat (branch; simulate).

(** *** The timer of the control bar *)

(** [afterPlayPause] returns; it leaves the player as it was, adds
    neither a provider call nor a dispatch to the trace, and in the
    document at most takes the class hidden off one element. *)
Lemma afterPlayPause_shape s :
  ∃ s' t,
    afterPlayPause s = (Normal tt, s') ∧
    player s' = player s ∧
    trace s' = trace s ++ t ∧ calls t = [] ∧ dispatches t = [] ∧
    (document s' = document s ∨
     ∃ n, document s' = update n (classList_remove "hidden") (document s)).
Proof.
  unfold afterPlayPause, stopAutoHideTimer, startAutoHideTimer, clearTimeout.
  explore;
    (eexists _, _; split; [reflexivity|]; project;
     split_and!;
       [ reflexivity
       | rewrite <- ?app_assoc; first [reflexivity | symmetry; apply app_nil_r]
       | reflexivity
       | reflexivity
       | eauto ]).
Qed.

(** *** pause *)

(** Once the provider has returned from [methodPause], [pause] reaches
    its dispatch with [isPaused] true and nothing in the trace behind
    the provider call but timer events. *)
Lemma pause_shape s :
  Provider.methodPause provider = Normal tt →
  ∃ sM t,
    pause s = dispatchEvent "pause" sM ∧
    player sM = P.set_isPaused (Some true) (player s) ∧
    trace sM = trace s ++ Call m_methodPause :: t ∧ calls t = [] ∧ dispatches t = [].
Proof.
  intros Hp. unfold pause. simulate. rewrite Hp. explore.
  all: match goal with
       | |- context [afterPlayPause ?sK] =>
           destruct (afterPlayPause_shape sK) as (s' & t & E & Hpl & Ht & Hc & Hd & _);
           rewrite E; cbn beta iota
       end.
  all: exists s', t; split; [reflexivity|]; revert Hpl Ht; project; intros -> ->.
  all: rewrite <- app_assoc; auto.
Qed.

Section Kept.
Context (Q : Element → Prop) (c : node).
Hypothesis Q_setAttribute : ∀ k v e, Q e → Q (setAttribute k v e).
Hypothesis Q_hidden : ∀ e, Q e → Q (classList_remove "hidden" e).

Ltac kept_side :=
  intros; first
    [ assumption
    | project; apply (elem_update_keeps Q); [intros; auto|assumption] ].

(** What [pause] does after the update of the container keeps, at every
    node, whatever the labels and the class hidden do not touch. *)
Lemma pause_rest_keeps :
  preserves (λ s, Q (elem (document s) c))
    (ifElement P.playPause (λ n, dom_update n (setAttribute "aria-label" "Play"));;
     video ← isVideo;
     when video
       (ifElement P.bigPlay (λ n, dom_update n (setAttribute "aria-label" "Play")));;
     afterPlayPause;;
     dispatchEvent "pause").
Proof using Q_setAttribute Q_hidden. preserve kept_side. Qed.

(** The same for [play]. *)
Lemma play_rest_keeps :
  preserves (λ s, Q (elem (document s) c))
    (ifElement P.playPause (λ n, dom_update n (setAttribute "aria-label" "Pause"));;
     video ← isVideo;
     when video
       (ifElement P.bigPlay (λ n, dom_update n (setAttribute "aria-label" "Pause")));;
     afterPlayPause;;
     dispatchEvent "play").
Proof using Q_setAttribute Q_hidden. preserve kept_side. Qed.
End Kept.

Lemma classList_replace_new old new e :
  old ∈ classList e → new ∈ classList (classList_replace old new e).
Proof.
  intros H. unfold classList_replace.
  destruct (decide (old ∈ classList e)); [simpl; set_solver|contradiction].
Qed.

Lemma member_classList d n c : c ∈ classList (elem d n) → is_Some (nodes d !! n).
Proof.
  unfold elem. destruct (nodes d !! n); [eauto|]. simpl. set_solver.
Qed.

Lemma pause_isPaused s :
  Provider.methodPause provider = Normal tt →
  P.isPaused (player (after pause s)) = Some true.
Proof.
  intros Hp. destruct (pause_shape s Hp) as (sM & t & E & Hpl & _).
  unfold after. rewrite E, dispatchEvent_run. project. rewrite Hpl. reflexivity.
Qed.

Lemma pause_not_playing s :
  Provider.methodPause provider = Normal tt →
  "v-playing" ∉ classList (elem (document (after pause s))
                             (P.container (P.elements (player s)))).
Proof.
  intros Hp. set (c := P.container (P.elements (player s))).
  unfold after, pause. rewrite bind_run, methodPause_run, Hp. cbn beta iota.
  rewrite bind_run, assign_run. cbn beta iota.
  rewrite bind_run, onContainer_run. cbn beta iota.
  apply (pause_rest_keeps (λ e, "v-playing" ∉ classList e) c);
    [intros k v e H; exact H|intros e H; simpl; set_solver|].
  project. fold c.
  destruct (elem_update_same c (classList_replace "v-playing" "v-paused")
              (document s)) as [-> | ->].
  - apply classList_replace_gone. done.
  - simpl. set_solver.
Qed.

Lemma pause_paused s :
  Provider.methodPause provider = Normal tt →
  "v-playing" ∈ classList (elem (document s) (P.container (P.elements (player s)))) →
  "v-paused" ∈ classList (elem (document (after pause s))
                            (P.container (P.elements (player s)))).
Proof.
  intros Hp Hin. set (c := P.container (P.elements (player s))) in *.
  unfold after, pause. rewrite bind_run, methodPause_run, Hp. cbn beta iota.
  rewrite bind_run, assign_run. cbn beta iota.
  rewrite bind_run, onContainer_run. cbn beta iota.
  apply (pause_rest_keeps (λ e, "v-paused" ∈ classList e) c);
    [intros k v e H; exact H|intros e H; simpl; set_solver|].
  project. fold c. rewrite elem_update_eq by (eapply member_classList, Hin).
  apply classList_replace_new, Hin.
Qed.

Lemma pause_trace s :
  Provider.methodPause provider = Normal tt →
  ∃ Δ, trace (after pause s) = trace s ++ Δ ∧
       calls Δ = [m_methodPause] ∧ dispatches Δ = ["pause"].
Proof.
  intros Hp. destruct (pause_shape s Hp) as (sM & t & E & _ & Ht & Hc & Hd).
  unfold after. rewrite E, dispatchEvent_run. project. rewrite Ht.
  eexists. split; [rewrite <- app_assoc; reflexivity|].
  simpl. rewrite calls_app, dispatches_app, Hc, Hd. simpl.
  rewrite calls_invokes, dispatches_invokes. auto.
Qed.

(** X1. [pause] calls the provider first. If [methodPause] throws,
    [pause] throws the same error and nothing but the call has happened:
    [isPaused], the document and the listeners are untouched and no
    pause is dispatched. If it returns, [isPaused] is true, the
    container is no longer playing (and is paused if it was playing),
    and the trace has grown by exactly one provider call,
    [methodPause], and one dispatch, pause. *)
Theorem pause_effect (s : State) :
  let c := P.container (P.elements (player s)) in
  (∀ e, Provider.methodPause provider = Throw e →
     pause s = (Throw e, with_trace (λ t, t ++ [Call m_methodPause]) s)) ∧
  (Provider.methodPause provider = Normal tt →
     P.isPaused (player (after pause s)) = Some true ∧
     ("v-playing" ∉ classList (elem (document (after pause s)) c)) ∧
     ("v-playing" ∈ classList (elem (document s) c) →
        "v-paused" ∈ classList (elem (document (after pause s)) c)) ∧
     ∃ Δ, trace (after pause s) = trace s ++ Δ ∧
          calls Δ = [m_methodPause] ∧ dispatches Δ = ["pause"]).
Proof.
  intros c. split.
  - intros e He. unfold pause. simulate. rewrite He. reflexivity.
  - intros Hp. split_and!.
    + apply pause_isPaused, Hp.
    + apply pause_not_playing, Hp.
    + apply pause_paused, Hp.
    + apply pause_trace, Hp.
Qed.

(** *** play *)

(** Once the provider has returned from [methodPlay], [play] reaches its
    dispatch with [isPaused] false and nothing in the trace behind the
    provider call but timer events. *)
Lemma play_shape s :
  Provider.methodPlay provider = Normal tt →
  ∃ sM t,
    play s = dispatchEvent "play" sM ∧
    player sM = P.set_isPaused (Some false) (player s) ∧
    trace sM = trace s ++ Call m_methodPlay :: t ∧ calls t = [] ∧ dispatches t = [].
Proof.
  intros Hp. destruct (play_start s) as (s1 & E1 & Ht1 & Hpl1 & _).
  rewrite E1. clear E1. simulate. rewrite Hp. explore.
  all: match goal with
       | |- context [afterPlayPause ?sK] =>
           destruct (afterPlayPause_shape sK) as (s' & t & E & Hpl & Ht & Hc & Hd & _);
           rewrite E; cbn beta iota
       end.
  all: exists s', t; split; [reflexivity|]; revert Hpl Ht; project; intros -> ->.
  all: rewrite <- app_assoc, Ht1, Hpl1; auto.
Qed.

Lemma play_trace_delta s :
  Provider.methodPlay provider = Normal tt →
  ∃ Δ, trace (after play s) = trace s ++ Δ ∧
       calls Δ = [m_methodPlay] ∧ dispatches Δ = ["play"].
Proof.
  intros Hp. destruct (play_shape s Hp) as (sM & t & E & _ & Ht & Hc & Hd).
  unfold after. rewrite E, dispatchEvent_run. project. rewrite Ht.
  eexists. split; [rewrite <- app_assoc; reflexivity|].
  simpl. rewrite calls_app, dispatches_app, Hc, Hd. simpl.
  rewrite calls_invokes, dispatches_invokes. auto.
Qed.

Lemma play_container s : P.container (P.elements (player (after play s))) = P.container (P.elements (player s)).
Proof.
  rewrite (play_elements (P.elements (player s)) s); reflexivity.
Qed.

(** X2. A [play] followed by a [pause], the provider returning from
    both commands: [isPaused] is false in between and true at the end,
    the container is not left playing, and over the two calls the
    provider has been called exactly twice, [methodPlay] then
    [methodPause], and exactly two events have been dispatched, play
    then pause. *)
Theorem play_pause_sequence (s : State) :
  Provider.methodPlay provider = Normal tt →
  Provider.methodPause provider = Normal tt →
  P.isPaused (player (run [op_play] s)) = Some false ∧
  P.isPaused (player (run [op_play; op_pause] s)) = Some true ∧
  ("v-playing" ∉ classList (elem (document (run [op_play; op_pause] s))
                              (P.container (P.elements (player s))))) ∧
  ∃ Δ, trace (run [op_play; op_pause] s) = trace s ++ Δ ∧
       calls Δ = [m_methodPlay; m_methodPause] ∧
       dispatches Δ = ["play"; "pause"].
Proof.
  intros Hplay Hpause. simpl. split_and!.
  - apply play_isPaused, Hplay.
  - apply pause_isPaused, Hpause.
  - rewrite <- (play_container s). apply pause_not_playing, Hpause.
  - destruct (play_trace_delta s Hplay) as (Δ1 & E1 & Hc1 & Hd1).
    destruct (pause_trace (after play s) Hpause) as (Δ2 & E2 & Hc2 & Hd2).
    exists (Δ1 ++ Δ2). rewrite E2, E1, <- app_assoc.
    rewrite calls_app, dispatches_app, Hc1, Hc2, Hd1, Hd2. auto.
Qed.

(** X3. If the provider throws from [methodPlay], [play] throws the same
    error with [isPaused] as it was, nothing dispatched and the provider
    called once; but the first-start class has already been taken off
    the container, since that is done before the provider is called. *)
Theorem play_provider_throws (s : State) (e : Error) :
  Provider.methodPlay provider = Throw e →
  outcome play s = Throw e ∧
  player (after play s) = player s ∧
  trace (after play s) = trace s ++ [Call m_methodPlay] ∧
  "v-firstStart" ∉ classList (elem (document (after play s))
                                (P.container (P.elements (player s)))).
Proof.
  intros Hp. destruct (play_start s) as (s1 & E1 & Ht1 & Hpl1 & _ & _ & Hfirst).
  unfold outcome, after. rewrite E1, bind_run, methodPlay_run, Hp.
  project. rewrite Ht1, Hpl1. auto.
Qed.

(** *** mute and unMute *)

Lemma elem_update_update n f g d :
  elem (update n g (update n f d)) n = elem (update n (g ∘ f) d) n.
Proof.
  unfold elem. simpl. rewrite !lookup_alter.
  destruct (decide (n = n)); [|congruence].
  destruct (nodes d !! n); reflexivity.
Qed.

Lemma elem_update_classList n f d :
  classList (f (elem d n)) = classList (elem d n) →
  classList (elem (update n f d) n) = classList (elem d n).
Proof.
  unfold elem. simpl. rewrite lookup_alter.
  destruct (decide (n = n)); [|congruence].
  destruct (nodes d !! n); simpl; auto.
Qed.

(** X4. [mute] followed by [unMute], the provider returning from both:
    [isMuted] is true in between and false at the end; the volume button
    of an existing control bar is pressed in between and not at the end,
    and if it was not pressed at the start its classes are back to what
    they were; the provider has been called exactly twice, [methodMute]
    then [methodUnMute], and volumechange has been dispatched twice. *)
Theorem mute_unMute_round_trip (s : State) :
  Provider.methodMute provider = Normal tt →
  Provider.methodUnMute provider = Normal tt →
  let s1 := after mute s in
  let s2 := after unMute s1 in
  P.isMuted (player s1) = JBool true ∧
  P.isMuted (player s2) = JBool false ∧
  (∀ n, P.volume (P.elements (player s)) = Some n →
        (is_Some (nodes (document s) !! n) →
           "v-pressed" ∈ classList (elem (document s1) n)) ∧
        ("v-pressed" ∉ classList (elem (document s2) n)) ∧
        ("v-pressed" ∉ classList (elem (document s) n) →
           classList (elem (document s2) n) = classList (elem (document s) n))) ∧
  ∃ Δ, trace s2 = trace s ++ Δ ∧
       calls Δ = [m_methodMute; m_methodUnMute] ∧
       dispatches Δ = ["volumechange"; "volumechange"].
Proof.
  intros Hm Hu s1 s2. subst s2 s1. unfold after, mute, unMute.
  simulate. rewrite Hm. simulate.
  destruct (P.volume (P.elements (player s))) as [n|] eqn:Hv; simulate;
    rewrite Hu; simulate; rewrite ?Hv; simulate.
  - split_and!; [reflexivity|reflexivity| |].
    + intros n' [= <-]. split_and!.
      * intros Hn. rewrite elem_update_eq by exact Hn. simpl. set_solver.
      * rewrite elem_update_update.
        destruct (elem_update_same n
          (classList_remove "v-pressed" ∘ classList_add "v-pressed") (document s))
          as [-> | ->]; simpl; set_solver.
      * intros Hno. rewrite elem_update_update.
        apply elem_update_classList. simpl. set_solver.
    + eexists. split; [rewrite <- !app_assoc; reflexivity|].
      simpl. rewrite !calls_app, !dispatches_app. simpl.
      rewrite !calls_invokes, !dispatches_invokes. auto.
  - split_and!; [reflexivity|reflexivity| |].
    + intros n' [=].
    + eexists. split; [rewrite <- !app_assoc; reflexivity|].
      simpl. rewrite !calls_app, !dispatches_app. simpl.
      rewrite !calls_invokes, !dispatches_invokes. auto.
Qed.

(** *** setVolume, the provider failing *)

(** X5. If the provider throws from [methodSetVolume], [setVolume]
    throws the same error and dispatches nothing; but [isMuted] has
    already been assigned, since that is done before the provider is
    called: true for a volume at or below 0, false for a volume above 0
    and up to 1. *)
Theorem setVolume_provider_throws (s : State) (v : float) (e : Error) :
  (∀ w, Provider.methodSetVolume provider w = Throw e) →
  outcome (setVolume v) s = Throw e ∧
  dispatches (trace (after (setVolume v) s)) = dispatches (trace s) ∧
  ((v <=? 0)%float = true →
     P.isMuted (player (after (setVolume v) s)) = JBool true) ∧
  ((0 <? v)%float = true → (v <=? 1)%float = true →
     P.isMuted (player (after (setVolume v) s)) = JBool false).
Proof.
  intros He. unfold outcome, after, setVolume.
  destruct (1 <? v)%float eqn:H1; [|destruct (v <=? 0)%float eqn:H0].
  - simulate. rewrite He. project. rewrite dispatches_app. simpl.
    rewrite app_nil_r. split_and!; try reflexivity.
    + intros H'. apply above_one_above_zero in H1. congruence.
    + intros _ H'. apply leb_ltb in H'. congruence.
  - simulate. destruct (P.volume (P.elements (player s))); simulate;
      rewrite He; project; rewrite dispatches_app; simpl; rewrite app_nil_r;
      (split_and!; try reflexivity);
      intros H' _; apply ltb_leb in H'; congruence.
  - simulate. destruct (P.volume (P.elements (player s))); simulate;
      rewrite He; project; rewrite dispatches_app; simpl; rewrite app_nil_r;
      (split_and!; try reflexivity); congruence.
Qed.

(** *** Listeners *)

Lemma completion_app l1 l :
  Forall (λ f, Host.call host f = Normal tt) l1 →
  completion (l1 ++ l) = completion l ∧ invoked (l1 ++ l) = l1 ++ invoked l.
Proof.
  induction 1 as [|f l1 Hf _ [IH1 IH2]]; simpl; [done|].
  rewrite Hf. split; congruence.
Qed.

(** X6. A listener that throws ends the dispatch: the listeners
    registered before it have been called in order, it has been called,
    the listeners registered after it are not called, and
    [dispatchEvent] throws what the listener threw. *)
Theorem dispatchEvent_listener_throws (s : State) (type : string)
    (l1 l2 : list fn) (f : fn) (e : Error) :
  listeners s type = l1 ++ f :: l2 →
  Forall (λ g, Host.call host g = Normal tt) l1 →
  Host.call host f = Throw e →
  dispatchEvent type s =
    (Throw e, with_trace (λ t, t ++ Dispatch type :: map Invoke (l1 ++ [f])) s).
Proof.
  intros Hl Hl1 Hf. rewrite dispatchEvent_run, Hl.
  destruct (completion_app l1 (f :: l2) Hl1) as [-> ->].
  simpl. rewrite Hf. reflexivity.
Qed.

(** X7. [on] ignores a listener that is not a function: the state is
    left as it was. For the kind [__proto__] it registers nothing,
    whatever the listener. For every other kind it does not look for
    duplicates: registering one function twice records it twice, behind
    the listeners already there, so that a dispatch calls it twice. *)
Theorem on_registration (s : State) (type : string) :
  (∀ v, instanceofFunction v = None → on type v s = (Normal tt, s)) ∧
  (∀ v, on "__proto__" v s = (Normal tt, s)) ∧
  (∀ f, type ≠ "__proto__" →
        let s2 := after (on type (JFun f)) (after (on type (JFun f)) s) in
        listeners s2 type = listeners s type ++ [f; f] ∧
        (listeners s type = [] → Host.call host f = Normal tt →
           dispatchEvent type s2 =
             (Normal tt,
              with_trace (λ t, t ++ [Dispatch type; Invoke f; Invoke f]) s2))).
Proof.
  split_and!.
  - intros v Hv. unfold on. rewrite Hv. reflexivity.
  - intros v. apply on_proto_run.
  - intros f Hk s2.
    assert (Hl : listeners s2 type = listeners s type ++ [f; f]).
    { unfold s2.
      destruct (listeners_on type f (after (on type (JFun f)) s) Hk) as [-> _].
      destruct (listeners_on type f s Hk) as [-> _].
      rewrite <- app_assoc. reflexivity. }
    split; [exact Hl|].
    intros Hnone Hf. rewrite dispatchEvent_run, Hl, Hnone. simpl.
    rewrite Hf. reflexivity.
Qed.

(** *** Fullscreen *)

(** X8. When the media element has the function named [requestFn],
    [requestFullscreen] calls it on the container first. If that call
    throws, [requestFullscreen] throws the same error with the player
    and the document as they were. If it returns, [isFullScreen] is
    true, the container (when it is in the document) carries the class
    that displays the button, no provider method has been called and
    exactly one event, enterfullscreen, has been dispatched. *)
Theorem requestFullscreen_available (s : State) :
  let fn := requestFn (V.supportFullScreen (vlitejs s)) in
  let c := P.container (P.elements (player s)) in
  fn ∈ media_props (document s) →
  (∀ e, Host.hostCall host "container" fn = Throw e →
     requestFullscreen s =
       (Throw e, with_trace (λ t, t ++ [HostCall "container" fn]) s)) ∧
  (Host.hostCall host "container" fn = Normal tt →
     P.isFullScreen (player (after requestFullscreen s)) = true ∧
     (is_Some (nodes (document s) !! c) →
        "v-fullscreenButton-display"
          ∈ classList (elem (document (after requestFullscreen s)) c)) ∧
     ∃ Δ, trace (after requestFullscreen s) = trace s ++ Δ ∧
          calls Δ = [] ∧ dispatches Δ = ["enterfullscreen"]).
Proof.
  intros fn c Hin. unfold after, requestFullscreen. simulate. fold fn.
  rewrite bool_decide_eq_true_2 by exact Hin. simulate. fold fn. split.
  - intros e He. rewrite He. reflexivity.
  - intros Hr. rewrite Hr. simulate. fold c.
    destruct (P.fullscreen (P.elements (player s))) as [n|]; simulate.
    + split_and!; [reflexivity| |].
      * intros Hc.
        apply (elem_update_keeps (λ e, "v-fullscreenButton-display" ∈ classList e));
          [intros e He; simpl; set_solver|].
        rewrite elem_update_eq by exact Hc. simpl. set_solver.
      * eexists. split; [rewrite <- !app_assoc; reflexivity|].
        simpl. rewrite calls_invokes, dispatches_invokes. auto.
    + split_and!; [reflexivity| |].
      * intros Hc. rewrite elem_update_eq by exact Hc. simpl. set_solver.
      * eexists. split; [rewrite <- !app_assoc; reflexivity|].
        simpl. rewrite calls_invokes, dispatches_invokes. auto.
Qed.

Lemma classList_remove_gone n c d :
  c ∉ classList (elem (update n (classList_remove c) d) n).
Proof.
  destruct (elem_update_same n (classList_remove c) d) as [-> | ->];
    simpl; set_solver.
Qed.

(** X9. [exitFullscreen]. When the document has no function named
    [cancelFn] it returns with the state as it was, so [isFullScreen]
    stays as it is. When the document has one: with [escKey] the
    function is not called, and still [isFullScreen] becomes false, the
    container loses the class that displays the button and
    exitfullscreen is dispatched; without [escKey] the function is
    called first, and if it throws, [exitFullscreen] throws the same
    error with [isFullScreen] and the document as they were. *)
Theorem exitFullscreen_effect (s : State) :
  let fn := cancelFn (V.supportFullScreen (vlitejs s)) in
  let c := P.container (P.elements (player s)) in
  (fn ∉ document_props (document s) →
     ∀ escKey, exitFullscreen escKey s = (Normal tt, s)) ∧
  (fn ∈ document_props (document s) →
     (P.isFullScreen (player (after (exitFullscreen true) s)) = false ∧
      ("v-fullscreenButton-display"
         ∉ classList (elem (document (after (exitFullscreen true) s)) c)) ∧
      trace (after (exitFullscreen true) s) =
        trace s ++ Dispatch "exitfullscreen"
          :: map Invoke (invoked (listeners s "exitfullscreen"))) ∧
     (∀ e, Host.hostCall host "document" fn = Throw e →
        exitFullscreen false s =
          (Throw e, with_trace (λ t, t ++ [HostCall "document" fn]) s)) ∧
     (Host.hostCall host "document" fn = Normal tt →
        P.isFullScreen (player (after (exitFullscreen false) s)) = false ∧
        ("v-fullscreenButton-display"
           ∉ classList (elem (document (after (exitFullscreen false) s)) c)) ∧
        trace (after (exitFullscreen false) s) =
          trace s ++ HostCall "document" fn :: Dispatch "exitfullscreen"
            :: map Invoke (invoked (listeners s "exitfullscreen")))).
Proof.
  intros fn c. split.
  - intros Hno escKey. unfold exitFullscreen. simulate. fold fn.
    rewrite bool_decide_eq_false_2 by exact Hno. reflexivity.
  - intros Hin. split; [|split].
    + unfold after, exitFullscreen. simulate. fold fn.
      rewrite bool_decide_eq_true_2 by exact Hin. simulate. fold c.
      destruct (P.fullscreen (P.elements (player s))) as [n|]; simulate.
      * split_and!; [reflexivity| |reflexivity].
        apply (elem_update_keeps (λ e, "v-fullscreenButton-display" ∉ classList e));
          [intros e He; simpl; set_solver|].
        apply classList_remove_gone.
      * split_and!; [reflexivity| |reflexivity].
        apply classList_remove_gone.
    + intros e He. unfold exitFullscreen. simulate. fold fn.
      rewrite bool_decide_eq_true_2 by exact Hin. simulate. fold fn.
      rewrite He. reflexivity.
    + intros Hr. unfold after, exitFullscreen. simulate. fold fn.
      rewrite bool_decide_eq_true_2 by exact Hin. simulate. fold fn.
      rewrite Hr. simulate. fold c.
      destruct (P.fullscreen (P.elements (player s))) as [n|]; simulate.
      * split_and!; [reflexivity| |rewrite <- app_assoc; reflexivity].
        apply (elem_update_keeps (λ e, "v-fullscreenButton-display" ∉ classList e));
          [intros e He; simpl; set_solver|].
        apply classList_remove_gone.
      * split_and!; [reflexivity| |rewrite <- app_assoc; reflexivity].
        apply classList_remove_gone.
Qed.

(** *** destroy *)

Lemma pause_player_frame (f : P.t → Prop) :
  (∀ p x, f p → f (P.set_isPaused x p)) →
  preserves (λ s, f (player s)) pause.
Proof.
  intros Hf. preserve ltac:(intros; first [assumption | project; apply Hf; assumption]).
Qed.

Lemma pause_elements s : P.elements (player (after pause s)) = P.elements (player s).
Proof.
  apply (pause_player_frame (λ p, P.elements p = P.elements (player s))); auto.
Qed.

Lemma pause_customEvents s :
  P.customEvents (player (after pause s)) = P.customEvents (player s).
Proof.
  apply (pause_player_frame (λ p, P.customEvents p = P.customEvents (player s))); auto.
Qed.

Lemma lookup_foldl_delete {A} (l : list string) (m : gmap string A) k :
  foldl (λ m k, delete k m) m l !! k = if decide (k ∈ l) then None else m !! k.
Proof.
  revert m. induction l as [|x l IH]; intros m; simpl.
  - destruct (decide (k ∈ [])) as [H|_]; [|reflexivity].
    apply elem_of_nil in H. destruct H.
  - rewrite IH. destruct (decide (k = x)) as [->|Hne].
    + rewrite lookup_delete_eq.
      destruct (decide (x ∈ l)), (decide (x ∈ x :: l)); try reflexivity; set_solver.
    + rewrite lookup_delete_ne by done.
      destruct (decide (k ∈ l)), (decide (k ∈ x :: l)); try reflexivity; set_solver.
Qed.

Lemma foldl_delete_keys {A} (m : gmap string A) :
  foldl (λ m k, delete k m) m (elements (dom m)) = ∅.
Proof.
  apply map_eq. intros k. rewrite lookup_foldl_delete, lookup_empty.
  destruct (decide (k ∈ elements (dom m))) as [|Hno]; [reflexivity|].
  apply not_elem_of_dom. intros Hin. apply Hno, elem_of_elements, Hin.
Qed.

(** The loop of [destroy] over the kinds. *)
Lemma forEach_delete_run l s :
  forEach l (λ type,
    assign (λ p, P.set_customEvents (delete type (P.customEvents p)) p)) s =
  (Normal tt,
   with_player
     (λ p, P.set_customEvents (foldl (λ m k, delete k m) (P.customEvents p) l) p) s).
Proof.
  revert s. induction l as [|x l IH]; intros s; simpl.
  - destruct s as [v [] d t j c ti nt u]. reflexivity.
  - rewrite bind_run, assign_run. cbn beta iota. rewrite IH. reflexivity.
Qed.

Lemma removeEvents_shape s :
  ∃ t, removeEvents s = (Normal tt, with_trace (λ t0, t0 ++ t) s).
Proof.
  unfold removeEvents. explore; eexists; f_equal;
    apply state_eq; simpl; rewrite <- ?app_assoc; auto using app_nil_r.
Qed.

(** X10. [destroy] starts with [pause]. If [pause] throws (the provider
    throws from [methodPause], or a listener of pause throws),
    [destroy] throws the same error at that point and does nothing
    more: the state is the one [pause] left, with the listeners still
    registered. If [pause] returns,
    [destroy] returns, no listener of any kind is left, so that a later
    dispatch calls nothing, and the last thing done is the removal of
    the container from the page. *)
Theorem destroy_effect (s : State) :
  (∀ e, outcome pause s = Throw e →
     destroy s = (Throw e, after pause s) ∧
     P.customEvents (player (after destroy s)) = P.customEvents (player s)) ∧
  (outcome pause s = Normal tt →
     outcome destroy s = Normal tt ∧
     P.customEvents (player (after destroy s)) = ∅ ∧
     last (trace (after destroy s)) =
       Some (Remove (P.container (P.elements (player s)))) ∧
     ∀ type, dispatchEvent type (after destroy s) =
               (Normal tt, with_trace (λ t, t ++ [Dispatch type]) (after destroy s))).
Proof.
  split.
  - intros e He.
    assert (E : destroy s = (Throw e, after pause s)).
    { unfold destroy, outcome, after in *. rewrite bind_run.
      destruct (pause s) as [[[]|e'] s1]; simpl in *; congruence. }
    split; [exact E|]. unfold after at 1. rewrite E. apply pause_customEvents.
  - intros Hn.
    assert (E : ∃ t, destroy s =
      (Normal tt,
       with_trace (λ _, t ++ [Remove (P.container (P.elements (player s)))])
         (with_player (P.set_customEvents ∅) (after pause s)))).
    { pose proof (pause_elements s) as Hel.
      unfold destroy, outcome, after in *. rewrite bind_run.
      destruct (pause s) as [[[]|e'] s1]; simpl in *; [|discriminate].
      rewrite bind_run, option__run. cbn beta iota.
      assert (Hr : ∃ tR, when (truthy (prop (V.options (vlitejs s1)) "controls"))
                           removeEvents s1 =
                         (Normal tt, with_trace (λ t, t ++ tR) s1)).
      { destruct (truthy _); [apply removeEvents_shape|].
        exists []. rewrite when_false. f_equal.
        apply state_eq; simpl; auto using app_nil_r. }
      destruct Hr as (tR & Hr). rewrite bind_run, Hr. cbn beta iota.
      rewrite bind_run, get_run. cbn beta iota.
      rewrite bind_run, forEach_delete_run. cbn beta iota.
      rewrite bind_run, get_run. cbn beta iota. rewrite log_run.
      exists (trace s1 ++ tR). f_equal. apply state_eq; simpl; auto.
      - unfold P.set_customEvents. simpl. rewrite foldl_delete_keys. reflexivity.
      - rewrite Hel. reflexivity. }
    destruct E as (t & E).
    assert (Ho : outcome destroy s = Normal tt) by (unfold outcome; rewrite E; reflexivity).
    assert (Ha : after destroy s =
                 with_trace (λ _, t ++ [Remove (P.container (P.elements (player s)))])
                   (with_player (P.set_customEvents ∅) (after pause s)))
      by (unfold after at 1; rewrite E; reflexivity).
    rewrite Ha. project.
    split_and!; [exact Ho|reflexivity|apply last_snoc|].
    intros type. rewrite dispatchEvent_run. unfold listeners. project.
    rewrite lookup_empty. reflexivity.
Qed.

(** *** The controls of the control bar *)

Lemma querySelector_Some d n c m :
  querySelector d n c = Some m →
  m ∈ default [] (descendants d !! n) ∧ c ∈ classList (elem d m).
Proof.
  unfold querySelector. intros H. apply head_Some_elem_of in H.
  apply list_elem_of_filter in H as [H1 H2]. auto.
Qed.

Lemma classList_elem_update n f d m :
  (∀ e, classList (f e) = classList e) →
  classList (elem (update n f d) m) = classList (elem d m).
Proof.
  intros Hf. destruct (elem_update_cases n f d m) as [-> | ->]; auto.
Qed.

Lemma querySelector_update n f d m c :
  (∀ e, classList (f e) = classList e) →
  querySelector (update n f d) m c = querySelector d m c.
Proof.
  intros Hf. unfold querySelector. simpl. f_equal.
  apply list_filter_iff. intros x.
  change (c ∈ classList (elem (update n f d) x) ↔ c ∈ classList (elem d x)).
  rewrite classList_elem_update by exact Hf. reflexivity.
Qed.

Lemma update_update_idem n f d :
  (∀ e, f (f e) = f e) → update n f (update n f d) = update n f d.
Proof.
  intros Hf. unfold update. simpl. f_equal.
  apply map_eq. intros k. rewrite !lookup_alter.
  destruct (decide (n = k)) as [->|]; [|reflexivity].
  destruct (decide (k = k)); [|congruence].
  destruct (nodes d !! k); simpl; [|reflexivity]. f_equal. apply Hf.
Qed.

Lemma setAttribute_idem k v e : setAttribute k v (setAttribute k v e) = setAttribute k v e.
Proof. unfold setAttribute. simpl. rewrite insert_insert_eq. reflexivity. Qed.

Ltac fields :=
  cbn [P.container P.bigPlay P.poster P.controlBar P.playPause P.progressBar
       P.currentTime P.duration P.volume P.fullscreen].

(** X11. [cacheElements] returns; it leaves the container, the big play
    button and the poster references as they were and binds the control
    bar to the first element of class v-controlBar below the container.
    Without such an element the other control references are left as
    they were, not cleared. With one, the volume button it binds is a
    descendant of the control bar carrying the class v-volumeButton,
    and its label is Unmute when [isMuted] is truthy and Mute
    otherwise. Calling it a second time changes nothing. *)
Theorem cacheElements_effect (s : State) :
  let el := P.elements (player s) in
  let s' := after cacheElements s in
  let el' := P.elements (player s') in
  outcome cacheElements s = Normal tt ∧
  P.container el' = P.container el ∧ P.bigPlay el' = P.bigPlay el ∧
  P.poster el' = P.poster el ∧
  P.controlBar el' = querySelector (document s) (P.container el) "v-controlBar" ∧
  (P.controlBar el' = None →
     P.playPause el' = P.playPause el ∧ P.progressBar el' = P.progressBar el ∧
     P.currentTime el' = P.currentTime el ∧ P.duration el' = P.duration el ∧
     P.volume el' = P.volume el ∧ P.fullscreen el' = P.fullscreen el ∧
     document s' = document s) ∧
  (∀ cb n, P.controlBar el' = Some cb → P.volume el' = Some n →
     n ∈ default [] (descendants (document s) !! cb) ∧
     "v-volumeButton" ∈ classList (elem (document s') n) ∧
     attributes (elem (document s') n) !! "aria-label" =
       Some (if truthy (P.isMuted (player s)) then "Unmute" else "Mute")) ∧
  cacheElements s' = (Normal tt, s').
Proof.
  intros el s' el'. subst el' s'. unfold outcome, after.
  destruct (querySelector (document s) (P.container el) "v-controlBar") as [cb|] eqn:Hcb.
  - destruct (querySelector (document s) cb "v-volumeButton") as [n|] eqn:Hv.
    + set (label := if truthy (P.isMuted (player s)) then "Unmute" else "Mute").
      assert (Hkeep : ∀ e, classList (setAttribute "aria-label" label e) = classList e)
        by reflexivity.
      set (s1 := with_document (update n (setAttribute "aria-label" label))
        (with_player (P.set_elements
          {| P.container := P.container el; P.bigPlay := P.bigPlay el;
             P.poster := P.poster el; P.controlBar := Some cb;
             P.playPause := querySelector (document s) cb "v-playPauseButton";
             P.progressBar := querySelector (document s) cb "v-progressBar";
             P.currentTime := querySelector (document s) cb "v-currentTime";
             P.duration := querySelector (document s) cb "v-duration";
             P.volume := Some n;
             P.fullscreen := querySelector (document s) cb "v-fullscreenButton" |}) s)).
      assert (E : cacheElements s = (Normal tt, s1)).
      { unfold cacheElements. rewrite bind_run, get_run. cbn beta iota zeta.
        fold el. rewrite Hcb. cbn beta iota zeta. rewrite Hv. reflexivity. }
      assert (E1 : cacheElements s1 = (Normal tt, s1)).
      { unfold cacheElements. rewrite bind_run, get_run. cbn beta iota zeta.
        unfold s1. project. fields.
        rewrite !querySelector_update by exact Hkeep.
        fold el. rewrite Hcb. cbn beta iota zeta.
        rewrite !querySelector_update by exact Hkeep. rewrite Hv.
        rewrite bind_run, assign_run. cbn beta iota.
        rewrite ifNode_Some, dom_update_run. fold label.
        f_equal. apply state_eq; simpl; auto.
        apply update_update_idem; intros e; apply setAttribute_idem. }
      rewrite E. cbn [fst snd]. rewrite E1. unfold s1. project. fields.
      split_and!; try reflexivity; try discriminate.
      intros cb' n' [= <-] [= <-].
      destruct (querySelector_Some _ _ _ _ Hv) as [Hd Hc].
      split_and!; [exact Hd| |].
      * rewrite classList_elem_update by exact Hkeep. exact Hc.
      * rewrite elem_update_eq by (eapply member_classList, Hc).
        simpl. apply lookup_insert_eq.
    + set (s1 := with_player (P.set_elements
          {| P.container := P.container el; P.bigPlay := P.bigPlay el;
             P.poster := P.poster el; P.controlBar := Some cb;
             P.playPause := querySelector (document s) cb "v-playPauseButton";
             P.progressBar := querySelector (document s) cb "v-progressBar";
             P.currentTime := querySelector (document s) cb "v-currentTime";
             P.duration := querySelector (document s) cb "v-duration";
             P.volume := None;
             P.fullscreen := querySelector (document s) cb "v-fullscreenButton" |}) s).
      assert (E : cacheElements s = (Normal tt, s1)).
      { unfold cacheElements. rewrite bind_run, get_run. cbn beta iota zeta.
        fold el. rewrite Hcb. cbn beta iota zeta. rewrite Hv. reflexivity. }
      assert (E1 : cacheElements s1 = (Normal tt, s1)).
      { unfold cacheElements. rewrite bind_run, get_run. cbn beta iota zeta.
        unfold s1. project. fields.
        fold el. rewrite Hcb. cbn beta iota zeta. rewrite Hv. reflexivity. }
      rewrite E. cbn [fst snd]. rewrite E1. unfold s1. project. fields.
      split_and!; try reflexivity; discriminate.
  - set (s1 := with_player (P.set_elements
        {| P.container := P.container el; P.bigPlay := P.bigPlay el;
           P.poster := P.poster el; P.controlBar := None;
           P.playPause := P.playPause el; P.progressBar := P.progressBar el;
           P.currentTime := P.currentTime el; P.duration := P.duration el;
           P.volume := P.volume el; P.fullscreen := P.fullscreen el |}) s).
    assert (E : cacheElements s = (Normal tt, s1)).
    { unfold cacheElements. rewrite bind_run, get_run. cbn beta iota zeta.
      fold el. rewrite Hcb. reflexivity. }
    assert (E1 : cacheElements s1 = (Normal tt, s1)).
    { unfold cacheElements. rewrite bind_run, get_run. cbn beta iota zeta.
      unfold s1. project. fields.
      fold el. rewrite Hcb. reflexivity. }
    rewrite E. cbn [fst snd]. rewrite E1. unfold s1. project. fields.
    split_and!; try reflexivity; try discriminate.
    intros _. split_and!; reflexivity.
Qed.

(** *** onPlayerReady *)

Lemma play_prefix t0 : preserves (λ s, t0 `prefix_of` trace s) play.
Proof. preserve prefix_side. Qed.

Lemma mute_rest_prefix t0 :
  preserves (λ s, t0 `prefix_of` trace s)
    (assign (P.set_isMuted (JBool true));;
     ifElement P.volume (λ n, dom_update n (classList_add "v-pressed"));;
     dispatchEvent "volumechange").
Proof. preserve prefix_side. Qed.

Lemma ready_tail_prefix t0 :
  preserves (λ s, t0 `prefix_of` trace s)
    (loading false;;
     controls ← option_ "controls";
     when (truthy controls) ControlBar_onPlayerReady;;
     s ← get;
     match instanceofFunction (V.onReady (vlitejs s)) with
     | Some f => callFunction f
     | None => mret tt
     end).
Proof. preserve prefix_side. Qed.

Lemma mute_trace s :
  (trace s ++ [Call m_methodMute]) `prefix_of` trace (after mute s).
Proof.
  unfold after, mute. rewrite bind_run, methodMute_run.
  destruct (Provider.methodMute provider) as [[]|e]; simpl; [|reflexivity].
  apply (mute_rest_prefix _ (with_trace _ s)). reflexivity.
Qed.

(** X12. [onPlayerReady] and the autoplay option. With autoplay off the
    container is no longer loading afterwards and the provider is asked
    at most for the duration: neither [methodMute] nor [methodPlay] is
    called. With autoplay on and the media element not
    muted, the first thing that happens is the call of [methodMute],
    before any call of [methodPlay]; and if [methodMute] throws,
    [onPlayerReady] throws the same error with nothing else done, so
    that play is never attempted and the container stays loading. With
    autoplay on and the media element muted, the first thing that
    happens is the call of [methodPlay]. *)
Theorem onPlayerReady_autoplay (s : State) :
  (truthy (prop (V.options (vlitejs s)) "autoplay") = false →
     ("v-loading" ∉ classList (elem (document (after onPlayerReady s))
                                 (V.container (vlitejs s)))) ∧
     ∃ Δ, trace (after onPlayerReady s) = trace s ++ Δ ∧
          (calls Δ = [] ∨ calls Δ = [m_getDuration])) ∧
  (truthy (prop (V.options (vlitejs s)) "autoplay") = true →
     (media_muted (document s) = false →
        (trace s ++ [Call m_methodMute]) `prefix_of` trace (after onPlayerReady s) ∧
        ∀ e, Provider.methodMute provider = Throw e →
             onPlayerReady s =
               (Throw e, with_trace (λ t, t ++ [Call m_methodMute]) s)) ∧
     (media_muted (document s) = true →
        (trace s ++ [Call m_methodPlay]) `prefix_of` trace (after onPlayerReady s))).
Proof.
  split.
  - intros Hauto. unfold after, onPlayerReady, loading, Vlitejs_loading,
      ControlBar_onPlayerReady, then_.
    simulate. rewrite Hauto. simulate.
    destruct (completion (listeners _ "progress"));
      simulate;
      [|split; [apply classList_remove_gone|];
        eexists; split; [reflexivity|]; simpl; rewrite calls_invokes; auto].
    destruct (truthy (prop (V.options (vlitejs s)) "controls")); simulate.
    + destruct (Provider.getDuration provider) as [[x|e|]|e]; simulate;
        destruct (instanceofFunction (V.onReady (vlitejs s))); simulate;
        rewrite ?callFunction_run; project;
        (split; [apply classList_remove_gone|]);
        (eexists; split; [rewrite <- ?app_assoc; reflexivity|]);
        simpl; rewrite ?calls_app, calls_invokes; simpl; auto.
    + destruct (instanceofFunction (V.onReady (vlitejs s))); simulate;
        rewrite ?callFunction_run; project;
        (split; [apply classList_remove_gone|]);
        (eexists; split; [rewrite <- ?app_assoc; reflexivity|]);
        simpl; rewrite ?calls_app, calls_invokes; simpl; auto.
  - intros Hauto. split.
    + intros Hm. split.
      * unfold onPlayerReady. rewrite after_bind. simpl. rewrite Hauto. simpl.
        rewrite after_bind.
        set (auto := (s ← get; when (negb (media_muted (document s))) mute;; play)).
        assert (Hp : (trace s ++ [Call m_methodMute])
                       `prefix_of` trace (after auto (after (option_ "autoplay") s))).
        { unfold auto. rewrite after_bind. simpl. rewrite after_bind.
          change (after (option_ "autoplay") s) with s.
          change (after get s) with s. rewrite Hm. simpl.
          destruct (outcome mute s); [apply play_prefix|]; apply mute_trace. }
        destruct (outcome auto _); [|exact Hp].
        apply ready_tail_prefix. exact Hp.
      * intros e He. unfold onPlayerReady, mute. simulate. rewrite Hauto.
        simulate. rewrite Hm. simulate. rewrite He. reflexivity.
    + intros Hm. unfold onPlayerReady. rewrite after_bind. simpl. rewrite Hauto. simpl.
      rewrite after_bind.
      set (auto := (s ← get; when (negb (media_muted (document s))) mute;; play)).
      assert (Hp : (trace s ++ [Call m_methodPlay])
                     `prefix_of` trace (after auto (after (option_ "autoplay") s))).
      { unfold auto. rewrite after_bind. simpl. rewrite after_bind.
        change (after (option_ "autoplay") s) with s.
        change (after get s) with s. rewrite Hm. simpl.
        apply play_trace. }
      destruct (outcome auto _); [|exact Hp].
      apply ready_tail_prefix. exact Hp.
Qed.

(** *** The timer that hides the control bar *)

Lemma startAutoHideTimer_paused s :
  V.isPaused (vlitejs s) = true → startAutoHideTimer s = (Normal tt, s).
Proof.
  intros H. unfold startAutoHideTimer. simulate. rewrite H, andb_false_r.
  reflexivity.
Qed.

Lemma startAutoHideTimer_idle s0 : preserves (timer_idle s0) startAutoHideTimer.
Proof.
  intros s H. unfold after. rewrite startAutoHideTimer_paused; [exact H|apply H].
Qed.

Ltac idle_side :=
  intros;
  match goal with
  | H : timer_idle _ _ |- _ =>
      destruct H as (? & ? & Htrace); split_and!; simpl;
      [ assumption
      | first [assumption | etrans; [apply delete_subseteq|assumption]]
      | first
          [ assumption
          | let Hin := fresh in
            intros ? ? Hin; apply elem_of_app in Hin as [Hin|Hin];
            [apply Htrace, Hin|apply list_elem_of_singleton in Hin; discriminate] ] ]
  end.

(** [preserve], stopping at [startAutoHideTimer]. *)
Ltac preserve_idle :=
  repeat
    lazymatch goal with
    | |- preserves _ startAutoHideTimer => apply startAutoHideTimer_idle
    | |- preserves _ (mret _) => apply preserves_mret
    | |- preserves _ get => apply preserves_get
    | |- preserves _ (lift _) => apply preserves_lift
    | |- preserves _ (_ ≫= _) => apply preserves_bind; [|intros ?]
    | |- preserves _ (when _ _) => apply preserves_when
    | |- preserves _ (ifNode _ _) => apply preserves_ifNode; intros ?
    | |- preserves _ (forEach _ _) => apply preserves_forEach; intros ?
    | |- preserves _ (log _) => apply preserves_log; idle_side
    | |- preserves _ (dom_update _ _) => apply preserves_dom_update; idle_side
    | |- preserves _ (assign _) => apply preserves_assign; idle_side
    | |- preserves _ (modify _) => apply preserves_modify; idle_side
    | |- preserves _ (new_Promise _) =>
        apply preserves_new_Promise_framed; [idle_side|idle_side|intros ?]
    | |- preserves _ (runJob _) =>
        apply preserves_runJob; [idle_side|intros ?; idle_side|intros ? ? _ _]
    | |- preserves _ (match ?x with _ => _ end) => destruct x
    | |- preserves _ ?m => let h := head_of m in progress unfold h
    end.

Lemma exec_idle s0 o : preserves (timer_idle s0) (exec o).
Proof. destruct o; simpl; preserve_idle. Qed.

Lemma run_idle s0 os s : timer_idle s0 s → timer_idle s0 (run os s).
Proof.
  revert s. induction os as [|o os IH]; intros s H; simpl; [exact H|].
  apply IH, exec_idle, H.
Qed.

(** X13. No operation of the player, of the control bar or of the host
    shell assigns the [isPaused] field of the [Vlitejs] instance, and
    [startAutoHideTimer] starts a timer only when that field is false.
    So as long as the field holds true, the value the constructor gives
    it, the timer that hides the control bar is never started, whatever
    is played or paused: after any sequence of operations the field is
    still true, no timer is waiting that was not waiting before, no
    [setTimeout] has been issued, and a mouse move does nothing. *)
Theorem autoHide_never_starts (s : State) (os : list Op) :
  V.isPaused (vlitejs s) = true →
  V.isPaused (vlitejs (run os s)) = true ∧
  timers (run os s) ⊆ timers s ∧
  (∀ h d, SetTimeout h d ∈ trace (run os s) → SetTimeout h d ∈ trace s) ∧
  onMousemove (run os s) = (Normal tt, run os s).
Proof.
  intros H.
  assert (Hi : timer_idle s (run os s)) by (apply run_idle; split_and!; auto).
  destruct Hi as (H1 & H2 & H3). split_and!; auto.
  unfold onMousemove. simulate. rewrite H1. reflexivity.
Qed.

(** *** The volume keys *)

Lemma setVolume_calls v s :
  ∃ Δ, trace (after (setVolume v) s) = trace s ++ Δ ∧
       calls Δ = [m_methodSetVolume (clamped v)].
Proof.
  unfold after, setVolume, clamped.
  destruct (1 <? v)%float; [|destruct (v <=? 0)%float]; simulate;
    try (destruct (P.volume (P.elements (player s))); simulate);
    match goal with
    | |- context [Provider.methodSetVolume provider ?w] =>
        destruct (Provider.methodSetVolume provider w) as [[]|e]
    end; simulate;
    (eexists; split; [rewrite <- ?app_assoc; reflexivity|]);
    simpl; rewrite ?calls_invokes; reflexivity.
Qed.

Lemma volumeKey_fulfilled_run r s x :
  Provider.methodGetVolume provider = Normal (Fulfilled x) →
  let c := fresh (dom (cells s)) in
  volumeKey r s =
  (Normal tt,
   with_cells (<[c := CellPending [r]]>)
     (with_jobs (λ q, q ++ [JobResolve c x])
        (with_trace (λ t, t ++ [Call m_methodGetVolume])
           (with_cells (<[c := CellPending []]>) s)))).
Proof.
  intros Hx c.
  destruct r; unfold volumeKey, increaseVolume, decreaseVolume, getVolume, new_Promise;
    rewrite bind_run, bind_run, methodGetVolume_run, Hx; fold c;
    unfold then_, cell_then; simulate; rewrite lookup_insert_eq; reflexivity.
Qed.

(** X14. A volume key, the provider's volume query fulfilling with [x].
    The handler itself only asks the provider for the volume. Once the
    two callbacks it has queued have run (the one that resolves the
    promise of [getVolume], then the one attached to that promise), the
    provider has been called exactly twice over the whole: for the
    volume, then [methodSetVolume] with [x + 0.05] for the up key and
    [x - 0.05] for the down key, brought into the range from 0 to 1 by
    [setVolume]. *)
Theorem volumeKey_fulfilled (s : State) (r : Reaction) (x : float) :
  Provider.methodGetVolume provider = Normal (Fulfilled x) →
  let n := length (jobs s) in
  let s1 := after (volumeKey r) s in
  let s2 := run [op_runJob n; op_runJob n] s1 in
  trace s1 = trace s ++ [Call m_methodGetVolume] ∧
  ∃ Δ, trace s2 = trace s ++ Δ ∧
       calls Δ = [m_methodGetVolume; m_methodSetVolume (clamped (keyTarget r x))].
Proof.
  intros Hx n s1 s2.
  assert (E1 : s1 = with_cells (<[fresh (dom (cells s)) := CellPending [r]]>)
     (with_jobs (λ q, q ++ [JobResolve (fresh (dom (cells s))) x])
        (with_trace (λ t, t ++ [Call m_methodGetVolume])
           (with_cells (<[fresh (dom (cells s)) := CellPending []]>) s)))).
  { unfold s1, after. rewrite (volumeKey_fulfilled_run r s x Hx). reflexivity. }
  clearbody s1. subst s1. split; [reflexivity|].
  set (c := fresh (dom (cells s))) in *.
  subst s2. simpl. unfold after at 2, runJob at 2. project.
  rewrite list_lookup_middle by reflexivity.
  unfold callback at 1, resolve. simulate. rewrite lookup_insert_eq. simulate.
  cbn [snd]. unfold after, runJob. project. unfold n.
  rewrite delete_middle, app_nil_r. simpl map.
  rewrite list_lookup_middle by reflexivity.
  unfold callback.
  replace (match r with
           | ThenIncrease => setVolume (x + step)
           | ThenDecrease => setVolume (x - step)
           end) with (setVolume (keyTarget r x)) by (destruct r; reflexivity).
  match goal with
  | |- context [setVolume _ ?sX] =>
      destruct (setVolume_calls (keyTarget r x) sX) as (Δ & E & Hc);
      unfold after in E; destruct (setVolume _ sX) as [[[]|e] s']
  end; simpl in *; exists (Call m_methodGetVolume :: Δ);
    (split; [rewrite E, <- app_assoc; reflexivity|]);
    change (calls (Call m_methodGetVolume :: Δ)) with (m_methodGetVolume :: calls Δ);
    rewrite Hc; reflexivity.
Qed.

(** *** onTimeUpdate, the queries fulfilling *)

(** X15. [onTimeUpdate]. With the time option off it does nothing: the
    provider is not even asked. With the option on and both queries
    fulfilling, with [x] seconds and a duration [y], the call itself
    only asks the provider, for the current time then for the duration,
    and queues its callback: the document is not touched before the
    callback runs. The callback, whenever it runs, gives an existing
    progress bar the style property --value, which is
    [Math.round(x) * 100 / y] (with no guard on [y]) followed by a
    percent sign, and the attribute aria-valuenow, which is
    [Math.round(x)], and dispatches timeupdate. *)
Theorem onTimeUpdate_flow (s : State) :
  (truthy (prop (V.options (vlitejs s)) "time") = false →
     onTimeUpdate s = (Normal tt, s)) ∧
  (∀ x y, truthy (prop (V.options (vlitejs s)) "time") = true →
     Provider.getCurrentTime provider = Normal (Fulfilled x) →
     Provider.getDuration provider = Normal (Fulfilled y) →
     onTimeUpdate s =
       (Normal tt,
        with_jobs (λ q, q ++ [JobTimeUpdate x y])
          (with_trace (λ t, (t ++ [Call m_getCurrentTime]) ++ [Call m_getDuration]) s))) ∧
  (∀ x y n, P.progressBar (P.elements (player s)) = Some n →
     is_Some (nodes (document s) !! n) →
     let s' := after (onTimeUpdate_callback x y) s in
     let width := Host.toString host (Host.Math_round host x * 100 / y)%float in
     style (elem (document s') n) !! "--value" = Some (width +:+ "%") ∧
     attributes (elem (document s') n) !! "aria-valuenow" =
       Some (Host.toString host (Host.Math_round host x)) ∧
     trace s' = trace s ++ Dispatch "timeupdate"
                  :: map Invoke (invoked (listeners s "timeupdate"))).
Proof.
  split_and!.
  - intros Hoff. unfold onTimeUpdate. simulate. rewrite Hoff. reflexivity.
  - intros x y Hon Hx Hy. unfold onTimeUpdate, then_all. simulate.
    rewrite Hon. simulate. rewrite Hx. simulate. rewrite Hy. reflexivity.
  - intros x y n Hpb Hn s' width. subst s'. unfold after, onTimeUpdate_callback.
    simulate. rewrite Hpb. simulate. fold width.
    assert (Hbar : ∀ d, is_Some (nodes d !! n) →
      let e := elem (update n (setAttribute "aria-valuenow"
                                 (Host.toString host (Host.Math_round host x)))
                 (update n (style_setProperty "--value" (width +:+ "%"))
                    (update n (set_value width) d))) n in
      style e !! "--value" = Some (width +:+ "%") ∧
      attributes e !! "aria-valuenow" =
        Some (Host.toString host (Host.Math_round host x))).
    { intros d Hd e. subst e.
      rewrite elem_update_eq by (rewrite !member_update; exact Hd).
      rewrite elem_update_eq by (rewrite !member_update; exact Hd).
      rewrite elem_update_eq by exact Hd. simpl.
      rewrite !lookup_insert_eq. auto. }
    destruct (P.currentTime (P.elements (player s))) as [m|]; simulate.
    + destruct (Hbar (document s) Hn) as (H2 & H3).
      split_and!; [| |reflexivity].
      * apply (elem_update_keeps (λ e, style e !! "--value" = Some (width +:+ "%")));
          [intros e He; exact He|exact H2].
      * apply (elem_update_keeps
                 (λ e, attributes e !! "aria-valuenow" =
                       Some (Host.toString host (Host.Math_round host x))));
          [intros e He; exact He|exact H3].
    + destruct (Hbar (document s) Hn) as (H2 & H3).
      split_and!; [exact H2|exact H3|reflexivity].
Qed.

(** *** The buttons of the control bar *)

(** The first block of [play], which takes the first-start class off the
    container and deactivates the poster, keeps at every node whatever
    the removal of a class does not touch. *)
Lemma play_first_block (Q : Element → Prop) c s :
  (∀ e, Q e → Q (classList_remove "v-firstStart" e)) →
  (∀ e, Q e → Q (classList_remove "v-active" e)) →
  Q (elem (document s) c) →
  ∃ s1,
    when (classList_contains "v-firstStart"
            (elem (document s) (P.container (P.elements (player s)))))
      (onContainer (classList_remove "v-firstStart");;
       video ← isVideo;
       when video
         (ifElement P.poster (λ n, dom_update n (classList_remove "v-active")))) s
    = (Normal tt, s1) ∧
    trace s1 = trace s ∧ player s1 = player s ∧ Q (elem (document s1) c).
Proof.
  intros HQ1 HQ2 H.
  explore;
    (eexists; split; [reflexivity|]; project;
     split; [reflexivity|split; [reflexivity|]]);
    repeat (apply (elem_update_keeps Q); [assumption|]); exact H.
Qed.

(** Once the provider has returned from [methodPlay], [play] leaves a
    container that was paused playing. *)
Lemma play_playing s :
  Provider.methodPlay provider = Normal tt →
  "v-paused" ∈ classList (elem (document s) (P.container (P.elements (player s)))) →
  "v-playing" ∈ classList (elem (document (after play s))
                             (P.container (P.elements (player s)))).
Proof.
  intros Hplay Hin. set (c := P.container (P.elements (player s))) in *.
  destruct (play_first_block (λ e, "v-paused" ∈ classList e) c s)
    as (s1 & Hrun & Ht & Hpl & Hq);
    [intros e He; simpl; set_solver|intros e He; simpl; set_solver|exact Hin|].
  unfold after, play. rewrite bind_run, get_run. cbn beta iota.
  rewrite bind_run, Hrun. cbn beta iota.
  rewrite bind_run, methodPlay_run, Hplay. cbn beta iota.
  rewrite bind_run, assign_run. cbn beta iota.
  rewrite bind_run, onContainer_run. cbn beta iota.
  apply (play_rest_keeps (λ e, "v-playing" ∈ classList e) c);
    [intros k v e H; exact H|intros e H; simpl; set_solver|].
  project. rewrite Hpl. fold c.
  rewrite elem_update_eq by (eapply member_classList, Hq).
  apply classList_replace_new, Hq.
Qed.

Lemma toggle_run (e : bool) s :
  ∃ t, when e preventDefault s = (Normal tt, with_trace (λ t0, t0 ++ t) s) ∧
       calls t = [] ∧ dispatches t = [].
Proof.
  destruct e; [exists [HostCall "event" "preventDefault"]|exists []];
    (split; [|auto]).
  - reflexivity.
  - rewrite when_false. f_equal.
    apply state_eq; simpl; auto using app_nil_r.
Qed.

(** X16. The play/pause button. [togglePlayPause] decides on the class
    of the container, not on [isPaused]: it calls [play] when the
    container carries v-paused and [pause] otherwise, in particular for
    a container that is neither paused nor playing. The provider
    returning, a paused container is playing afterwards with [isPaused]
    false, a container that is not paused is not playing afterwards with
    [isPaused] true, and in both cases the provider has been called
    exactly once. *)
Theorem togglePlayPause_flips (s : State) (e : bool) :
  let c := P.container (P.elements (player s)) in
  let s' := after (ControlBar_togglePlayPause e) s in
  ("v-paused" ∈ classList (elem (document s) c) →
     Provider.methodPlay provider = Normal tt →
     P.isPaused (player s') = Some false ∧
     "v-playing" ∈ classList (elem (document s') c) ∧
     ("v-paused" ∉ classList (elem (document s') c)) ∧
     ∃ Δ, trace s' = trace s ++ Δ ∧ calls Δ = [m_methodPlay] ∧
          dispatches Δ = ["play"]) ∧
  ("v-paused" ∉ classList (elem (document s) c) →
     Provider.methodPause provider = Normal tt →
     P.isPaused (player s') = Some true ∧
     ("v-playing" ∉ classList (elem (document s') c)) ∧
     ∃ Δ, trace s' = trace s ++ Δ ∧ calls Δ = [m_methodPause] ∧
          dispatches Δ = ["pause"]).
Proof.
  intros c s'. destruct (toggle_run e s) as (t & Hrun & Hc & Hd).
  set (s0 := with_trace (λ t0, t0 ++ t) s) in *.
  split.
  - intros Hin Hplay.
    assert (E : s' = after play s0).
    { unfold s', after, ControlBar_togglePlayPause.
      rewrite bind_run, Hrun. cbn beta iota. rewrite bind_run, get_run.
      cbn beta iota. change (document s0) with (document s).
      change (player s0) with (player s). fold c.
      unfold classList_contains. rewrite bool_decide_eq_true_2 by exact Hin.
      reflexivity. }
    rewrite E. split_and!.
    + apply play_isPaused, Hplay.
    + apply (play_playing s0 Hplay Hin).
    + apply (play_started s0 Hplay).
    + destruct (play_trace_delta s0 Hplay) as (Δ & E' & Hc' & Hd').
      exists (t ++ Δ). rewrite E'. unfold s0. simpl.
      rewrite <- app_assoc, calls_app, dispatches_app, Hc, Hd, Hc', Hd'. auto.
  - intros Hno Hpause.
    assert (E : s' = after pause s0).
    { unfold s', after, ControlBar_togglePlayPause.
      rewrite bind_run, Hrun. cbn beta iota. rewrite bind_run, get_run.
      cbn beta iota. change (document s0) with (document s).
      change (player s0) with (player s). fold c.
      unfold classList_contains. rewrite bool_decide_eq_false_2 by exact Hno.
      reflexivity. }
    rewrite E. split_and!.
    + apply pause_isPaused, Hpause.
    + apply (pause_not_playing s0 Hpause).
    + destruct (pause_trace s0 Hpause) as (Δ & E' & Hc' & Hd').
      exists (t ++ Δ). rewrite E'. unfold s0. simpl.
      rewrite <- app_assoc, calls_app, dispatches_app, Hc, Hd, Hc', Hd'. auto.
Qed.

(** X17. The volume button. Without a volume button in the control bar
    [toggleVolume] throws a [TypeError] once it has prevented the
    default action. With one, the provider and the listeners of
    volumechange returning, it flips the button: a pressed button is
    released and a released one pressed; afterwards [isMuted] is true
    exactly when the button is pressed, and the label of the button is
    Unmute when it is pressed and Mute when it is not. *)
Theorem toggleVolume_flips (s : State) :
  (P.volume (P.elements (player s)) = None →
     toggleVolume s =
       (Throw nullDereference,
        with_trace (λ t, t ++ [HostCall "event" "preventDefault"]) s)) ∧
  (∀ n, P.volume (P.elements (player s)) = Some n →
     is_Some (nodes (document s) !! n) →
     Provider.methodMute provider = Normal tt →
     Provider.methodUnMute provider = Normal tt →
     completion (listeners s "volumechange") = Normal tt →
     let s' := after toggleVolume s in
     let pressed := classList_contains "v-pressed" (elem (document s') n) in
     pressed = negb (classList_contains "v-pressed" (elem (document s) n)) ∧
     P.isMuted (player s') = JBool pressed ∧
     attributes (elem (document s') n) !! "aria-label" =
       Some (if pressed then "Unmute" else "Mute")).
Proof.
  split.
  - intros Hv. unfold toggleVolume, theElement, preventDefault. simulate.
    rewrite Hv. reflexivity.
  - intros n Hv Hn Hm Hu Hl s' pressed. subst pressed s'.
    unfold after, toggleVolume, theElement, preventDefault, mute, unMute.
    simulate. rewrite Hv. simulate.
    unfold listeners in Hl.
    destruct (classList_contains "v-pressed" (elem (document s) n)) eqn:Hp;
      simulate; rewrite ?Hm, ?Hu; simulate; rewrite Hv; simulate;
      unfold listeners; project; rewrite Hl; simulate; rewrite Hv; simulate;
      unfold classList_contains in *;
      rewrite !elem_update_eq by (rewrite ?member_update; exact Hn); simpl;
      rewrite lookup_insert_eq.
    + apply bool_decide_eq_true in Hp.
      rewrite bool_decide_eq_false_2 by set_solver. auto.
    + apply bool_decide_eq_false in Hp.
      rewrite bool_decide_eq_true_2 by set_solver. auto.
Qed.

(** X18. The fullscreen button rewrites its label whether or not the
    fullscreen state has changed. Outside fullscreen, when the media
    element has no function named [requestFn], [requestFullscreen] does
    nothing, and [toggleFullscreen] still sets the label to Exit
    fullscreen, with [isFullScreen] false. In fullscreen, when the
    document has no function named [cancelFn], [exitFullscreen] does
    nothing, and [toggleFullscreen] still sets the label to Enter
    fullscreen, with [isFullScreen] true. Nothing is dispatched in
    either case. *)
Theorem toggleFullscreen_label (s : State) (n : node) :
  P.fullscreen (P.elements (player s)) = Some n →
  is_Some (nodes (document s) !! n) →
  let s' := after toggleFullscreen s in
  (P.isFullScreen (player s) = false →
   requestFn (V.supportFullScreen (vlitejs s)) ∉ media_props (document s) →
     outcome toggleFullscreen s = Normal tt ∧
     P.isFullScreen (player s') = false ∧
     dispatches (trace s') = dispatches (trace s) ∧
     attributes (elem (document s') n) !! "aria-label" = Some "Exit fullscreen") ∧
  (P.isFullScreen (player s) = true →
   cancelFn (V.supportFullScreen (vlitejs s)) ∉ document_props (document s) →
     outcome toggleFullscreen s = Normal tt ∧
     P.isFullScreen (player s') = true ∧
     dispatches (trace s') = dispatches (trace s) ∧
     attributes (elem (document s') n) !! "aria-label" = Some "Enter fullscreen").
Proof.
  intros Hf Hn s'. subst s'. split.
  - intros Hfs Hno.
    unfold outcome, after, toggleFullscreen, theElement, preventDefault,
      requestFullscreen.
    simulate. rewrite Hfs. simulate.
    rewrite bool_decide_eq_false_2 by exact Hno. simulate. rewrite Hf. simulate.
    rewrite elem_update_eq by exact Hn. simpl. rewrite lookup_insert_eq.
    rewrite dispatches_app, app_nil_r. auto.
  - intros Hfs Hno.
    unfold outcome, after, toggleFullscreen, theElement, preventDefault,
      exitFullscreen.
    simulate. rewrite Hfs. simulate.
    rewrite bool_decide_eq_false_2 by exact Hno. simulate. rewrite Hf. simulate.
    rewrite elem_update_eq by exact Hn. simpl. rewrite lookup_insert_eq.
    rewrite dispatches_app, app_nil_r. auto.
Qed.

(** *** The container *)

Lemma cacheElements_container : preserves container_shared cacheElements.
Proof.
  intros s H. unfold container_shared, after, cacheElements in *.
  explore; exact H.
Qed.

Lemma exec_container o : preserves container_shared (exec o).
Proof.
  destruct o; simpl;
    first [ apply cacheElements_container
          | unfold container_shared; preserve frame ].
Qed.

Lemma run_container os s : container_shared s → container_shared (run os s).
Proof.
  revert s. induction os as [|o os IH]; intros s H; simpl; [exact H|].
  apply IH, exec_container, H.
Qed.

(** X19. The player is built on the container of the host shell, and no
    operation makes the two references differ. So, in every state
    reached from construction, the toggle of the host shell (space bar,
    click on the overlay), which reads the class of its own container,
    does exactly what the play/pause button of the control bar does. *)
Theorem togglePlayPause_agree (Vlitejs : V.t) (d : Document) (os : list Op) :
  let s := run os (Player_constructor Vlitejs d) in
  P.container (P.elements (player s)) = V.container (vlitejs s) ∧
  Vlitejs_togglePlayPause s = ControlBar_togglePlayPause true s.
Proof.
  intros s.
  assert (H : container_shared s) by (apply run_container; reflexivity).
  split; [exact H|].
  unfold Vlitejs_togglePlayPause, ControlBar_togglePlayPause, preventDefault.
  simulate. rewrite H. reflexivity.
Qed.

(** *** onVideoEnded without the loop option *)

Section KeptEnded.
Context (Q : gset string → Prop) (c : node).
Hypothesis Q_active : ∀ C, Q C → Q (C ∪ {["v-active"]}).

Ltac ended_side :=
  intros; first
    [ assumption
    | project; apply (elem_update_keeps (λ e, Q (classList e)));
      [intros ? ?; first [assumption | apply Q_active; assumption]|assumption] ].

(** What [onVideoEnded] does after the update of the container keeps, at
    every node, every property of the classes that holds on with
    v-active added. *)
Lemma onVideoEnded_tail_keeps :
  preserves (λ s, Q (classList (elem (document s) c)))
    (poster ← option_ "poster";
     when (truthy poster)
       (ifElement P.poster (λ n, dom_update n (classList_add "v-active")));;
     ifElement P.progressBar (λ n,
       dom_update n (set_value "0");;
       dom_update n (style_setProperty "--value" "0%");;
       dom_update n (removeAttribute "aria-valuenow"));;
     ifElement P.currentTime (λ n, dom_update n (set_innerHTML "00:00"));;
     dispatchEvent "ended").
Proof using Q_active. preserve ended_side. Qed.
End KeptEnded.

Lemma onVideoEnded_tail_player p :
  preserves (λ s, player s = p)
    (poster ← option_ "poster";
     when (truthy poster)
       (ifElement P.poster (λ n, dom_update n (classList_add "v-active")));;
     ifElement P.progressBar (λ n,
       dom_update n (set_value "0");;
       dom_update n (style_setProperty "--value" "0%");;
       dom_update n (removeAttribute "aria-valuenow"));;
     ifElement P.currentTime (λ n, dom_update n (set_innerHTML "00:00"));;
     dispatchEvent "ended").
Proof. preserve frame. Qed.

Ltac calls_side :=
  intros; first
    [ assumption
    | simpl; rewrite calls_app; simpl; rewrite app_nil_r; assumption ].

Lemma onVideoEnded_tail_calls cs :
  preserves (λ s, calls (trace s) = cs)
    (poster ← option_ "poster";
     when (truthy poster)
       (ifElement P.poster (λ n, dom_update n (classList_add "v-active")));;
     ifElement P.progressBar (λ n,
       dom_update n (set_value "0");;
       dom_update n (style_setProperty "--value" "0%");;
       dom_update n (removeAttribute "aria-valuenow"));;
     ifElement P.currentTime (λ n, dom_update n (set_innerHTML "00:00"));;
     dispatchEvent "ended").
Proof. preserve calls_side. Qed.

(** X20. [onVideoEnded] with the loop option off. The container is put
    back in first start and is not left playing (it is paused if it was
    playing), and with the poster option set an existing poster is made
    active again. [isPaused], however, is not assigned: the player is
    left as it was, with the value [isPaused] had while the media was
    playing. No provider method is called. *)
Theorem onVideoEnded_no_loop (s : State) :
  truthy (prop (V.options (vlitejs s)) "loop") = false →
  let c := P.container (P.elements (player s)) in
  let s' := after onVideoEnded s in
  player s' = player s ∧
  (is_Some (nodes (document s) !! c) →
     "v-firstStart" ∈ classList (elem (document s') c)) ∧
  ("v-playing" ∉ classList (elem (document s') c)) ∧
  ("v-playing" ∈ classList (elem (document s) c) →
     "v-paused" ∈ classList (elem (document s') c)) ∧
  (∀ n, truthy (prop (V.options (vlitejs s)) "poster") = true →
        P.poster (P.elements (player s)) = Some n →
        is_Some (nodes (document s) !! n) →
        "v-active" ∈ classList (elem (document s') n)) ∧
  calls (trace s') = calls (trace s).
Proof.
  intros Hloop c s'. subst s'. unfold onVideoEnded.
  rewrite after_bind. simpl. rewrite Hloop. rewrite after_bind.
  change (after (option_ "loop") s) with s.
  set (head := (onContainer (classList_replace "v-playing" "v-paused");;
                onContainer (classList_add "v-firstStart"))).
  assert (Hhead : head s = (Normal tt,
    with_document (update c (classList_add "v-firstStart"))
      (with_document (update c (classList_replace "v-playing" "v-paused")) s)))
    by reflexivity.
  set (s1 := with_document (update c (classList_add "v-firstStart"))
               (with_document (update c (classList_replace "v-playing" "v-paused")) s))
    in *.
  assert (Ha : after head s = s1) by (unfold after; rewrite Hhead; reflexivity).
  assert (Ho : outcome head s = Normal tt) by (unfold outcome; rewrite Hhead; reflexivity).
  rewrite Ho, Ha. clearbody head.
  split_and!.
  - apply (onVideoEnded_tail_player (player s) s1). reflexivity.
  - intros Hc.
    apply (onVideoEnded_tail_keeps (λ C, "v-firstStart" ∈ C) c); [set_solver|].
    unfold s1. project. rewrite elem_update_eq by (rewrite member_update; exact Hc).
    simpl. set_solver.
  - apply (onVideoEnded_tail_keeps (λ C, "v-playing" ∉ C) c); [set_solver|].
    unfold s1. project.
    apply (elem_update_keeps (λ e, "v-playing" ∉ classList e));
      [intros e He; simpl; set_solver|].
    destruct (elem_update_same c (classList_replace "v-playing" "v-paused") (document s))
      as [-> | ->]; [apply classList_replace_gone; done|simpl; set_solver].
  - intros Hin. pose proof (member_classList _ _ _ Hin) as Hc.
    apply (onVideoEnded_tail_keeps (λ C, "v-paused" ∈ C) c); [set_solver|].
    unfold s1. project.
    rewrite elem_update_eq by (rewrite member_update; exact Hc).
    rewrite elem_update_eq by exact Hc. simpl.
    apply elem_of_union_l, classList_replace_new, Hin.
  - intros n Hposter Hp Hn.
    destruct (onVideoEnded_tail s1) as (H & _). apply H; [exact Hposter|exact Hp|].
    unfold s1. project. rewrite !member_update. exact Hn.
  - apply (onVideoEnded_tail_calls (calls (trace s)) s1). reflexivity.
Qed.


(** *** The duration shown by the control bar *)

(** X21. [ControlBar.onPlayerReady] asks the provider for the duration
    and leaves the document alone: when the promise fulfils, with [y],
    the callback is queued; when it rejects, no callback is queued and
    the rejection is left unhandled; when it stays pending, nothing
    happens. The callback, whenever it runs, writes [Math.round(y)] as
    aria-valuemax on an existing progress bar and the formatted,
    unrounded [y] as the text of an existing duration label, and
    dispatches nothing. *)
Theorem ControlBar_onPlayerReady_flow (s : State) :
  (∀ y, Provider.getDuration provider = Normal (Fulfilled y) →
     ControlBar_onPlayerReady s =
       (Normal tt,
        with_jobs (λ q, q ++ [JobDuration y])
          (with_trace (λ t, t ++ [Call m_getDuration]) s))) ∧
  (∀ e, Provider.getDuration provider = Normal (Rejected e) →
     ControlBar_onPlayerReady s =
       (Normal tt,
        with_unhandled (λ u, u ++ [e])
          (with_trace (λ t, t ++ [Call m_getDuration]) s))) ∧
  (Provider.getDuration provider = Normal Pending →
     ControlBar_onPlayerReady s =
       (Normal tt, with_trace (λ t, t ++ [Call m_getDuration]) s)) ∧
  (∀ y, let s' := after (ControlBar_onPlayerReady_callback y) s in
     trace s' = trace s ∧
     (∀ n, P.progressBar (P.elements (player s)) = Some n →
           is_Some (nodes (document s) !! n) →
           attributes (elem (document s') n) !! "aria-valuemax" =
             Some (Host.toString host (Host.Math_round host y))) ∧
     (∀ n, P.duration (P.elements (player s)) = Some n →
           is_Some (nodes (document s) !! n) →
           innerHTML (elem (document s') n) = Host.formatVideoTime host y)).
Proof.
  split_and!.
  - intros y Hy. unfold ControlBar_onPlayerReady, then_. simulate.
    rewrite Hy. reflexivity.
  - intros e He. unfold ControlBar_onPlayerReady, then_. simulate.
    rewrite He. reflexivity.
  - intros Hp. unfold ControlBar_onPlayerReady, then_. simulate.
    rewrite Hp. reflexivity.
  - intros y s'. subst s'. unfold after, ControlBar_onPlayerReady_callback.
    explore;
      (split_and!; [reflexivity|intros m Hpb Hn|intros m Hdu Hn]); simplify_eq;
      try (apply (elem_update_keeps
                    (λ e, attributes e !! "aria-valuemax" =
                          Some (Host.toString host (Host.Math_round host y))));
           [intros e He; exact He|]);
      rewrite elem_update_eq by (rewrite ?member_update; exact Hn);
      first [reflexivity | simpl; apply lookup_insert_eq].
Qed.
End Methods.

(** ** The base class *)

(** C9. Whatever the state, each method the base class leaves to the
    provider throws, at the call, an [Error] whose message is the
    sentence of the source with the name of that method between quotes.
    The capabilities of the specification are these methods: init,
    waitUntilVideoIsReady (wait until ready), getCurrentTime, methodSeekTo
    (seek), getDuration, methodPlay (play), methodPause (pause),
    methodSetVolume (set volume), methodGetVolume (get volume), methodMute
    (mute) and methodUnMute (unmute); getInstance behaves alike. *)
Theorem base_methods_throw (m : Method) (s : State) :
  ∃ message,
    outcome (invoke Player_base m) s = Throw (mkError "Error" message) ∧
    message =
      "You have to implement the function " +:+ dquote +:+ method_name m
        +:+ dquote +:+ "." ∧
    occurs (method_name m) message = true ∧
    player (after (invoke Player_base m) s) = player s ∧
    document (after (invoke Player_base m) s) = document s.
Proof.
  destruct m; eexists; (split; [reflexivity|]); (split; [reflexivity|]);
    (split; [vm_compute; reflexivity|]); split; reflexivity.
Qed.

(** ** Options and attributes at construction *)

(** A round of the loop touches only the name it is about. *)
Lemma syncAttribute_other st item k :
  k ≠ item →
  hasAttribute k (syncAttribute st item).1 = hasAttribute k st.1 ∧
  (syncAttribute st item).2 !! k = st.2 !! k.
Proof.
  intros Hne. destruct st as [media options]. unfold syncAttribute. simpl.
  destruct (hasAttribute item media); simpl.
  { split; [reflexivity|]. rewrite lookup_insert_ne by done. reflexivity. }
  destruct (truthy (prop options item)); simpl; [|auto].
  split; [|reflexivity]. unfold hasAttribute. simpl.
  rewrite lookup_insert_ne by done. reflexivity.
Qed.

(** After its round, attribute and option agree on a name; the round
    leaves no value only where there was none. *)
Lemma syncAttribute_own st item :
  (hasAttribute item (syncAttribute st item).1 = true ↔
   truthy (prop (syncAttribute st item).2 item) = true) ∧
  ((syncAttribute st item).2 !! item = None → st.2 !! item = None).
Proof.
  destruct st as [media options]. unfold syncAttribute. simpl.
  destruct (hasAttribute item media) eqn:Ha; simpl.
  { unfold prop. rewrite lookup_insert_eq. simpl. split; [tauto|discriminate]. }
  destruct (truthy (prop options item)) eqn:Ht; simpl.
  - rewrite Ht. unfold hasAttribute. simpl. rewrite lookup_insert_eq.
    split; [|auto]. split; [auto|]. intros _. apply bool_decide_eq_true. eauto.
  - rewrite Ha, Ht. tauto.
Qed.

(** After the loop over a list of distinct names, attribute and option
    of the caller agree on each name of the list. *)
Lemma foldl_syncAttribute l st item :
  NoDup l → item ∈ l →
  (hasAttribute item (foldl syncAttribute st l).1 = true ↔
   truthy (prop (foldl syncAttribute st l).2 item) = true) ∧
  ((foldl syncAttribute st l).2 !! item = None → st.2 !! item = None).
Proof.
  induction l as [|j l IH] using rev_ind; intros Hnd Hin.
  { apply elem_of_nil in Hin. destruct Hin. }
  rewrite foldl_app. simpl.
  apply NoDup_app in Hnd as (Hnd & Hdisj & _).
  destruct (decide (item = j)) as [->|Hne].
  - destruct (syncAttribute_own (foldl syncAttribute st l) j) as [H1 H2].
    split; [exact H1|]. intros Hnone. specialize (H2 Hnone).
    clear -H2. revert st H2. induction l as [|i l IH]; intros st H2; [exact H2|].
    simpl in H2. specialize (IH _ H2).
    destruct st as [media options]. unfold syncAttribute in IH.
    destruct (hasAttribute i media); simpl in *.
    + destruct (decide (i = j)) as [->|]; [rewrite lookup_insert_eq in IH; discriminate|].
      rewrite lookup_insert_ne in IH by done. exact IH.
    + destruct (truthy (prop options i)); exact IH.
  - apply elem_of_app in Hin as [Hin|Hin];
      [|apply list_elem_of_singleton in Hin; congruence].
    destruct (syncAttribute_other (foldl syncAttribute st l) j item Hne) as [Ha Ho].
    rewrite Ha. unfold prop. rewrite Ho. apply IH; assumption.
Qed.

(** The loop and the merge keep attribute and option consistent except
    where a default supplies a true value the caller did not give: that
    is playsinline on a video element, and nothing else. *)
Lemma Vlitejs_options_consistent type media options item :
  item ∈ domAttributes →
  let '(media', merged) := Vlitejs_options type media options in
  (hasAttribute item media' = true → truthy (prop merged item) = true) ∧
  (truthy (prop merged item) = true → hasAttribute item media' = false →
     item = "playsinline" ∧ String.eqb type "audio" = false ∧
     options !! "playsinline" = None).
Proof.
  intros Hin. unfold Vlitejs_options.
  assert (Hnd : NoDup domAttributes).
  { unfold domAttributes. repeat (apply NoDup_cons; split; [set_solver|]).
    apply NoDup_nil. done. }
  destruct (foldl_syncAttribute domAttributes (media, options) item Hnd Hin)
    as [Hiff Hnone].
  destruct (foldl syncAttribute (media, options) domAttributes)
    as [media' options'] eqn:E. simpl in *.
  unfold prop in *. rewrite lookup_union.
  destruct (options' !! item) as [v|] eqn:Ev; simpl.
  - assert (Hv : default JUndefined (Some v ∪ DEFAULT_OPTIONS type !! item) = v).
    { destruct (DEFAULT_OPTIONS type !! item); reflexivity. }
    rewrite Hv. split; [apply Hiff|].
    intros Ht Ha. apply Hiff in Ht. congruence.
  - specialize (Hnone eq_refl).
    split; [intros Ha; apply Hiff in Ha; discriminate|].
    intros Ht _. unfold DEFAULT_OPTIONS in Ht.
    unfold domAttributes in Hin.
    repeat (apply elem_of_cons in Hin as [->|Hin]);
      [| | | |apply elem_of_nil in Hin; destruct Hin];
      destruct (String.eqb type "audio"); vm_compute in Ht;
      try discriminate.
    auto.
Qed.

(** C3, at the input where the code departs from it: a video element
    without attributes and a caller who passes no option. The merged
    options hold playsinline true, from the defaults, and the media
    element has no playsinline attribute. *)
Theorem Vlitejs_options_default_playsinline :
  let '(media, options) := Vlitejs_options "video" blank ∅ in
  prop options "playsinline" = JBool true ∧
  hasAttribute "playsinline" media = false.
Proof. vm_compute. split; reflexivity. Qed.

(** ** The properties on the sample player *)

(** C1 at NaN: the value forwarded is NaN, which lies in no interval. *)
Lemma setVolume_nan_not_clamped :
  ¬ setVolume_clamped sample_provider sample_host nan (sample_state video_defaults).
Proof.
  intros (w & Δ & Ht & Hc & _ & [H0 _] & _).
  vm_compute in Ht. subst Δ.
  vm_compute in Hc. injection Hc as <-.
  vm_compute in H0. discriminate.
Qed.

Lemma setVolume_clamps_witness :
  setVolume_clamped sample_provider sample_host 0.5 (sample_state video_defaults).
Proof.
  apply (setVolume_clamps sample_provider sample_host 0.5
           (sample_state video_defaults)).
  - reflexivity.
  - intros w. reflexivity.
Defined.

(** C2 on the sample player, the duration query rejecting: the rejection
    is left unhandled. *)
Lemma onTimeUpdate_rejection_unhandled :
  truthy (prop (V.options (vlitejs (sample_state video_defaults))) "time") = true ∧
  Provider.getDuration rejecting_provider = Normal (Rejected failure) ∧
  ¬ onTimeUpdate_skipped rejecting_provider (sample_state video_defaults).
Proof.
  split; [reflexivity|]. split; [reflexivity|].
  intros (_ & Hu & _). vm_compute in Hu. discriminate.
Qed.

Lemma onTimeUpdate_rejected_witness :
  outcome (onTimeUpdate rejecting_provider) (sample_state video_defaults) = Normal tt ∧
  jobs (after (onTimeUpdate rejecting_provider) (sample_state video_defaults)) = [].
Proof.
  destruct (onTimeUpdate_rejected rejecting_provider (sample_state video_defaults)
              (Fulfilled 30) (Rejected failure) failure)
    as (Ho & _ & _ & Hj & _).
  - reflexivity.
  - reflexivity.
  - reflexivity.
  - right. reflexivity.
  - split; [exact Ho|exact Hj].
Defined.

(** C4 on a player built with the default options, autoplay off:
    [isPaused] is still null after [onPlayerReady]. *)
Lemma isPaused_null_after_ready :
  ¬ boolean_from_readiness sample_provider sample_host
      (Player_constructor (sample_vlitejs video_defaults) sample_document).
Proof.
  intros H. specialize (H []). unfold isPaused_known in H.
  vm_compute in H. destruct H as [b Hb]. discriminate.
Qed.

Lemma isPaused_lifecycle_witness :
  P.isPaused
    (player (after (onPlayerReady sample_provider sample_host)
               (Player_constructor
                  (sample_vlitejs (<["autoplay" := JBool true]> video_defaults))
                  sample_document)))
  = Some false.
Proof.
  destruct (isPaused_lifecycle sample_provider sample_host) as (_ & _ & H & _).
  apply H.
  - reflexivity.
  - right. vm_compute. reflexivity.
  - reflexivity.
Defined.

Lemma onVideoEnded_replays_or_resets_witness :
  value (elem (document (after (onVideoEnded sample_provider sample_host)
                           (sample_state video_defaults))) 4) = "0".
Proof.
  apply (onVideoEnded_replays_or_resets sample_provider sample_host
           (sample_state video_defaults)).
  - reflexivity.
  - reflexivity.
  - vm_compute. eauto.
Defined.

(** C6 on the sample player with the loop option on: the progress bar is
    reset from 50 to 0. *)
Lemma onVideoEnded_loop_resets :
  truthy (prop (V.options (vlitejs (sample_state looping))) "loop") = true ∧
  ¬ loop_skips_reset sample_provider sample_host (sample_state looping).
Proof.
  split; [reflexivity|].
  intros (_ & _ & Hv & _). specialize (Hv 4 eq_refl).
  vm_compute in Hv. discriminate.
Qed.

Lemma onVideoEnded_loop_witness :
  value (elem (document (after (onVideoEnded sample_provider sample_host)
                           (sample_state looping))) 4) = "0".
Proof.
  apply (onVideoEnded_loop sample_provider sample_host (sample_state looping)).
  - reflexivity.
  - vm_compute. reflexivity.
  - reflexivity.
  - vm_compute. eauto.
Defined.

(** C7 as it was stated, at two inputs. On the sample player, whose
    second listener of timeupdate throws here, a third listener
    registered through [on] is not called by the dispatch. And a
    listener registered for [__proto__], returning or not, is not called
    either: nothing has been registered. *)
Lemma dispatchEvent_not_all_invoked :
  ¬ all_invoked_in_order throwing_host "timeupdate" 9 (sample_state video_defaults) ∧
  ¬ all_invoked_in_order sample_host "__proto__" 9 (sample_state video_defaults).
Proof.
  split; intros H; vm_compute in H; discriminate.
Qed.

Lemma dispatchEvent_registration_order_witness :
  dispatchEvent sample_host "timeupdate" (sample_state video_defaults) =
  (Normal tt,
   with_trace
     (λ t, t ++ Dispatch "timeupdate"
             :: map Invoke (listeners (sample_state video_defaults) "timeupdate"))
     (sample_state video_defaults)).
Proof.
  destruct (dispatchEvent_registration_order sample_host
              (sample_state video_defaults) "timeupdate") as (_ & _ & _ & H & _).
  apply H. vm_compute. repeat constructor.
Defined.

Lemma requestFullscreen_unavailable_witness :
  requestFullscreen sample_host (sample_state video_defaults) =
  (Normal tt, sample_state video_defaults).
Proof.
  destruct (requestFullscreen_unavailable sample_host (sample_state video_defaults))
    as (H & _); [|exact H].
  simpl. apply not_elem_of_empty.
Defined.

Lemma getVolume_rejected_never_settles_witness :
  ∃ reactions,
    cells (run rejecting_provider sample_host
             [op_runJob 0; op_increaseVolume; op_setVolume 1; op_runJob 0]
             (after (increaseVolume rejecting_provider)
                (sample_state video_defaults)))
      !! fresh (dom (cells (sample_state video_defaults)))
    = Some (CellPending reactions).
Proof.
  destruct (getVolume_rejected_never_settles rejecting_provider sample_host
              (sample_state video_defaults) failure) as (_ & _ & _ & _ & H).
  - intros c x Hin. vm_compute in Hin. apply elem_of_nil in Hin. destruct Hin.
  - reflexivity.
  - destruct (H ThenIncrease) as (_ & _ & _ & _ & _ & _ & Hos). apply Hos.
Defined.

(** ** The sample player at work *)

(** A time update whose queries fulfil queues the callback; once run, the
    callback writes the attribute of the progress bar and the time label
    and dispatches timeupdate to the two listeners, in registration
    order. *)
Example onTimeUpdate_fulfilled :
  let s1 := run sample_provider sample_host [op_onTimeUpdate]
              (sample_state video_defaults) in
  let s2 := run sample_provider sample_host [op_runJob 0] s1 in
  jobs s1 = [JobTimeUpdate 30 60] ∧
  jobs s2 = [] ∧
  trace s2 = [Call m_getCurrentTime; Call m_getDuration;
              Dispatch "timeupdate"; Invoke 7; Invoke 8] ∧
  attributes (elem (document s2) 4) !! "aria-valuenow" = Some "number" ∧
  innerHTML (elem (document s2) 5) = "mm:ss".
Proof. vm_compute. repeat split; reflexivity. Qed.

(** The volume-up key on a provider at full volume: the promise of
    [getVolume] is resolved by the first callback, the reaction of the
    key runs next and forwards the clamped value. *)
Example increaseVolume_fulfilled :
  let s' := run sample_provider sample_host
              [op_increaseVolume; op_runJob 0; op_runJob 0]
              (sample_state video_defaults) in
  calls (trace s') = [m_methodGetVolume; m_methodSetVolume 1] ∧
  cells s' !! 0 = Some (CellFulfilled 1) ∧
  jobs s' = [] ∧ unhandled s' = [].
Proof. vm_compute. repeat split; reflexivity. Qed.

(** [play()] then [pause()] on the sample player. *)
Example play_then_pause :
  let s' := run sample_provider sample_host [op_play; op_pause]
              (sample_state video_defaults) in
  P.isPaused (player s') = Some true ∧
  trace s' = [Call m_methodPlay; Dispatch "play"; Call m_methodPause; Dispatch "pause"] ∧
  classList_contains "v-paused" (elem (document s') 1) = true.
Proof. vm_compute. repeat split; reflexivity. Qed.

(** ** The head of the constructor of Vlitejs *)

Lemma foldl_syncAttribute_other l st k :
  k ∉ l → (foldl syncAttribute st l).2 !! k = st.2 !! k.
Proof.
  revert st. induction l as [|item l IH]; intros st Hk; simpl; [reflexivity|].
  rewrite IH by set_solver.
  apply syncAttribute_other. set_solver.
Qed.


(** X23. Hiding the control bar is opt-in and for video only. Whenever
    the constructor gets as far as [autoHideGranted], the host shell
    counts as paused, and [autoHideGranted] is true exactly when the
    type is video, the caller's own options hold a truthy autoHide (the
    default is false) and do not hold a falsy controls (the default is
    true). In particular it is false for every audio element. *)
Theorem Vlitejs_autoHideGranted_opt_in (lookup : string → option (node * ElementKind))
    (d : Document) (selector : Selector) (options : gmap string jsval)
    (h : VlitejsHead) :
  Vlitejs_constructor_head lookup d selector options = Normal h →
  head_isPaused h = true ∧
  (head_autoHideGranted h = true ↔
     head_type h = "video" ∧
     truthy (prop options "autoHide") = true ∧
     (options !! "controls" = None ∨ truthy (prop options "controls") = true)) ∧
  (head_type h = "audio" → head_autoHideGranted h = false).
Proof.
  unfold Vlitejs_constructor_head.
  destruct (Vlitejs_media lookup selector) as [[[n k]|]|e]; try discriminate.
  unfold Vlitejs_options.
  pose proof (foldl_syncAttribute_other domAttributes (elem d n, options) "autoHide")
    as Ha.
  pose proof (foldl_syncAttribute_other domAttributes (elem d n, options) "controls")
    as Hc.
  destruct (foldl syncAttribute (elem d n, options) domAttributes) as [e' o'].
  simpl in Ha, Hc.
  specialize (Ha ltac:(unfold domAttributes; set_solver)).
  specialize (Hc ltac:(unfold domAttributes; set_solver)).
  intros [= <-]. simpl. unfold Vlitejs_autoHideGranted, prop.
  rewrite !lookup_union, Ha, Hc.
  split; [reflexivity|].
  assert (Hv1 : DEFAULT_OPTIONS "video" !! "autoHide" = Some (JBool false))
    by (vm_compute; reflexivity).
  assert (Hv2 : DEFAULT_OPTIONS "video" !! "controls" = Some (JBool true))
    by (vm_compute; reflexivity).
  destruct k; simpl; rewrite ?Hv1, ?Hv2;
    try (split; [|reflexivity]; split; [intros [=]|intros [[=] _]]);
    (split; [|intros [=]]);
    destruct (options !! "autoHide") as [a|], (options !! "controls") as [b|];
    simpl; rewrite ?andb_true_r, ?andb_false_r, ?andb_true_iff; intuition congruence.
Qed.

(** ** The further properties on the sample player *)

Lemma pause_effect_witness :
  P.isPaused (player (after (pause sample_provider sample_host)
                        (sample_state video_defaults))) = Some true.
Proof.
  pose proof (pause_effect sample_provider sample_host (sample_state video_defaults))
    as H.
  cbv zeta in H. destruct H as [_ H]. destruct (H eq_refl) as (H1 & _). exact H1.
Defined.

Lemma play_pause_sequence_witness :
  P.isPaused (player (run sample_provider sample_host [op_play; op_pause]
                        (initial_state video_defaults))) = Some true.
Proof.
  destruct (play_pause_sequence sample_provider sample_host
              (initial_state video_defaults)) as (_ & H & _).
  - reflexivity.
  - reflexivity.
  - exact H.
Defined.

Lemma play_provider_throws_witness :
  "v-firstStart" ∉ classList (elem (document (after (play Player_base sample_host)
                                                (initial_state video_defaults))) 1).
Proof.
  destruct (play_provider_throws Player_base sample_host
              (initial_state video_defaults) (notImplemented "methodPlay"))
    as (_ & _ & _ & H).
  - reflexivity.
  - exact H.
Defined.

Lemma mute_unMute_round_trip_witness :
  P.isMuted (player (after (unMute sample_provider sample_host)
                       (after (mute sample_provider sample_host)
                          (sample_state video_defaults)))) = JBool false.
Proof.
  pose proof (mute_unMute_round_trip sample_provider sample_host
                (sample_state video_defaults) eq_refl eq_refl) as H.
  cbv zeta in H. destruct H as (_ & H & _). exact H.
Defined.

Lemma setVolume_provider_throws_witness :
  P.isMuted (player (after (setVolume Player_base sample_host 0)
                       (sample_state video_defaults))) = JBool true.
Proof.
  destruct (setVolume_provider_throws Player_base sample_host
              (sample_state video_defaults) 0 (notImplemented "methodSetVolume"))
    as (_ & _ & H & _).
  - intros w. reflexivity.
  - apply H. reflexivity.
Defined.

Lemma dispatchEvent_listener_throws_witness :
  dispatchEvent throwing_host "timeupdate"
    (after (on "timeupdate" (JFun 9)) (sample_state video_defaults)) =
  (Throw failure,
   with_trace (λ t, t ++ [Dispatch "timeupdate"; Invoke 7; Invoke 8])
     (after (on "timeupdate" (JFun 9)) (sample_state video_defaults))).
Proof.
  apply (dispatchEvent_listener_throws throwing_host _ "timeupdate" [7] [9] 8 failure).
  - reflexivity.
  - repeat constructor.
  - reflexivity.
Defined.

Lemma on_registration_witness :
  on "play" JNull (sample_state video_defaults) =
  (Normal tt, sample_state video_defaults).
Proof.
  destruct (on_registration sample_host (sample_state video_defaults) "play")
    as [H _].
  apply H. reflexivity.
Defined.

Lemma requestFullscreen_available_witness :
  P.isFullScreen (player (after (requestFullscreen sample_host)
                            (initial_state video_defaults))) = true.
Proof.
  pose proof (requestFullscreen_available sample_host (initial_state video_defaults))
    as H.
  cbv zeta in H. destruct H as [_ H].
  - vm_compute. set_solver.
  - destruct (H eq_refl) as (H1 & _). exact H1.
Defined.

Lemma exitFullscreen_effect_witness :
  P.isFullScreen (player (after (exitFullscreen sample_host true)
                            (after (requestFullscreen sample_host)
                               (initial_state video_defaults)))) = false.
Proof.
  pose proof (exitFullscreen_effect sample_host
                (after (requestFullscreen sample_host) (initial_state video_defaults)))
    as H.
  cbv zeta in H. destruct H as [_ H].
  destruct H as ((H1 & _) & _).
  - vm_compute. set_solver.
  - exact H1.
Defined.

Lemma destroy_effect_witness :
  P.customEvents (player (after (destroy sample_provider sample_host)
                            (sample_state video_defaults))) = ∅.
Proof.
  destruct (destroy_effect sample_provider sample_host (sample_state video_defaults))
    as [_ H].
  destruct (H eq_refl) as (_ & H2 & _). exact H2.
Defined.

Lemma cacheElements_effect_witness :
  attributes (elem (document (after cacheElements
                                (Player_constructor (sample_vlitejs video_defaults)
                                   initial_document))) 6) !! "aria-label"
  = Some "Mute".
Proof.
  pose proof (cacheElements_effect
                (Player_constructor (sample_vlitejs video_defaults) initial_document))
    as H.
  cbv zeta in H. destruct H as (_ & _ & _ & _ & _ & _ & H & _).
  destruct (H 3 6 eq_refl eq_refl) as (_ & _ & H3). exact H3.
Defined.

Lemma onPlayerReady_autoplay_witness :
  onPlayerReady Player_base sample_host
    (initial_state (<["autoplay" := JBool true]> video_defaults)) =
  (Throw (notImplemented "methodMute"),
   with_trace (λ t, t ++ [Call m_methodMute])
     (initial_state (<["autoplay" := JBool true]> video_defaults))).
Proof.
  destruct (onPlayerReady_autoplay Player_base sample_host
              (initial_state (<["autoplay" := JBool true]> video_defaults)))
    as [_ H].
  destruct (H eq_refl) as [H1 _]. destruct (H1 eq_refl) as [_ H2].
  apply H2. reflexivity.
Defined.

(** On a player whose control bar may be hidden, [play] does reach the
    timer: it clears it (the second event of the trace) and starts
    none. *)
Lemma autoHide_never_starts_witness :
  V.autoHideGranted (vlitejs autoHide_state) = true ∧
  trace (run sample_provider sample_host [op_play; op_pause; op_play] autoHide_state)
    !! 1 = Some (ClearTimeout None) ∧
  timers (run sample_provider sample_host [op_play; op_pause; op_play] autoHide_state)
  ⊆ timers autoHide_state.
Proof.
  split; [reflexivity|]. split; [vm_compute; reflexivity|].
  destruct (autoHide_never_starts sample_provider sample_host autoHide_state
              [op_play; op_pause; op_play]) as (_ & H & _).
  - reflexivity.
  - exact H.
Defined.

Lemma volumeKey_fulfilled_witness :
  trace (after (volumeKey sample_provider ThenIncrease) (sample_state video_defaults))
  = trace (sample_state video_defaults) ++ [Call m_methodGetVolume].
Proof.
  pose proof (volumeKey_fulfilled sample_provider sample_host
                (sample_state video_defaults) ThenIncrease 1 eq_refl) as H.
  cbv zeta in H. destruct H as [H _]. exact H.
Defined.

Lemma onTimeUpdate_flow_witness :
  onTimeUpdate sample_provider (sample_state video_defaults) =
  (Normal tt,
   with_jobs (λ q, q ++ [JobTimeUpdate 30 60])
     (with_trace (λ t, (t ++ [Call m_getCurrentTime]) ++ [Call m_getDuration])
        (sample_state video_defaults))).
Proof.
  destruct (onTimeUpdate_flow sample_provider sample_host (sample_state video_defaults))
    as (_ & H & _).
  apply H; reflexivity.
Defined.

Lemma togglePlayPause_flips_witness :
  P.isPaused (player (after (ControlBar_togglePlayPause sample_provider sample_host true)
                        (initial_state video_defaults))) = Some false.
Proof.
  pose proof (togglePlayPause_flips sample_provider sample_host
                (initial_state video_defaults) true) as H.
  cbv zeta in H. destruct H as [H _].
  destruct H as (H1 & _).
  - vm_compute. set_solver.
  - reflexivity.
  - exact H1.
Defined.

Lemma toggleVolume_flips_witness :
  P.isMuted (player (after (toggleVolume sample_provider sample_host)
                       (initial_state video_defaults))) = JBool true.
Proof.
  destruct (toggleVolume_flips sample_provider sample_host (initial_state video_defaults))
    as [_ H].
  pose proof (H 6 eq_refl ltac:(vm_compute; eauto) eq_refl eq_refl eq_refl) as H'.
  cbv zeta in H'. destruct H' as (_ & H2 & _). exact H2.
Defined.

Lemma toggleFullscreen_label_witness :
  attributes
    (elem (document (after (toggleFullscreen sample_host)
                       (after cacheElements
                          (Player_constructor (sample_vlitejs video_defaults)
                             (mkDocument (nodes initial_document)
                                (descendants initial_document) false ∅ ∅))))) 7)
    !! "aria-label" = Some "Exit fullscreen".
Proof.
  pose proof (toggleFullscreen_label sample_host
                (after cacheElements
                   (Player_constructor (sample_vlitejs video_defaults)
                      (mkDocument (nodes initial_document)
                         (descendants initial_document) false ∅ ∅)))
                7 eq_refl ltac:(vm_compute; eauto)) as H.
  cbv zeta in H. destruct H as [H _].
  destruct H as (_ & _ & _ & H4).
  - reflexivity.
  - simpl. apply not_elem_of_empty.
  - exact H4.
Defined.

Lemma onVideoEnded_no_loop_witness :
  player (after (onVideoEnded sample_provider sample_host)
            (sample_state video_defaults))
  = player (sample_state video_defaults).
Proof.
  pose proof (onVideoEnded_no_loop sample_provider sample_host
                (sample_state video_defaults) eq_refl) as H.
  cbv zeta in H. destruct H as [H _]. exact H.
Defined.


Lemma Vlitejs_autoHideGranted_opt_in_witness :
  ∃ h, Vlitejs_constructor_head (λ _, None) sample_document
         (SelectorElement 0 HTMLAudioElement) {[ "autoHide" := JBool true ]}
       = Normal h ∧
       head_autoHideGranted h = false.
Proof.
  eexists. split; [reflexivity|].
  eapply (Vlitejs_autoHideGranted_opt_in (λ _, None) sample_document
            (SelectorElement 0 HTMLAudioElement) {[ "autoHide" := JBool true ]}).
  - reflexivity.
  - reflexivity.
Defined.

Lemma ControlBar_onPlayerReady_flow_witness :
  ControlBar_onPlayerReady sample_provider (sample_state video_defaults) =
  (Normal tt,
   with_jobs (λ q, q ++ [JobDuration 60])
     (with_trace (λ t, t ++ [Call m_getDuration]) (sample_state video_defaults))).
Proof.
  destruct (ControlBar_onPlayerReady_flow sample_provider sample_host
              (sample_state video_defaults)) as (H & _).
  apply H. reflexivity.
Defined.
